(** * node-blend: the compositing core of [src/blend.cpp]

    A shallow embedding of the blender's C++ entry points and of the
    functions they call, followed by the properties the specification
    states about them.

    Conventions.
    - [unsigned int] is a [Z] in [0, 2^32); every operation that can leave
      that range is followed by its reduction modulo [2^32] (module [U32]).
    - [int] is a [Z] from [-2^31] to [2^31 - 1].  Signed overflow has no
      defined behaviour in C++: where the code computes [int]s that can
      leave this range (lines 401-418, 476-477 and 528) the embedding tests
      every result with [Int.fits], and a run in which one does not fit has
      no behaviour ([None], [NullLayer], [NoBehaviour]).
    - A canvas word that was allocated and never written holds no value:
      a canvas is a list of [cell]s, [None] standing for such a word. *)

From Stdlib Require Import ZArith List String Ascii Bool Lia.
From Stdlib.Strings Require Import Byte.
From Stdlib Require Import SpecFloat DecimalString.
Import ListNotations.
Local Open Scope Z_scope.

(* ================================================================== *)
(** * Part I: the program *)
(* ================================================================== *)

(** ** 32-bit unsigned arithmetic *)

Module U32.
Definition modulus : Z := 2 ^ 32.
Definition wrap (z : Z) : Z := z mod modulus.
Definition add (a b : Z) : Z := wrap (a + b).
Definition sub (a b : Z) : Z := wrap (a - b).
Definition mul (a b : Z) : Z := wrap (a * b).
Definition shl (a n : Z) : Z := wrap (Z.shiftl a n).
Definition shr (a n : Z) : Z := Z.shiftr a n.
Definition div (a b : Z) : Z := a / b.
Definition in_range (a : Z) : Prop := 0 <= a < modulus.
End U32.

(** ** 32-bit signed arithmetic *)

Module Int.
Definition min : Z := - 2 ^ 31.
Definition max : Z := 2 ^ 31 - 1.
(** The value is one an [int] can hold. *)
Definition fits (z : Z) : bool := (min <=? z) && (z <=? max).
End Int.

(** The four channels of an ARGB word, as the code extracts them. *)
Definition alpha_of (p : Z) : Z := Z.land (U32.shr p 24) 0xff.
Definition blue_of  (p : Z) : Z := Z.land (U32.shr p 16) 0xff.
Definition green_of (p : Z) : Z := Z.land (U32.shr p 8) 0xff.
Definition red_of   (p : Z) : Z := Z.land p 0xff.

(** [(a << 24) | (b << 16) | (g << 8) | r] on [unsigned int]. *)
Definition pack_argb (a b g r : Z) : Z :=
  Z.lor (Z.lor (Z.lor (U32.shl a 24) (U32.shl b 16)) (U32.shl g 8)) r.

(** ** [hexToUInt32Color] (blend.cpp, lines 20-37) *)

Definition hex_digit (c : ascii) : option Z :=
  let n := Z.of_N (N_of_ascii c) in
  if (48 <=? n) && (n <=? 57) then Some (n - 48)
  else if (97 <=? n) && (n <=? 102) then Some (n - 87)
  else if (65 <=? n) && (n <=? 70) then Some (n - 55)
  else None.

(** The number a run of hexadecimal digits denotes; [None] as soon as a
    character is not a digit. *)
Fixpoint hex_digits (s : string) (acc : Z) : option Z :=
  match s with
  | EmptyString => Some acc
  | String c rest =>
      match hex_digit c with
      | Some d => hex_digits rest (16 * acc + d)
      | None => None
      end
  end.

(** Line 22: [if (hex[0] == '#') hex++;] *)
Definition skip_hash (hex : string) : string :=
  match hex with
  | String "#" rest => rest
  | _ => hex
  end.

Section HexColor.

  (** What [ss >> color] stores, under [std::hex], for a text that is not a
      plain run of hexadecimal digits fitting 32 bits (signs, a [0x]
      prefix and white space are treated by the stream library). *)
Variable stream_hex_other : string -> Z.

  (** [ss << std::hex << hex; ss >> color;] *)
Definition stream_hex (s : string) : Z :=
    match s with
    | EmptyString => stream_hex_other s
    | _ =>
        match hex_digits s 0 with
        | Some v => if v <? U32.modulus then v else stream_hex_other s
        | None => stream_hex_other s
        end
    end.

  (** The argument is a C string: [None] is the null pointer.  [strlen]
      is the length of the text (texts longer than [INT_MAX] are outside
      the embedding). *)
Definition hexToUInt32Color (hex : option string) : Z :=
    match hex with
    | None => 0
    | Some hex =>
        let hex := skip_hash hex in
        let len := Z.of_nat (String.length hex) in
        if negb (len =? 6) && negb (len =? 8) then 0
        else
          let color := stream_hex hex in
          if len =? 8 then
            (* Circular shift to get from RGBA to ARGB. *)
            Z.lor (Z.lor (Z.lor (U32.shl color 24)
                                (U32.shl (Z.land color 0xFF00) 8))
                         (U32.shr (Z.land color 0xFF0000) 8))
                  (U32.shr (Z.land color 0xFF000000) 24)
          else
            Z.lor (Z.lor (Z.lor 0xFF000000
                                (U32.shl (Z.land color 0xFF) 16))
                         (Z.land color 0xFF00))
                  (U32.shr (Z.land color 0xFF0000) 16)
    end.

End HexColor.

(** ** [Blend_CompositePixel] (blend.cpp, lines 368-395) *)

(** A canvas word: [None] until it is written for the first time. *)
Definition cell : Type := option Z.

(** Line 388: [a0 = ((a1 + a0) << 8) - a0 * a1]. *)
Definition over_alpha (a0 a1 : Z) : Z :=
  U32.sub (U32.shl (U32.add a1 a0) 8) (U32.mul a0 a1).

(** Lines 389-391: [c0 = (((c1 << 8) - c0) * a1 + (c0 << 8)) / a0], where
    [c0] is the target channel already multiplied by the target alpha and
    [a0] the value of line 388. *)
Definition over_channel (c1 c0 a1 a0 : Z) : Z :=
  U32.div (U32.add (U32.mul (U32.sub (U32.shl c1 8) c0) a1) (U32.shl c0 8)) a0.

(** Lines 376-393, both pixels having transparency. *)
Definition over (target source : Z) : Z :=
  let a1 := Z.land (U32.shr source 24) 0xff in
  let r1 := Z.land source 0xff in
  let g1 := Z.land (U32.shr source 8) 0xff in
  let b1 := Z.land (U32.shr source 16) 0xff in
  let a0 := Z.land (U32.shr target 24) 0xff in
  let r0 := U32.mul (Z.land target 0xff) a0 in
  let g0 := U32.mul (Z.land (U32.shr target 8) 0xff) a0 in
  let b0 := U32.mul (Z.land (U32.shr target 16) 0xff) a0 in
  let a0 := over_alpha a0 a1 in
  let r0 := over_channel r1 r0 a1 a0 in
  let g0 := over_channel g1 g0 a1 a0 in
  let b0 := over_channel b1 b0 a1 a0 in
  let a0 := U32.shr a0 8 in
  pack_argb a0 b0 g0 r0.

(** The target is only read when the source is neither fully transparent
    nor fully opaque ([||] evaluates its right operand last); a target
    read before it was written leaves no defined value behind. *)
Definition Blend_CompositePixel (target : cell) (source : Z) : cell :=
  if source <=? 0x00FFFFFF then
    (* Top pixel is fully transparent. *)
    target
  else if 0xFF000000 <=? source then
    (* Top pixel is fully opaque. *)
    Some source
  else
    match target with
    | None => None
    | Some t =>
        if t <=? 0x00FFFFFF then
          (* Bottom pixel is fully transparent. *)
          Some source
        else
          (* Both pixels have transparency. *)
          Some (over t source)
    end.

(** ** [double]: IEEE 754 binary64, round to nearest even *)

(** A [double] is a [spec_float] of precision 53 and maximal exponent 1024
    (the Standard Library's specification of binary64 arithmetic).  The
    payload of a NaN is not represented. *)
Module Double.
Definition t : Type := spec_float.
Definition prec : Z := 53.
Definition emax : Z := 1024.
Definition add : t -> t -> t := SFadd prec emax.
Definition sub : t -> t -> t := SFsub prec emax.
Definition mul : t -> t -> t := SFmul prec emax.
Definition div : t -> t -> t := SFdiv prec emax.
Definition ltb : t -> t -> bool := SFltb.
Definition leb : t -> t -> bool := SFleb.
Definition eqb : t -> t -> bool := SFeqb.
(** Conversion of an integer of at most 53 bits, which is exact. *)
Definition of_int (z : Z) : t := binary_normalize prec emax z 0 false.
Definition valid : t -> bool := valid_binary prec emax.
Definition zero : t := S754_zero false.
(** The decimal literals of the source, rounded to the nearest double. *)
Definition lit_0_5 : t := S754_finite false 4503599627370496 (-53).
Definition lit_0_33333 : t := S754_finite false 6004739455165630 (-54).
Definition lit_0_66666 : t := S754_finite false 6004739455165630 (-53).
(** [std::max(a, b)] is [(a < b) ? b : a]; [std::min(a, b)] is
    [(b < a) ? b : a]. *)
Definition max (a b : t) : t := if ltb a b then b else a.
Definition min (a b : t) : t := if ltb b a then b else a.
(** A [double] used as a condition: true when it differs from zero. *)
Definition to_bool (d : t) : bool := negb (eqb d zero).
(** [static_cast<unsigned>(d)]: the value truncated toward zero; [None]
    when the truncated value is not an [unsigned] (the conversion has no
    defined behaviour then). *)
Definition to_unsigned (d : t) : option Z :=
  match d with
  | S754_zero _ => Some 0
  | S754_finite s m e =>
      let n := Z.shiftl (Zpos m) e in
      if s then (if n =? 0 then Some 0 else None)
      else if n <? U32.modulus then Some n else None
  | S754_infinity _ | S754_nan => None
  end.
End Double.

Declare Scope double_scope.
Delimit Scope double_scope with double.
Infix "+" := Double.add : double_scope.
Infix "-" := Double.sub : double_scope.
Infix "*" := Double.mul : double_scope.
Infix "/" := Double.div : double_scope.
Infix "<?" := Double.ltb : double_scope.
Infix "<=?" := Double.leb : double_scope.
Infix "=?" := Double.eqb : double_scope.

(** ** The HSL conversions (blend.cpp, lines 68-107) *)

Definition rgb2hsl (red green blue : Z) : Double.t * Double.t * Double.t :=
  let r := (Double.of_int red / Double.of_int 255)%double in
  let g := (Double.of_int green / Double.of_int 255)%double in
  let b := (Double.of_int blue / Double.of_int 255)%double in
  let max := Double.max r (Double.max g b) in
  let min := Double.min r (Double.min g b) in
  let delta := (max - min)%double in
  let gamma := (max + min)%double in
  let h := Double.zero in
  let s := Double.zero in
  let l := (gamma / Double.of_int 2)%double in
  if Double.to_bool delta then
    let s := if (Double.lit_0_5 <? l)%double
             then (delta / (Double.of_int 2 - gamma))%double
             else (delta / gamma)%double in
    let h := if (max =? r)%double && negb (max =? g)%double
             then ((g - b) / delta
                   + (if (g <? b)%double then Double.of_int 6 else Double.zero))%double
             else h in
    let h := if (max =? g)%double && negb (max =? b)%double
             then ((b - r) / delta + Double.of_int 2)%double
             else h in
    let h := if (max =? b)%double && negb (max =? r)%double
             then ((r - g) / delta + Double.of_int 4)%double
             else h in
    let h := (h / Double.of_int 6)%double in
    (h, s, l)
  else (h, s, l).

Section Hsl2Rgb.

(** The C library's [fmod]. *)
Variable fmod : Double.t -> Double.t -> Double.t.

Definition hueToRGB (m1 m2 h : Double.t) : Double.t :=
  let h := fmod (h + Double.of_int 1)%double (Double.of_int 1) in
  if (h * Double.of_int 6 <? Double.of_int 1)%double
  then (m1 + (m2 - m1) * h * Double.of_int 6)%double
  else if (h * Double.of_int 2 <? Double.of_int 1)%double then m2
  else if (h * Double.of_int 3 <? Double.of_int 2)%double
  then (m1 + (m2 - m1) * (Double.lit_0_66666 - h) * Double.of_int 6)%double
  else m1.

(** [r], [g] and [b] are references: [rgb] holds their values on entry,
    the result their values on return.  The block of lines 97-99 assigns
    them and does not return. *)
Definition hsl2rgb (h s l : Double.t) (rgb : Z * Z * Z) : option (Z * Z * Z) :=
  match
    (if negb (Double.to_bool s) then
       match Double.to_unsigned (l * Double.of_int 255)%double with
       | Some v => Some (v, v, v)
       | None => None
       end
     else Some rgb)
  with
  | None => None
  | Some _ =>
      let m2 := if (l <=? Double.lit_0_5)%double
                then (l * (s + Double.of_int 1))%double
                else (l + s - l * s)%double in
      let m1 := (l * Double.of_int 2 - m2)%double in
      match
        Double.to_unsigned (hueToRGB m1 m2 (h + Double.lit_0_33333) * Double.of_int 255)%double,
        Double.to_unsigned (hueToRGB m1 m2 h * Double.of_int 255)%double,
        Double.to_unsigned (hueToRGB m1 m2 (h - Double.lit_0_33333) * Double.of_int 255)%double
      with
      | Some r, Some g, Some b => Some (r, g, b)
      | _, _, _ => None
      end
  end.

(** The body of the tint loop (lines 565-573) on one canvas word. *)
Definition tint_pixel (rgba : Z) : option Z :=
  let r := Z.land rgba 0xff in
  let g := Z.land (U32.shr rgba 8) 0xff in
  let b := Z.land (U32.shr rgba 16) 0xff in
  let a := Z.land (U32.shr rgba 24) 0xff in
  let '(h, s, l) := rgb2hsl r g b in
  match hsl2rgb h s l (r, g, b) with
  | Some (r, g, b) => Some (pack_argb a b g r)
  | None => None
  end.

End Hsl2Rgb.

(** ** The data of a job *)

(** Modelled from the spec: the decoder facade of section 4.2
    ([ImageReader], declared in reader.hpp, which is not among the
    sources).  A reader is bound to an encoded buffer; its width, its
    height and its alpha flag are known without decoding; [decode()]
    either fails with a message or yields warnings and a surface of 32-bit
    ARGB words. *)
Inductive decode_result : Type :=
| DecodeFailed (message : string)
| Decoded (warnings : list string) (surface : list Z).

Record ImageReader : Type := {
  rd_width : Z;
  rd_height : Z;
  rd_alpha : bool;
  rd_message : string;
  rd_decode : decode_result
}.

Definition rd_surface (r : ImageReader) : list Z :=
  match rd_decode r with
  | Decoded _ surface => surface
  | DecodeFailed _ => []
  end.

(** Modelled from the spec: the layer descriptor of section 3 ([Image],
    declared in blend.hpp).  [reader] is the null pointer until the worker
    has decoded the layer. *)
Module Image.
Record t : Type := {
  data : list byte;
  x : Z;
  y : Z;
  width : Z;
  height : Z;
  reader : option ImageReader
}.
(** [new Image()] with its buffer set. *)
Definition make (data : list byte) (x y : Z) : t :=
  {| data := data; x := x; y := y; width := 0; height := 0; reader := None |}.
End Image.

(** Modelled from the spec: an external palette object (palette.hpp). *)
Record Palette : Type := {
  pal_valid : bool;
  pal_colors : list Z
}.

(** The values of the host language that reach the entry point.  A
    [Str] carries its text as the code reads it: the C string that
    [String::AsciiValue] yields for it (a text without a NUL character). *)
#[warnings="-register-all"]
Inductive Value : Type :=
| Undefined
| Null
| Boolean (b : bool)
| Number (n : Z)
| Str (s : string)
| BufferV (bytes : list byte)
| ArrayV (elements : list Value)
| ObjectV (properties : list (string * Value))
| FunctionV (id : nat)
| PaletteV (palette : Palette)
| ErrorV (message : string).

Inductive BlendFormat : Type := BLEND_FORMAT_PNG | BLEND_FORMAT_JPEG.
Inductive BlendMode : Type := BLEND_MODE_OCTREE | BLEND_MODE_HEXTREE.
Inductive BlendEncoder : Type := BLEND_ENCODER_LIBPNG | BLEND_ENCODER_MINIZ.

(** zlib's and miniz's constants. *)
Definition Z_DEFAULT_COMPRESSION : Z := -1.
Definition Z_BEST_COMPRESSION : Z := 9.
Definition MZ_UBER_COMPRESSION : Z := 10.
Definition Z_DEFAULT_STRATEGY : Z := 0.

(** The tint ranges as the caller supplied them (lines 258-293); the
    worker reads [identity] only. *)
Record Tinter : Type := {
  identity : bool;
  tint_h : option (Value * Value);
  tint_s : option (Value * Value);
  tint_l : option (Value * Value);
  tint_a : option (Value * Value)
}.

(** Modelled from the spec: the job descriptor of section 3 ([BlendBaton],
    declared in blend.hpp) and the state its constructor leaves. *)
Module BlendBaton.
Record t : Type := {
  callback : Value;
  images : list Image.t;
  quality : Z;
  format : BlendFormat;
  reencode : bool;
  width : Z;
  height : Z;
  matte : Z;
  palette : option Palette;
  mode : BlendMode;
  encoder : BlendEncoder;
  compression : Z;
  tint : Tinter;
  message : string;
  warnings : list string;
  stream : list byte
}.
Definition new : t :=
  {| callback := Undefined; images := []; quality := 0; format := BLEND_FORMAT_PNG;
     reencode := false; width := 0; height := 0; matte := 0; palette := None;
     mode := BLEND_MODE_OCTREE; encoder := BLEND_ENCODER_LIBPNG;
     compression := Z_DEFAULT_COMPRESSION;
     tint := {| identity := true; tint_h := None; tint_s := None;
                tint_l := None; tint_a := None |};
     message := EmptyString; warnings := []; stream := [] |}.
Definition set_callback (b : t) (v : Value) : t :=
  {| callback := v; images := images b; quality := quality b; format := format b;
     reencode := reencode b; width := width b; height := height b; matte := matte b;
     palette := palette b; mode := mode b; encoder := encoder b;
     compression := compression b; tint := tint b; message := message b;
     warnings := warnings b; stream := stream b |}.
Definition set_images (b : t) (v : list Image.t) : t :=
  {| callback := callback b; images := v; quality := quality b; format := format b;
     reencode := reencode b; width := width b; height := height b; matte := matte b;
     palette := palette b; mode := mode b; encoder := encoder b;
     compression := compression b; tint := tint b; message := message b;
     warnings := warnings b; stream := stream b |}.
Definition set_quality (b : t) (v : Z) : t :=
  {| callback := callback b; images := images b; quality := v; format := format b;
     reencode := reencode b; width := width b; height := height b; matte := matte b;
     palette := palette b; mode := mode b; encoder := encoder b;
     compression := compression b; tint := tint b; message := message b;
     warnings := warnings b; stream := stream b |}.
Definition set_format (b : t) (v : BlendFormat) : t :=
  {| callback := callback b; images := images b; quality := quality b; format := v;
     reencode := reencode b; width := width b; height := height b; matte := matte b;
     palette := palette b; mode := mode b; encoder := encoder b;
     compression := compression b; tint := tint b; message := message b;
     warnings := warnings b; stream := stream b |}.
Definition set_reencode (b : t) (v : bool) : t :=
  {| callback := callback b; images := images b; quality := quality b; format := format b;
     reencode := v; width := width b; height := height b; matte := matte b;
     palette := palette b; mode := mode b; encoder := encoder b;
     compression := compression b; tint := tint b; message := message b;
     warnings := warnings b; stream := stream b |}.
Definition set_width (b : t) (v : Z) : t :=
  {| callback := callback b; images := images b; quality := quality b; format := format b;
     reencode := reencode b; width := v; height := height b; matte := matte b;
     palette := palette b; mode := mode b; encoder := encoder b;
     compression := compression b; tint := tint b; message := message b;
     warnings := warnings b; stream := stream b |}.
Definition set_height (b : t) (v : Z) : t :=
  {| callback := callback b; images := images b; quality := quality b; format := format b;
     reencode := reencode b; width := width b; height := v; matte := matte b;
     palette := palette b; mode := mode b; encoder := encoder b;
     compression := compression b; tint := tint b; message := message b;
     warnings := warnings b; stream := stream b |}.
Definition set_matte (b : t) (v : Z) : t :=
  {| callback := callback b; images := images b; quality := quality b; format := format b;
     reencode := reencode b; width := width b; height := height b; matte := v;
     palette := palette b; mode := mode b; encoder := encoder b;
     compression := compression b; tint := tint b; message := message b;
     warnings := warnings b; stream := stream b |}.
Definition set_palette (b : t) (v : option Palette) : t :=
  {| callback := callback b; images := images b; quality := quality b; format := format b;
     reencode := reencode b; width := width b; height := height b; matte := matte b;
     palette := v; mode := mode b; encoder := encoder b;
     compression := compression b; tint := tint b; message := message b;
     warnings := warnings b; stream := stream b |}.
Definition set_mode (b : t) (v : BlendMode) : t :=
  {| callback := callback b; images := images b; quality := quality b; format := format b;
     reencode := reencode b; width := width b; height := height b; matte := matte b;
     palette := palette b; mode := v; encoder := encoder b;
     compression := compression b; tint := tint b; message := message b;
     warnings := warnings b; stream := stream b |}.
Definition set_encoder (b : t) (v : BlendEncoder) : t :=
  {| callback := callback b; images := images b; quality := quality b; format := format b;
     reencode := reencode b; width := width b; height := height b; matte := matte b;
     palette := palette b; mode := mode b; encoder := v;
     compression := compression b; tint := tint b; message := message b;
     warnings := warnings b; stream := stream b |}.
Definition set_compression (b : t) (v : Z) : t :=
  {| callback := callback b; images := images b; quality := quality b; format := format b;
     reencode := reencode b; width := width b; height := height b; matte := matte b;
     palette := palette b; mode := mode b; encoder := encoder b;
     compression := v; tint := tint b; message := message b;
     warnings := warnings b; stream := stream b |}.
Definition set_tint (b : t) (v : Tinter) : t :=
  {| callback := callback b; images := images b; quality := quality b; format := format b;
     reencode := reencode b; width := width b; height := height b; matte := matte b;
     palette := palette b; mode := mode b; encoder := encoder b;
     compression := compression b; tint := v; message := message b;
     warnings := warnings b; stream := stream b |}.
Definition set_message (b : t) (v : string) : t :=
  {| callback := callback b; images := images b; quality := quality b; format := format b;
     reencode := reencode b; width := width b; height := height b; matte := matte b;
     palette := palette b; mode := mode b; encoder := encoder b;
     compression := compression b; tint := tint b; message := v;
     warnings := warnings b; stream := stream b |}.
Definition set_warnings (b : t) (v : list string) : t :=
  {| callback := callback b; images := images b; quality := quality b; format := format b;
     reencode := reencode b; width := width b; height := height b; matte := matte b;
     palette := palette b; mode := mode b; encoder := encoder b;
     compression := compression b; tint := tint b; message := message b;
     warnings := v; stream := stream b |}.
Definition set_stream (b : t) (v : list byte) : t :=
  {| callback := callback b; images := images b; quality := quality b; format := format b;
     reencode := reencode b; width := width b; height := height b; matte := matte b;
     palette := palette b; mode := mode b; encoder := encoder b;
     compression := compression b; tint := tint b; message := message b;
     warnings := warnings b; stream := v |}.
End BlendBaton.

(** ** [Blend_Composite] (blend.cpp, lines 398-420) *)

(** [array[i]]: [None] when [i] is outside the array. *)
Definition get {A : Type} (l : list A) (i : Z) : option A :=
  if i <? 0 then None else nth_error l (Z.to_nat i).

Fixpoint set_nth {A : Type} (l : list A) (n : nat) (v : A) : list A :=
  match l, n with
  | [], _ => []
  | _ :: tl, O => v :: tl
  | hd :: tl, S n' => hd :: set_nth tl n' v
  end.

(** [array[i] = v], for [i] inside the array. *)
Definition set {A : Type} (l : list A) (i : Z) (v : A) : list A :=
  set_nth l (Z.to_nat i) v.

(** The values [from], [from + 1], ... below [to] that the counter of a
    [for] loop takes. *)
Definition int_range (from to : Z) : list Z :=
  map (fun k => from + Z.of_nat k) (seq 0 (Z.to_nat (to - from))).

(** The clipping of lines 401-410: the values of the variables when no
    [int] overflows ([blit_fits] below tells whether one does). *)
Record BlitRect : Type := {
  sourceX : Z;
  sourceY : Z;
  targetX : Z;
  targetY : Z;
  blit_width : Z;
  blit_height : Z
}.

Definition blit_rect (baton : BlendBaton.t) (image : Image.t) : BlitRect :=
  let sourceX := Z.max 0 (- Image.x image) in
  let sourceY := Z.max 0 (- Image.y image) in
  let width := Image.width image - sourceX
               - Z.max 0 (Image.x image + Image.width image - BlendBaton.width baton) in
  let height := Image.height image - sourceY
                - Z.max 0 (Image.y image + Image.height image - BlendBaton.height baton) in
  let targetX := Z.max 0 (Image.x image) in
  let targetY := Z.max 0 (Image.y image) in
  {| sourceX := sourceX; sourceY := sourceY; targetX := targetX; targetY := targetY;
     blit_width := width; blit_height := height |}.

(** The loop nest of lines 412-419 calls [Blend_CompositePixel] on
    [target[targetPos + x]] and [source[sourcePos + x]]; these are the
    pairs of indices, in the order of the calls.  [rows] is the number of
    iterations the outer loop has left. *)
Fixpoint blit_rows (rows : nat) (width imageWidth batonWidth : Z)
  (sourcePos targetPos : Z) : list (Z * Z) :=
  match rows with
  | O => []
  | S rows' =>
      map (fun x => (targetPos + x, sourcePos + x)) (int_range 0 width)
      ++ blit_rows rows' width imageWidth batonWidth
           (sourcePos + imageWidth) (targetPos + batonWidth)
  end.

Definition blit_accesses (baton : BlendBaton.t) (image : Image.t) : list (Z * Z) :=
  let r := blit_rect baton image in
  let sourcePos := sourceY r * Image.width image + sourceX r in
  let targetPos := targetY r * BlendBaton.width baton + targetX r in
  blit_rows (Z.to_nat (blit_height r)) (blit_width r) (Image.width image)
    (BlendBaton.width baton) sourcePos targetPos.

(** Every [int] that lines 401-410 compute, in the order of their
    computation. *)
Definition blit_ints (baton : BlendBaton.t) (image : Image.t) : list Z :=
  let r := blit_rect baton image in
  [ - Image.x image;
    - Image.y image;
    sourceY r * Image.width image;
    sourceY r * Image.width image + sourceX r;
    Image.width image - sourceX r;
    Image.x image + Image.width image;
    Image.x image + Image.width image - BlendBaton.width baton;
    blit_width r;
    Image.height image - sourceY r;
    Image.y image + Image.height image;
    Image.y image + Image.height image - BlendBaton.height baton;
    blit_height r;
    targetY r * BlendBaton.width baton;
    targetY r * BlendBaton.width baton + targetX r ].

(** The values that lines 417-418 give to [sourcePos] and [targetPos],
    row after row. *)
Fixpoint blit_steps (rows : nat) (imageWidth batonWidth : Z) (sourcePos targetPos : Z)
  : list Z :=
  match rows with
  | O => []
  | S rows' =>
      (sourcePos + imageWidth) :: (targetPos + batonWidth)
      :: blit_steps rows' imageWidth batonWidth
           (sourcePos + imageWidth) (targetPos + batonWidth)
  end.

(** No [int] of lines 401-418 overflows: neither the clipping, nor an
    index of the loop, nor a position the loop moves to. *)
Definition blit_fits (baton : BlendBaton.t) (image : Image.t) : bool :=
  let r := blit_rect baton image in
  let sourcePos := sourceY r * Image.width image + sourceX r in
  let targetPos := targetY r * BlendBaton.width baton + targetX r in
  forallb Int.fits (blit_ints baton image)
  && forallb (fun at_ : Z * Z => Int.fits (fst at_) && Int.fits (snd at_))
       (blit_accesses baton image)
  && forallb Int.fits
       (blit_steps (Z.to_nat (blit_height r)) (Image.width image) (BlendBaton.width baton)
          sourcePos targetPos).

(** One call of the loop body; [None] once an index has left its array. *)
Definition composite_at (source : list Z) (target : option (list cell)) (at_ : Z * Z)
  : option (list cell) :=
  match target with
  | None => None
  | Some target =>
      match get target (fst at_), get source (snd at_) with
      | Some t, Some s => Some (set target (fst at_) (Blend_CompositePixel t s))
      | _, _ => None
      end
  end.

(** [None]: the reader is null, an [int] overflows or an access is out of
    bounds. *)
Definition Blend_Composite (target : list cell) (baton : BlendBaton.t) (image : Image.t)
  : option (list cell) :=
  match Image.reader image with
  | None => None
  | Some reader =>
      if blit_fits baton image then
        fold_left (composite_at (rd_surface reader)) (blit_accesses baton image)
          (Some target)
      else None
  end.

(** ** [Blend_Encode] (blend.cpp, lines 422-450) *)

Record image_data_32 : Type := {
  id_width : Z;
  id_height : Z;
  id_data : list cell
}.

(** What an encoder did: it wrote its output to the stream, or it threw
    after having written some of it. *)
Inductive encode_result : Type :=
| Wrote (bytes : list byte)
| Raised (written : list byte) (what : string).

Section Worker.

(** The codecs and quantizers of png_io.hpp and jpeg_io.hpp, the
    decoder facade, the allocator and [fmod] are collaborators of the
    worker. *)
Variable save_as_jpeg : Z -> image_data_32 -> encode_result.
Variable save_as_png8_pal : image_data_32 -> Palette -> Z -> Z -> bool -> encode_result.
Variable save_as_png8_hex :
  image_data_32 -> Z -> Z -> Z -> Z -> Double.t -> bool -> encode_result.
Variable save_as_png8_oct : image_data_32 -> Z -> Z -> Z -> Z -> bool -> encode_result.
Variable save_as_png : image_data_32 -> Z -> Z -> bool -> bool -> encode_result.
(** [ImageReader::create]: [None] is the null pointer. *)
Variable create : list byte -> option ImageReader.
(** Whether [malloc] of that many canvas words succeeds ([size_t] is
    taken to hold four times an [int], as it does where it has 64 bits). *)
Variable malloc_succeeds : Z -> bool.
Variable fmod : Double.t -> Double.t -> Double.t.

Definition Blend_Encode (image : image_data_32) (baton : BlendBaton.t) (alpha : bool)
  : BlendBaton.t :=
  let '(baton, result) :=
    match BlendBaton.format baton with
    | BLEND_FORMAT_JPEG =>
        let baton := if BlendBaton.quality baton =? 0
                     then BlendBaton.set_quality baton 80 else baton in
        (baton, save_as_jpeg (BlendBaton.quality baton) image)
    | BLEND_FORMAT_PNG =>
        (* Save as PNG. *)
        let strategy := Z_DEFAULT_STRATEGY in
        let trans_mode := -1 in
        let gamma := Double.of_int (-1) in
        let use_miniz := match BlendBaton.encoder baton with
                         | BLEND_ENCODER_MINIZ => true
                         | BLEND_ENCODER_LIBPNG => false
                         end in
        let valid_palette := match BlendBaton.palette baton with
                             | Some p => if pal_valid p then Some p else None
                             | None => None
                             end in
        (baton,
         match valid_palette with
         | Some p =>
             save_as_png8_pal image p (BlendBaton.compression baton) strategy use_miniz
         | None =>
             if 0 <? BlendBaton.quality baton then
               (* Paletted PNG. *)
               match alpha, BlendBaton.mode baton with
               | true, BLEND_MODE_HEXTREE =>
                   save_as_png8_hex image (BlendBaton.quality baton)
                     (BlendBaton.compression baton) strategy trans_mode gamma use_miniz
               | _, _ =>
                   save_as_png8_oct image (BlendBaton.quality baton)
                     (BlendBaton.compression baton) strategy trans_mode use_miniz
               end
             else
               save_as_png image (BlendBaton.compression baton) strategy alpha use_miniz
         end)
    end in
  match result with
  | Wrote bytes => BlendBaton.set_stream baton (BlendBaton.stream baton ++ bytes)
  | Raised written what =>
      BlendBaton.set_message
        (BlendBaton.set_stream baton (BlendBaton.stream baton ++ written)) what
  end.

(** ** [Work_Blend] (blend.cpp, lines 452-582) *)

(** [(int)u] for an [unsigned] u. *)
Definition to_int (u : Z) : Z := if u <? 2 ^ 31 then u else u - 2 ^ 32.

(** [out << n] for an [int]. *)
Definition decimal (n : Z) : string := NilZero.string_of_int (Z.to_int n).

(** The variables of the first loop, and [ws_decoded], which is not a
    variable of the program: the indices of the layers whose [decode()]
    was called, the last call first. *)
Record WalkState : Type := {
  ws_baton : BlendBaton.t;
  ws_alpha : bool;
  ws_size : Z;
  ws_decoded : list Z
}.

(** How the loop of lines 463-525 is left; [rimages] are the images, the
    last one first, the visited ones as the loop leaves them.
    [NullReader]: an iteration had no defined behaviour. *)
Inductive Flow : Type :=
| Fell (st : WalkState) (rimages : list Image.t)
| Returned (st : WalkState) (rimages : list Image.t)
| NullReader.

Definition keep (image : Image.t) (f : Flow) : Flow :=
  match f with
  | Fell st rimages => Fell st (image :: rimages)
  | Returned st rimages => Returned st (image :: rimages)
  | NullReader => NullReader
  end.

(** Lines 480-481: a width or height the caller left unset is taken from
    the layer. *)
Definition seed (dimension visible : Z) : Z :=
  if dimension <=? 0 then Z.max 0 visible else dimension.

Definition layer_warning (index : Z) (w : string) : string :=
  ("Layer " ++ decimal index ++ ": " ++ w)%string.

(** One iteration of the loop, after the test of line 465: the loop goes
    on to the next image ([Continue], with the image as the iteration
    leaves it), the worker returns ([Leave]), or the iteration has no
    defined behaviour ([NullLayer]: the reader is null, or a sum of line
    476 or 477 overflows). *)
Inductive Verdict : Type :=
| Continue (st : WalkState) (image : Image.t)
| Leave (st : WalkState)
| NullLayer.

(** Lines 467-524. *)
Definition examine (image : Image.t) (index : Z) (st : WalkState) : Verdict :=
  match create (Image.data image) with
  | None =>
      (* [layer->message] is read through the null pointer *)
      NullLayer
  | Some layer =>
      let baton := ws_baton st in
      (* Error out on invalid images. *)
      if (rd_width layer =? 0) || (rd_height layer =? 0) then
        Leave {| ws_baton := BlendBaton.set_message baton (rd_message layer);
                 ws_alpha := ws_alpha st; ws_size := ws_size st;
                 ws_decoded := ws_decoded st |}
      else if negb (Int.fits (to_int (rd_width layer) + Image.x image)
                    && Int.fits (to_int (rd_height layer) + Image.y image)) then
        (* [(int)layer->width + image->x] or
           [(int)layer->height + image->y] overflows *)
        NullLayer
      else
        let visibleWidth := to_int (rd_width layer) + Image.x image in
        let visibleHeight := to_int (rd_height layer) + Image.y image in
        (* The first image that is in the viewport sets the width/height,
           if not user supplied. *)
        let baton := BlendBaton.set_width baton
                       (seed (BlendBaton.width baton) visibleWidth) in
        let baton := BlendBaton.set_height baton
                       (seed (BlendBaton.height baton) visibleHeight) in
        (* Skip images that are outside of the viewport. *)
        if (visibleWidth <=? 0) || (visibleHeight <=? 0)
           || (BlendBaton.width baton <=? Image.x image)
           || (BlendBaton.height baton <=? Image.y image)
        then
          Continue {| ws_baton := baton; ws_alpha := ws_alpha st;
                      ws_size := ws_size st; ws_decoded := ws_decoded st |} image
        (* Short-circuit when we're not reencoding. *)
        else if (ws_size st =? 0) && negb (rd_alpha layer)
                && negb (BlendBaton.reencode baton)
                && (Image.x image =? 0) && (Image.y image =? 0)
                && (to_int (rd_width layer) =? BlendBaton.width baton)
                && (to_int (rd_height layer) =? BlendBaton.height baton)
        then
          Leave {| ws_baton := BlendBaton.set_stream baton
                                 (BlendBaton.stream baton ++ Image.data image);
                   ws_alpha := ws_alpha st; ws_size := ws_size st;
                   ws_decoded := ws_decoded st |}
        else
          match rd_decode layer with
          | DecodeFailed message =>
              (* Decoding failed. *)
              Leave {| ws_baton := BlendBaton.set_message baton message;
                       ws_alpha := ws_alpha st; ws_size := ws_size st;
                       ws_decoded := index :: ws_decoded st |}
          | Decoded warnings _ =>
              let baton := BlendBaton.set_warnings baton
                             (BlendBaton.warnings baton
                              ++ map (layer_warning index) warnings) in
              let coversWidth := (Image.x image <=? 0)
                                 && (BlendBaton.width baton <=? visibleWidth) in
              let coversHeight := (Image.y image <=? 0)
                                  && (BlendBaton.height baton <=? visibleHeight) in
              let alpha := if negb (rd_alpha layer) && coversWidth && coversHeight
                           then (* Skip decoding more layers. *) false
                           else ws_alpha st in
              (* Convenience aliases. *)
              Continue {| ws_baton := baton; ws_alpha := alpha;
                          ws_size := ws_size st + 1;
                          ws_decoded := index :: ws_decoded st |}
                {| Image.data := Image.data image; Image.x := Image.x image;
                   Image.y := Image.y image;
                   Image.width := to_int (rd_width layer);
                   Image.height := to_int (rd_height layer);
                   Image.reader := Some layer |}
          end
  end.

(** Lines 461-525: from the last image to the first. *)
Fixpoint walk (rimages : list Image.t) (index : Z) (st : WalkState) : Flow :=
  match rimages with
  | [] => Fell st []
  | image :: rest =>
      (* If an image that is higher than the current is opaque, stop alltogether. *)
      if negb (ws_alpha st) then Fell st rimages
      else
        match examine image index st with
        | Continue st image => keep image (walk rest (index - 1) st)
        | Leave st => Returned st rimages
        | NullLayer => NullReader
        end
  end.

(** Lines 536-549: the canvas as [malloc] returns it, its words holding
    no value, then the matte in every word when [alpha] is set. *)
Definition canvas_init (alpha : bool) (matte : Z) (pixels : Z) : list cell :=
  let target := repeat None (Z.to_nat pixels) in
  if alpha then
    fold_left (fun target i => set target i (Some matte)) (int_range 0 pixels) target
  else target.

(** Lines 551-556. *)
Definition composite_images (baton : BlendBaton.t) (target : list cell)
  : option (list cell) :=
  fold_left
    (fun target image =>
       match target, Image.reader image with
       | None, _ => None
       | Some target, Some _ => Blend_Composite target baton image
       | Some target, None => Some target
       end)
    (BlendBaton.images baton) (Some target).

(** Lines 558-576 on one canvas word; a word that holds no value, or a
    conversion to [unsigned] that has none, leaves none. *)
Definition tint_cell (c : cell) : cell :=
  match c with
  | Some rgba => tint_pixel fmod rgba
  | None => None
  end.

(** How the worker ends: it returns, or it has done something the
    language gives no meaning to (a null reader, an [int] that overflows,
    an index outside its array).  [decoded] lists the layers it decoded. *)
Inductive Outcome : Type :=
| Finished (baton : BlendBaton.t) (decoded : list Z)
| NoBehaviour.

Definition dimensions_message (baton : BlendBaton.t) : string :=
  ("Image dimensions " ++ decimal (BlendBaton.width baton) ++ "x"
   ++ decimal (BlendBaton.height baton) ++ " are invalid")%string.

(** Lines 455-457.  The loop goes through the images with its own
    iterator; the baton's list is put back when the loop is left. *)
Definition initial_walk_state (baton : BlendBaton.t) : WalkState :=
  {| ws_baton := BlendBaton.set_images baton []; ws_alpha := true; ws_size := 0;
     ws_decoded := [] |}.

(** Lines 551-581: the compositing, the tint and the encoding, on the
    canvas [target] that lines 536-549 have prepared. *)
Definition blend_onto (baton : BlendBaton.t) (alpha : bool) (decoded : list Z)
  (target : list cell) : Outcome :=
  match composite_images baton target with
  | None => NoBehaviour
  | Some target =>
      let target := if negb (identity (BlendBaton.tint baton))
                    then map tint_cell target else target in
      let image := {| id_width := BlendBaton.width baton;
                      id_height := BlendBaton.height baton;
                      id_data := target |} in
      Finished (Blend_Encode image baton alpha) decoded
  end.

(** Lines 527-581, once the loop is left: the canvas, the compositing,
    the tint and the encoding. *)
Definition blend_images (st : WalkState) (rimages : list Image.t) : Outcome :=
  let baton := BlendBaton.set_images (ws_baton st) (rev rimages) in
  let alpha := ws_alpha st in
  (* Now blend images. *)
  if negb (Int.fits (BlendBaton.width baton * BlendBaton.height baton)) then
    (* [baton->width * baton->height] overflows *)
    NoBehaviour
  else
    let pixels := BlendBaton.width baton * BlendBaton.height baton in
    if pixels <=? 0 then
      Finished (BlendBaton.set_message baton (dimensions_message baton)) (ws_decoded st)
    else if negb (malloc_succeeds pixels) then
      Finished (BlendBaton.set_message baton "Memory allocation failed") (ws_decoded st)
    else
      let target := canvas_init alpha (BlendBaton.matte baton) pixels in
      blend_onto baton alpha (ws_decoded st) target.

Definition Work_Blend (baton : BlendBaton.t) : Outcome :=
  let total := Z.of_nat (List.length (BlendBaton.images baton)) in
  match walk (rev (BlendBaton.images baton)) (total - 1) (initial_walk_state baton) with
  | NullReader => NoBehaviour
  | Returned st rimages =>
      Finished (BlendBaton.set_images (ws_baton st) (rev rimages)) (ws_decoded st)
  | Fell st rimages => blend_images st rimages
  end.

End Worker.

(** ** [Work_AfterBlend] (blend.cpp, lines 584-614) *)

(** A call of the completion callback: the function and its arguments. *)
Record Call : Type := {
  callee : Value;
  argv : list Value
}.

Definition Work_AfterBlend (baton : BlendBaton.t) : Call :=
  if (String.length (BlendBaton.message baton) =? 0)%nat then
    {| callee := BlendBaton.callback baton;
       argv := [Null; BufferV (BlendBaton.stream baton);
                ArrayV (map Str (BlendBaton.warnings baton))] |}
  else
    {| callee := BlendBaton.callback baton;
       argv := [ErrorV (BlendBaton.message baton)] |}.

(** ** [Blend], the entry point (blend.cpp, lines 154-365) *)

(** What a call of [Blend] does before it returns: it throws a
    [TypeError], it calls the callback itself, or it queues the job for
    [Work_Blend] and [Work_AfterBlend].  [Unwrapped] stands for the one case
    the embedding gives no account of: [ObjectWrap::Unwrap<Palette>] on an
    object that wraps no palette. *)
Inductive BlendResult : Type :=
| Throws (message : string)
| Calls (callback : Value) (argv : list Value)
| Queues (baton : BlendBaton.t)
| Unwrapped.

Definition IsArray (v : Value) : bool :=
  match v with ArrayV _ => true | _ => false end.
Definition IsFunction (v : Value) : bool :=
  match v with FunctionV _ => true | _ => false end.
Definition IsString (v : Value) : bool :=
  match v with Str _ => true | _ => false end.
Definition IsObject (v : Value) : bool :=
  match v with
  | Undefined | Null | Boolean _ | Number _ | Str _ => false
  | BufferV _ | ArrayV _ | ObjectV _ | FunctionV _ | PaletteV _ | ErrorV _ => true
  end.
(** [Buffer::HasInstance]. *)
Definition HasInstance (v : Value) : bool :=
  match v with BufferV _ => true | _ => false end.

Fixpoint lookup (properties : list (string * Value)) (key : string) : option Value :=
  match properties with
  | [] => None
  | (k, v) :: rest => if String.eqb k key then Some v else lookup rest key
  end.

(** [object->Get(String::NewSymbol(key))] and [object->Has(...)]; of the
    objects, only the plain ones carry named properties here. *)
Definition Get (object : Value) (key : string) : Value :=
  match object with
  | ObjectV properties =>
      match lookup properties key with Some v => v | None => Undefined end
  | _ => Undefined
  end.
Definition Has (object : Value) (key : string) : bool :=
  match object with
  | ObjectV properties =>
      match lookup properties key with Some _ => true | None => false end
  | _ => false
  end.

(** The conversion of a number to a 32-bit signed integer. *)
Definition ToInt32 (n : Z) : Z := (n + 2 ^ 31) mod 2 ^ 32 - 2 ^ 31.

Definition BooleanValue (v : Value) : bool :=
  match v with
  | Undefined | Null => false
  | Boolean b => b
  | Number n => negb (n =? 0)
  | Str s => negb (String.eqb s EmptyString)
  | _ => true
  end.

Section Entry.

(** [Int32Value()] of a string or of an object, which the host converts
    by parsing or by calling into the object. *)
Variable Int32Value_other : Value -> Z.
Variable stream_hex_other : string -> Z.

Definition Int32Value (v : Value) : Z :=
  match v with
  | Undefined | Null => 0
  | Boolean b => if b then 1 else 0
  | Number n => ToInt32 n
  | _ => Int32Value_other v
  end.

(** A step of the validation that may end the call. *)
Inductive Step (A : Type) : Type :=
| Go (a : A)
| Stop (r : BlendResult).
Arguments Go {A} a.
Arguments Stop {A} r.

Definition bind {A B : Type} (s : Step A) (f : A -> Step B) : Step B :=
  match s with
  | Go a => f a
  | Stop r => Stop r
  end.

Notation "x <- s ;; k" := (bind s (fun x => k))
  (at level 61, s at next level, right associativity).

(** Lines 183-201. *)
Definition validate_format (baton : BlendBaton.t) (options : Value) : Step BlendBaton.t :=
  let baton := BlendBaton.set_quality baton (Int32Value (Get options "quality")) in
  match Get options "format" with
  | Str format =>
      if String.eqb format "jpeg" || String.eqb format "jpg" then
        let baton := BlendBaton.set_format baton BLEND_FORMAT_JPEG in
        if BlendBaton.quality baton =? 0 then Go (BlendBaton.set_quality baton 80)
        else if (BlendBaton.quality baton <? 0) || (100 <? BlendBaton.quality baton)
        then Stop (Throws "JPEG quality is range 0-100.")
        else Go baton
      else if String.eqb format "png" then
        if (BlendBaton.quality baton =? 1) || (256 <? BlendBaton.quality baton)
        then Stop (Throws "PNG images must be quantized between 2 and 256 colors.")
        else Go baton
      else Stop (Throws "Invalid output format.")
  | _ => Go baton
  end.

(** Lines 203-215. *)
Definition validate_canvas (baton : BlendBaton.t) (options : Value) : BlendBaton.t :=
  let baton := BlendBaton.set_reencode baton (BooleanValue (Get options "reencode")) in
  let baton := BlendBaton.set_width baton (Int32Value (Get options "width")) in
  let baton := BlendBaton.set_height baton (Int32Value (Get options "height")) in
  match Get options "matte" with
  | Str matte =>
      let baton := BlendBaton.set_matte baton
                     (hexToUInt32Color stream_hex_other (Some matte)) in
      (* Make sure we're reencoding in the case of single alpha PNGs *)
      if negb (BlendBaton.matte baton =? 0) && negb (BlendBaton.reencode baton)
      then BlendBaton.set_reencode baton true
      else baton
  | _ => baton
  end.

(** Lines 217-251. *)
Definition validate_encoding (baton : BlendBaton.t) (options : Value) : Step BlendBaton.t :=
  baton <- (let palette_val := Get options "palette" in
            if IsObject palette_val then
              match palette_val with
              | PaletteV p => Go (BlendBaton.set_palette baton (Some p))
              | _ => Stop Unwrapped
              end
            else Go baton) ;;
  let baton :=
    match Get options "mode" with
    | Str mode =>
        if String.eqb mode "octree" || String.eqb mode "o"
        then BlendBaton.set_mode baton BLEND_MODE_OCTREE
        else if String.eqb mode "hextree" || String.eqb mode "h"
        then BlendBaton.set_mode baton BLEND_MODE_HEXTREE
        else baton
    | _ => baton
    end in
  let baton :=
    match Get options "encoder" with
    | Str encoder =>
        if String.eqb encoder "miniz"
        then BlendBaton.set_encoder baton BLEND_ENCODER_MINIZ
        else (* default is libpng *) baton
    | _ => baton
    end in
  let max_compression :=
    match BlendBaton.encoder baton with
    | BLEND_ENCODER_MINIZ => MZ_UBER_COMPRESSION
    | BLEND_ENCODER_LIBPNG => Z_BEST_COMPRESSION
    end in
  let baton := BlendBaton.set_compression baton (Int32Value (Get options "compression")) in
  let baton := if BlendBaton.compression baton <=? 0
               then BlendBaton.set_compression baton Z_DEFAULT_COMPRESSION
               else baton in
  if max_compression <? BlendBaton.compression baton then
    Stop (Throws ("Compression level must be between 1 and " ++ decimal max_compression))
  else Go baton.

(** One of the four blocks of lines 258-293. *)
Definition tint_pair (tint : Value) (key : string) (message : string)
  (current : option (Value * Value)) : Step (option (Value * Value)) :=
  match Get tint key with
  | ArrayV val_array =>
      match val_array with
      | [v0; v1] => Go (Some (v0, v1))
      | _ => Stop (Throws message)
      end
  | _ => Go current
  end.

(** Lines 253-295. *)
Definition validate_tint (baton : BlendBaton.t) (options : Value) : Step BlendBaton.t :=
  let tint_val := Get options "tint" in
  if IsObject tint_val then
    let t := BlendBaton.tint baton in
    h <- tint_pair tint_val "h" "h array must be a pair of values" (tint_h t) ;;
    s <- tint_pair tint_val "s" "s array must be a pair of values" (tint_s t) ;;
    l <- tint_pair tint_val "l" "l array must be a pair of values" (tint_l t) ;;
    a <- tint_pair tint_val "a" "a array must be a pair of values" (tint_a t) ;;
    Go (BlendBaton.set_tint baton
          {| identity := false; tint_h := h; tint_s := s; tint_l := l; tint_a := a |})
  else Go baton.

(** Lines 181-296. *)
Definition validate_options (baton : BlendBaton.t) (options : option Value)
  : Step BlendBaton.t :=
  match options with
  | None => Go baton
  | Some options =>
      baton <- validate_format baton options ;;
      let baton := validate_canvas baton options in
      baton <- validate_encoding baton options ;;
      validate_tint baton options
  end.

(** Lines 336-360: one layer descriptor for each element of the array. *)
Fixpoint collect_images (elements : list Value) : Step (list Image.t) :=
  match elements with
  | [] => Go []
  | buffer :: rest =>
      image <- match buffer with
               | BufferV bytes => Go (Image.make bytes 0 0)
               | _ =>
                   if IsObject buffer then
                     match (if Has buffer "buffer" then Get buffer "buffer" else Undefined) with
                     | BufferV bytes =>
                         Go (Image.make bytes (Int32Value (Get buffer "x"))
                               (Int32Value (Get buffer "y")))
                     | _ =>
                         Stop (Throws "All elements must be Buffers or objects with a 'buffer' property.")
                     end
                   else
                     Stop (Throws "All elements must be Buffers or objects with a 'buffer' property.")
               end ;;
      images <- collect_images rest ;;
      Go (image :: images)
  end.

(** Lines 156-179: the arguments, the callback and the options. *)
Definition check_arguments (args : list Value) : Step (BlendBaton.t * option Value) :=
  let baton := BlendBaton.new in
  match args with
  | [] => Stop (Throws "First argument must be an array of Buffers.")
  | a0 :: rest =>
      if negb (IsArray a0) then Stop (Throws "First argument must be an array of Buffers.")
      else
        match rest with
        | [] => Stop (Throws "Second argument must be a function")
        | [a1] =>
            (* No options provided. *)
            if negb (IsFunction a1) then Stop (Throws "Second argument must be a function.")
            else Go (BlendBaton.set_callback baton a1, None)
        | a1 :: a2 :: _ =>
            if negb (IsObject a1) then Stop (Throws "Second argument must be a an options object.")
            else if negb (IsFunction a2) then Stop (Throws "Third argument must be a function.")
            else Go (BlendBaton.set_callback baton a2, Some a1)
        end
  end.

Definition elements_of (v : Value) : list Value :=
  match v with ArrayV elements => elements | _ => [] end.

(** Lines 298-326. *)
Definition check_layers (baton : BlendBaton.t) (images : list Value) : Step unit :=
  let length := Z.of_nat (List.length images) in
  if (length <? 1) && negb (BlendBaton.reencode baton) then
    Stop (Throws "First argument must contain at least one Buffer.")
  else if (length =? 1) && negb (BlendBaton.reencode baton) then
    let buffer := match images with b :: _ => b | [] => Undefined end in
    if HasInstance buffer then
      (* Directly pass through buffer if it's the only one. *)
      Stop (Calls (BlendBaton.callback baton) [Null; buffer])
    else
      (* Check whether the argument is a complex image with offsets etc. *)
      let valid := IsObject buffer && Has buffer "buffer"
                   && HasInstance (Get buffer "buffer") in
      if negb valid then
        Stop (Throws "All elements must be Buffers or objects with a 'buffer' property.")
      else Go tt
  else Go tt.

Definition Blend (args : list Value) : BlendResult :=
  match
    (checked <- check_arguments args ;;
     (* Validate options *)
     baton <- validate_options (fst checked) (snd checked) ;;
     let images := elements_of (match args with a0 :: _ => a0 | [] => Undefined end) in
     let length := Z.of_nat (List.length images) in
     _ <- check_layers baton images ;;
     if negb ((1 <=? length)
              || ((0 <? BlendBaton.width baton) && (0 <? BlendBaton.height baton)))
     then Stop (Throws "Without buffers, you have to specify width and height.")
     else if (BlendBaton.width baton <? 0) || (BlendBaton.height baton <? 0)
     then Stop (Throws "Image dimensions must be greater than 0.")
     else
       images <- collect_images images ;;
       Go (BlendBaton.set_images baton images))
  with
  | Go baton => Queues baton
  | Stop r => r
  end.

End Entry.
(** ** Vocabulary of the specification *)

(** The exact value of a word assembled from four bytes. *)
Definition argb_word (a b g r : Z) : Z := a * 2 ^ 24 + b * 2 ^ 16 + g * 2 ^ 8 + r.

Definition is_byte (x : Z) : Prop := 0 <= x <= 255.

(** The blend of section 4.3.4 of the specification, over the integers:
    [a0' = ((a1 + a0) << 8) - a0 * a1] and
    [c = (((c1 << 8) - c0) * a1 + (c0 << 8)) / a0'], the division truncating. *)
Definition spec_alpha (a0 a1 : Z) : Z := (a1 + a0) * 2 ^ 8 - a0 * a1.

Definition spec_channel (c1 c0 a1 a0' : Z) : Z :=
  Z.quot ((c1 * 2 ^ 8 - c0) * a1 + c0 * 2 ^ 8) a0'.

(** What the caller observes of a run of the worker: the call of the
    completion callback, when the worker returns. *)
Definition completion (o : Outcome) : option Call :=
  match o with
  | Finished baton _ => Some (Work_AfterBlend baton)
  | NoBehaviour => None
  end.

Definition decoded_layers (o : Outcome) : list Z :=
  match o with
  | Finished _ decoded => decoded
  | NoBehaviour => []
  end.

(** A layer as [Blend] queues it: not decoded yet. *)
Definition fresh (image : Image.t) : Prop := Image.reader image = None.

(** A job as [Blend] queues it: no message, no warning, nothing written. *)
Definition queued (baton : BlendBaton.t) : Prop :=
  BlendBaton.message baton = EmptyString /\ BlendBaton.warnings baton = [] /\
  BlendBaton.stream baton = [] /\ Forall fresh (BlendBaton.images baton).

(** The layer covers the canvas (lines 513-514), the canvas being the one
    in effect when the layer is examined: the baton's, seeded by the layer
    where the caller left it unset. *)
Definition covers_canvas (baton : BlendBaton.t) (image : Image.t) (layer : ImageReader)
  : Prop :=
  let visibleWidth := to_int (rd_width layer) + Image.x image in
  let visibleHeight := to_int (rd_height layer) + Image.y image in
  Image.x image <= 0 /\ Image.y image <= 0 /\
  seed (BlendBaton.width baton) visibleWidth <= visibleWidth /\
  seed (BlendBaton.height baton) visibleHeight <= visibleHeight.

(** The layer has a visible part to the right of and below the origin. *)
Definition visible (image : Image.t) (layer : ImageReader) : Prop :=
  0 < to_int (rd_width layer) + Image.x image /\
  0 < to_int (rd_height layer) + Image.y image.

(** The layer passes the viewport test of line 484 for a canvas of the
    given width and height. *)
Definition in_viewport (W H : Z) (image : Image.t) (layer : ImageReader) : Prop :=
  0 < to_int (rd_width layer) + Image.x image /\
  0 < to_int (rd_height layer) + Image.y image /\
  Image.x image < W /\ Image.y image < H.

(** A decoded layer whose decoder reports no alpha and which covers the
    canvas of the job (lines 513-515): the layer that clears the flag
    [alpha] of the worker. *)
Definition opaque_cover (baton : BlendBaton.t) (image : Image.t) : Prop :=
  exists layer : ImageReader,
    Image.reader image = Some layer /\ rd_alpha layer = false /\
    Image.x image <= 0 /\ Image.y image <= 0 /\
    BlendBaton.width baton <= Image.width image + Image.x image /\
    BlendBaton.height baton <= Image.height image + Image.y image.

(** The 32-bit two's complement value of an integer: what a product of
    [int]s that overflows leaves in its register on the usual machines. *)
Definition int_wrap (z : Z) : Z := (z + 2 ^ 31) mod 2 ^ 32 - 2 ^ 31.

(** ** Collaborators for the worked examples *)

Definition byte_value (b : byte) : Z := Z.of_N (Byte.to_N b).

(** A toy format: width, height, alpha flag and colour in one byte each.
    Anything shorter is not an image. *)
Definition sample_create (data : list byte) : option ImageReader :=
  match data with
  | w :: h :: a :: c :: _ =>
      let alpha := negb (byte_value a =? 0) in
      let pixel := (if alpha then 0x80000000 else 0xFF000000) + byte_value c in
      Some {| rd_width := byte_value w; rd_height := byte_value h; rd_alpha := alpha;
              rd_message := EmptyString;
              rd_decode := Decoded [] (repeat pixel (Z.to_nat (byte_value w * byte_value h))) |}
  | _ =>
      Some {| rd_width := 0; rd_height := 0; rd_alpha := false;
              rd_message := "Unknown image format";
              rd_decode := DecodeFailed "Unknown image format" |}
  end.

(** A toy encoder: the low byte of every canvas word. *)
Definition sample_bytes (image : image_data_32) : list byte :=
  map (fun c => match c with
                | Some v => match Byte.of_N (Z.to_N (v mod 256)) with
                            | Some b => b
                            | None => x00
                            end
                | None => x00
                end) (id_data image).

Definition sample_jpeg (quality : Z) (image : image_data_32) : encode_result :=
  Wrote (sample_bytes image).
Definition sample_png8_pal (image : image_data_32) (p : Palette) (c s : Z) (m : bool)
  : encode_result := Wrote (sample_bytes image).
Definition sample_png8_hex (image : image_data_32) (q c s t : Z) (g : Double.t) (m : bool)
  : encode_result := Wrote (sample_bytes image).
Definition sample_png8_oct (image : image_data_32) (q c s t : Z) (m : bool)
  : encode_result := Wrote (sample_bytes image).
Definition sample_png (image : image_data_32) (c s : Z) (alpha m : bool)
  : encode_result := Wrote (sample_bytes image).

(** A number that is neither an infinity nor a NaN. *)
Definition finite_or_zero (x : Double.t) : Prop :=
  match x with
  | S754_zero _ | S754_finite _ _ _ => True
  | S754_infinity _ | S754_nan => False
  end.

(** What the C standard says of [fmod(x, 1)]: the result is a NaN, or a
    number of magnitude less than 1. *)
Definition fmod_below_one (fmod : Double.t -> Double.t -> Double.t) : Prop :=
  forall x : Double.t,
    fmod x (Double.of_int 1) = S754_nan \/
    (Double.valid (fmod x (Double.of_int 1)) = true /\
     Double.ltb (SFabs (fmod x (Double.of_int 1))) (Double.of_int 1) = true).

(** The fractional part of [x], with the sign of [x]. *)
Definition fractional_part (x : Double.t) : Double.t :=
  match x with
  | S754_finite s m e =>
      if 0 <=? e then S754_zero s
      else
        let r := Z.land (Zpos m) (Z.ones (- e)) in
        match binary_normalize Double.prec Double.emax r e s with
        | S754_finite _ m' e' => S754_finite s m' e'
        | _ => S754_zero s
        end
  | S754_zero s => x
  | S754_infinity _ | S754_nan => S754_nan
  end.

(** [fmod(x, 1)] for the examples: the fractional part of [x], kept when
    it is in the range of [fmod(x, 1)]. *)
Definition sample_fmod (x y : Double.t) : Double.t :=
  let r := fractional_part x in
  if Double.valid r && Double.ltb (SFabs r) (Double.of_int 1) then r else S754_nan.

Definition sample_Work_Blend : BlendBaton.t -> Outcome :=
  Work_Blend sample_jpeg sample_png8_pal sample_png8_hex sample_png8_oct sample_png
    sample_create (fun _ => true) sample_fmod.

Definition sample_walk : list Image.t -> Z -> WalkState -> Flow :=
  walk sample_create.

Definition sample_Blend : list Value -> BlendResult :=
  Blend (fun _ => 0) (fun _ => 0).

(** The images the loop has visited, put back in front of the rest. *)
Definition prepend (images : list Image.t) (f : Flow) : Flow :=
  fold_right keep f images.

(** The loop changes the baton's width, height and warnings only, until
    the worker returns. *)
Definition same_settings (b b' : BlendBaton.t) : Prop :=
  b' = BlendBaton.set_warnings
         (BlendBaton.set_height (BlendBaton.set_width b (BlendBaton.width b'))
            (BlendBaton.height b'))
         (BlendBaton.warnings b').

(** ** Worked examples *)

(** A job of the given layers, as [Blend] queues it. *)
Definition sample_job (images : list Image.t) (reencode : bool) (matte : Z)
  : BlendBaton.t :=
  BlendBaton.set_matte
    (BlendBaton.set_reencode
       (BlendBaton.set_images (BlendBaton.set_callback BlendBaton.new (FunctionV 0)) images)
       reencode)
    matte.

(** Opaque layers of 2 by 2 pixels, of colours 7 and 5. *)
Definition opaque_2x2 : Image.t := Image.make [x02; x02; x00; x07] 0 0.
Definition other_2x2 : Image.t := Image.make [x02; x02; x00; x05] 0 0.
(** A translucent pixel at (1, 1). *)
Definition translucent_1x1 : Image.t := Image.make [x01; x01; x01; x09] 1 1.
(** Two bytes that are no image. *)
Definition garbage : Image.t := Image.make [x01; x02] 0 0.
(** Opaque rows of 4 and of 8 pixels, starting 4 pixels left of the canvas. *)
Definition row_4_left : Image.t := Image.make [x04; x01; x00; x09] (-4) 0.
Definition row_4_left' : Image.t := Image.make [x04; x01; x00; x07] (-4) 0.
Definition row_8_left : Image.t := Image.make [x08; x01; x00; x07] (-4) 0.

(** The reader of a layer in the toy format. *)
Definition sample_reader (image : Image.t) : ImageReader :=
  match sample_create (Image.data image) with
  | Some layer => layer
  | None => {| rd_width := 0; rd_height := 0; rd_alpha := false;
               rd_message := EmptyString; rd_decode := DecodeFailed EmptyString |}
  end.

(** A decoded layer of 3 by 2 pixels at (-1, 1), for a canvas of 4 by 3. *)
Definition decoded_3x2 : Image.t :=
  {| Image.data := [x03; x02; x00; x05]; Image.x := -1; Image.y := 1;
     Image.width := 3; Image.height := 2;
     Image.reader := sample_create [x03; x02; x00; x05] |}.

Definition canvas_4x3 : BlendBaton.t :=
  BlendBaton.set_height (BlendBaton.set_width (sample_job [decoded_3x2] true 0) 4) 3.

(** An opaque layer of 1 by 2 pixels at (0, 1), for a canvas of 65536 by
    65537: each dimension fits an [int], their product does not. *)
Definition column_1x2 : Image.t := Image.make [x01; x02; x00; x07] 0 1.

Definition oversized_job : BlendBaton.t :=
  BlendBaton.set_height (BlendBaton.set_width (sample_job [column_1x2] true 0) 65536) 65537.

(** The layer as the loop of the worker leaves it. *)
Definition decoded_column : Image.t :=
  {| Image.data := [x01; x02; x00; x07]; Image.x := 0; Image.y := 1;
     Image.width := 1; Image.height := 2;
     Image.reader := sample_create [x01; x02; x00; x07] |}.

(** ** Vocabulary of the further properties *)

(** The hypotheses under which the worker calls [Blend_Composite]: a
    decoded layer and a canvas of the sizes the descriptors state, the
    layer having passed the viewport test. *)
Definition blit_ready (target : list cell) (baton : BlendBaton.t) (image : Image.t)
  (layer : ImageReader) : Prop :=
  Image.reader image = Some layer /\
  0 <= Image.width image /\ 0 <= Image.height image /\
  Z.of_nat (List.length (rd_surface layer)) = Image.width image * Image.height image /\
  0 < BlendBaton.width baton /\ 0 < BlendBaton.height baton /\
  Z.of_nat (List.length target) = BlendBaton.width baton * BlendBaton.height baton /\
  Image.width image + Image.x image > 0 /\ Image.height image + Image.y image > 0 /\
  Image.x image < BlendBaton.width baton /\ Image.y image < BlendBaton.height baton.

(** The sizes of a blit that fit an [int]: the number of pixels of the
    layer and of the canvas, with one more row's width (the positions the
    loop moves to after its last row), the height of the layer, and the
    layer's right and bottom edges. *)
Definition int_sized (baton : BlendBaton.t) (image : Image.t) : Prop :=
  Image.width image * Image.height image + Image.width image <= Int.max /\
  Image.height image <= Int.max /\
  BlendBaton.width baton * BlendBaton.height baton + BlendBaton.width baton <= Int.max /\
  Image.x image + Image.width image <= Int.max /\
  Image.y image + Image.height image <= Int.max.

(** A decoded opaque layer of 3 by 2 pixels at (-1, 0), which covers a
    canvas of 2 by 2. *)
Definition decoded_cover : Image.t :=
  {| Image.data := [x03; x02; x00; x05]; Image.x := -1; Image.y := 0;
     Image.width := 3; Image.height := 2;
     Image.reader := sample_create [x03; x02; x00; x05] |}.

Definition canvas_2x2 : BlendBaton.t :=
  BlendBaton.set_height (BlendBaton.set_width (sample_job [decoded_cover] true 0) 2) 2.

(** A decoded layer of 2 by 1 pixels that are fully transparent. *)
Definition clear_reader : ImageReader :=
  {| rd_width := 2; rd_height := 1; rd_alpha := true; rd_message := EmptyString;
     rd_decode := Decoded [] [0x00112233; 0x00000000] |}.

Definition decoded_clear : Image.t :=
  {| Image.data := []; Image.x := 1; Image.y := 1; Image.width := 2; Image.height := 1;
     Image.reader := Some clear_reader |}.

Definition canvas_3x2 : BlendBaton.t :=
  BlendBaton.set_height (BlendBaton.set_width (sample_job [decoded_clear] true 0) 3) 2.

(** The layer descriptor [Blend] makes of an element of its first
    argument: a plain buffer at the origin, or the buffer of an object
    with that object's offsets. *)
Definition describes (Int32Value_other : Value -> Z) (element : Value) (image : Image.t)
  : Prop :=
  (exists bytes : list byte, element = BufferV bytes /\ image = Image.make bytes 0 0) \/
  (exists (properties : list (string * Value)) (bytes : list byte),
      element = ObjectV properties /\
      lookup properties "buffer" = Some (BufferV bytes) /\
      image = Image.make bytes
                (Int32Value Int32Value_other (Get element "x"))
                (Int32Value Int32Value_other (Get element "y"))).

(** The highest compression level of the job's encoder (lines 242-243). *)
Definition max_compression (baton : BlendBaton.t) : Z :=
  match BlendBaton.encoder baton with
  | BLEND_ENCODER_MINIZ => MZ_UBER_COMPRESSION
  | BLEND_ENCODER_LIBPNG => Z_BEST_COMPRESSION
  end.

(** What the validation of the options establishes of a job. *)
Definition options_checked (baton : BlendBaton.t) : Prop :=
  (BlendBaton.format baton = BLEND_FORMAT_JPEG -> 1 <= BlendBaton.quality baton <= 100) /\
  (BlendBaton.matte baton <> 0 -> BlendBaton.reencode baton = true) /\
  (BlendBaton.compression baton = Z_DEFAULT_COMPRESSION \/
   1 <= BlendBaton.compression baton <= max_compression baton).

(** [Blend] refuses the call: it throws (or meets an object it cannot
    unwrap), without calling the callback and without queueing a job. *)
Definition refused (r : BlendResult) : Prop :=
  match r with
  | Throws _ | Unwrapped => True
  | Calls _ _ | Queues _ => False
  end.

(** The fields the validation of the options never writes. *)
Definition fixed_fields (b b' : BlendBaton.t) : Prop :=
  BlendBaton.callback b' = BlendBaton.callback b /\
  BlendBaton.images b' = BlendBaton.images b /\
  BlendBaton.message b' = BlendBaton.message b /\
  BlendBaton.warnings b' = BlendBaton.warnings b /\
  BlendBaton.stream b' = BlendBaton.stream b.

(** What the worker leaves of a layer descriptor: its bytes and its
    offsets (it writes the width, the height and the reader). *)
Definition same_layer (image image' : Image.t) : Prop :=
  Image.data image' = Image.data image /\ Image.x image' = Image.x image /\
  Image.y image' = Image.y image.

(** What the worker leaves of a job: the callback and the caller's
    settings, a width and a height the caller gave, and what was already
    reported and written, to which it only adds. *)
Definition extends (b b' : BlendBaton.t) : Prop :=
  BlendBaton.callback b' = BlendBaton.callback b /\
  BlendBaton.format b' = BlendBaton.format b /\
  BlendBaton.reencode b' = BlendBaton.reencode b /\
  BlendBaton.matte b' = BlendBaton.matte b /\
  (0 < BlendBaton.width b -> BlendBaton.width b' = BlendBaton.width b) /\
  (0 < BlendBaton.height b -> BlendBaton.height b' = BlendBaton.height b) /\
  (exists extra : list string, BlendBaton.warnings b' = BlendBaton.warnings b ++ extra) /\
  (exists out : list byte, BlendBaton.stream b' = BlendBaton.stream b ++ out).

(** Two doubles that are the same datum (not the comparison of the
    language, for which the two zeros are equal and a NaN differs from
    itself). *)
Definition same_double (a b : Double.t) : bool :=
  match a, b with
  | S754_zero s, S754_zero s' => Bool.eqb s s'
  | S754_infinity s, S754_infinity s' => Bool.eqb s s'
  | S754_nan, S754_nan => true
  | S754_finite s m e, S754_finite s' m' e' => Bool.eqb s s' && Pos.eqb m m' && Z.eqb e e'
  | _, _ => false
  end.

(** What [rgb2hsl] and the conversion back make of the grey [v]. *)
Definition grey_round_trip (v : Z) : bool :=
  let '(h, s, l) := rgb2hsl v v v in
  same_double h Double.zero && same_double s Double.zero
  && same_double l (Double.div (Double.of_int v) (Double.of_int 255))
  && Double.valid l && Double.leb Double.zero l && Double.leb l (Double.of_int 1)
  && match Double.to_unsigned (Double.mul l (Double.of_int 255)) with
     | Some u => u =? v
     | None => false
     end.

(** A job without layers, for a canvas of 2 by 1. *)
Definition blank_2x1 : BlendBaton.t :=
  BlendBaton.set_height (BlendBaton.set_width (sample_job [] true 0xFF0000FF) 2) 1.

(** A decoder facade that keeps its word: a width and a height that fit
    an [int], and a surface of that many pixels. *)
Definition sound_reader (layer : ImageReader) : Prop :=
  0 <= rd_width layer < 2 ^ 31 /\ 0 <= rd_height layer < 2 ^ 31 /\
  forall (warnings : list string) (surface : list Z),
    rd_decode layer = Decoded warnings surface ->
    Z.of_nat (List.length surface) = rd_width layer * rd_height layer.

(** A layer as the loop of the worker leaves it: not decoded, or decoded
    and inside the canvas of the job, with sizes that fit an [int]. *)
Definition kept_ok (baton : BlendBaton.t) (image : Image.t) : Prop :=
  match Image.reader image with
  | None => True
  | Some layer =>
      0 <= Image.width image /\ 0 <= Image.height image /\
      Z.of_nat (List.length (rd_surface layer)) = Image.width image * Image.height image /\
      0 < BlendBaton.width baton /\ 0 < BlendBaton.height baton /\
      Image.width image + Image.x image > 0 /\ Image.height image + Image.y image > 0 /\
      Image.x image < BlendBaton.width baton /\ Image.y image < BlendBaton.height baton /\
      int_sized baton image
  end.

(** A layer of modest size: offsets of at most 16384 in magnitude, and a
    decoder that reports a width and a height of at most 16384. *)
Definition modest_layer (create : list byte -> option ImageReader) (image : Image.t)
  : Prop :=
  - 2 ^ 14 <= Image.x image <= 2 ^ 14 /\ - 2 ^ 14 <= Image.y image <= 2 ^ 14 /\
  forall layer : ImageReader,
    create (Image.data image) = Some layer ->
    rd_width layer <= 2 ^ 14 /\ rd_height layer <= 2 ^ 14.

(** A job of modest size: a canvas of at most 16384 by 16384 (or left
    unset) and modest layers.  Every [int] the worker computes for such a
    job is below [2^31]. *)
Definition modest (create : list byte -> option ImageReader) (baton : BlendBaton.t)
  : Prop :=
  0 <= BlendBaton.width baton <= 2 ^ 14 /\ 0 <= BlendBaton.height baton <= 2 ^ 14 /\
  Forall (modest_layer create) (BlendBaton.images baton).

(** The warnings the decoder of a layer gives when it decodes the layer;
    none when there is no decoder or when the decoding fails. *)
Definition decoder_warnings (create : list byte -> option ImageReader) (image : Image.t)
  : list string :=
  match create (Image.data image) with
  | Some layer =>
      match rd_decode layer with
      | Decoded warnings _ => warnings
      | DecodeFailed _ => []
      end
  | None => []
  end.

(** What the worker reports of the decoding of layer [i] of [images]: the
    warnings of the layer's decoder, each after the text [Layer i: ]. *)
Definition reported (create : list byte -> option ImageReader) (images : list Image.t)
  (i : Z) : list string :=
  match nth_error images (Z.to_nat i) with
  | Some image =>
      map (fun w : string => ("Layer " ++ decimal i ++ ": " ++ w)%string)
        (decoder_warnings create image)
  | None => []
  end.

(** The toy decoder, with a warning for every image it decodes. *)
Definition noisy_create (data : list byte) : option ImageReader :=
  match sample_create data with
  | Some r =>
      Some {| rd_width := rd_width r; rd_height := rd_height r; rd_alpha := rd_alpha r;
              rd_message := rd_message r;
              rd_decode := match rd_decode r with
                           | Decoded _ surface => Decoded ["truncated"%string] surface
                           | DecodeFailed message => DecodeFailed message
                           end |}
  | None => None
  end.

(** A decoded translucent pixel at the origin. *)
Definition decoded_dot : Image.t :=
  {| Image.data := [x01; x01; x01; x09]; Image.x := 0; Image.y := 0;
     Image.width := 1; Image.height := 1;
     Image.reader := sample_create [x01; x01; x01; x09] |}.

(** A job for a canvas of 2 by 2 whose top layer lies left of the canvas. *)
Definition offscreen_job : BlendBaton.t :=
  BlendBaton.set_height
    (BlendBaton.set_width (sample_job [other_2x2; row_4_left] true 0) 2) 2.

(* ================================================================== *)
(** * Part II: properties *)
(* ================================================================== *)

(** ** Bit-level facts about 32-bit words *)

Lemma land_shifted_ones (x k n : Z) :
  0 <= n ->
  Z.land x (Z.shiftl (Z.ones k) n) = Z.shiftl (Z.land (Z.shiftr x n) (Z.ones k)) n.
Proof.
  intros Hn. apply Z.bits_inj'. intros i Hi.
  rewrite Z.land_spec.
  destruct (Z.lt_ge_cases i n) as [Hlt | Hge].
  - rewrite !Z.shiftl_spec_low by lia. apply andb_false_r.
  - rewrite !Z.shiftl_spec by lia.
    rewrite Z.land_spec, Z.shiftr_spec by lia.
    replace (i - n + n) with i by lia. reflexivity.
Qed.

Lemma lor_shiftl_add (hi lo n : Z) :
  0 <= n -> 0 <= lo < 2 ^ n ->
  Z.lor (hi * 2 ^ n) lo = hi * 2 ^ n + lo.
Proof.
  intros Hn Hlo.
  assert (Hdisj : Z.land (hi * 2 ^ n) lo = 0).
  { rewrite <- Z.shiftl_mul_pow2 by lia.
    apply Z.bits_inj'. intros i Hi.
    rewrite Z.land_spec, Z.bits_0.
    destruct (Z.lt_ge_cases i n) as [Hlt | Hge].
    - rewrite Z.shiftl_spec_low by lia. reflexivity.
    - assert (Hb : Z.testbit lo i = false).
      { destruct (Z.eq_dec lo 0) as [-> | Hnz]; [apply Z.bits_0 |].
        apply Z.bits_above_log2; [lia |].
        apply Z.log2_lt_pow2; [lia |].
        apply Z.lt_le_trans with (2 ^ n); [lia |].
        apply Z.pow_le_mono_r; lia. }
      rewrite Hb. apply andb_false_r. }
  rewrite <- Z.lxor_lor by exact Hdisj.
  symmetry. apply Z.add_nocarry_lxor. exact Hdisj.
Qed.

Lemma land_byte (x : Z) : Z.land x 0xff = x mod 2 ^ 8.
Proof. change 0xff with (Z.ones 8). apply Z.land_ones. lia. Qed.

Lemma land_byte_range (x : Z) : 0 <= Z.land x 0xff <= 255.
Proof. rewrite land_byte. pose proof (Z.mod_pos_bound x (2 ^ 8)). lia. Qed.

Lemma land_mask_8 (x : Z) : Z.land x 0xFF00 = (x / 2 ^ 8) mod 2 ^ 8 * 2 ^ 8.
Proof.
  change 0xFF00 with (Z.shiftl (Z.ones 8) 8).
  rewrite land_shifted_ones by lia.
  rewrite Z.shiftl_mul_pow2, Z.land_ones, Z.shiftr_div_pow2 by lia. reflexivity.
Qed.

Lemma land_mask_16 (x : Z) : Z.land x 0xFF0000 = (x / 2 ^ 16) mod 2 ^ 8 * 2 ^ 16.
Proof.
  change 0xFF0000 with (Z.shiftl (Z.ones 8) 16).
  rewrite land_shifted_ones by lia.
  rewrite Z.shiftl_mul_pow2, Z.land_ones, Z.shiftr_div_pow2 by lia. reflexivity.
Qed.

Lemma land_mask_24 (x : Z) : Z.land x 0xFF000000 = (x / 2 ^ 24) mod 2 ^ 8 * 2 ^ 24.
Proof.
  change 0xFF000000 with (Z.shiftl (Z.ones 8) 24).
  rewrite land_shifted_ones by lia.
  rewrite Z.shiftl_mul_pow2, Z.land_ones, Z.shiftr_div_pow2 by lia. reflexivity.
Qed.

Lemma lor_bytes (a b g r : Z) :
  is_byte a -> is_byte b -> is_byte g -> is_byte r ->
  Z.lor (Z.lor (Z.lor (a * 2 ^ 24) (b * 2 ^ 16)) (g * 2 ^ 8)) r = argb_word a b g r.
Proof.
  unfold is_byte, argb_word. intros Ha Hb Hg Hr.
  rewrite (lor_shiftl_add a (b * 2 ^ 16) 24) by lia.
  replace (a * 2 ^ 24 + b * 2 ^ 16) with ((a * 2 ^ 8 + b) * 2 ^ 16) by lia.
  rewrite (lor_shiftl_add (a * 2 ^ 8 + b) (g * 2 ^ 8) 16) by lia.
  replace ((a * 2 ^ 8 + b) * 2 ^ 16 + g * 2 ^ 8)
    with ((a * 2 ^ 16 + b * 2 ^ 8 + g) * 2 ^ 8) by lia.
  rewrite (lor_shiftl_add (a * 2 ^ 16 + b * 2 ^ 8 + g) r 8) by lia.
  lia.
Qed.

Lemma shl_small (x n : Z) :
  0 <= n -> 0 <= x * 2 ^ n < U32.modulus -> U32.shl x n = x * 2 ^ n.
Proof.
  intros Hn Hx. unfold U32.shl, U32.wrap.
  rewrite Z.shiftl_mul_pow2 by lia. apply Z.mod_small. exact Hx.
Qed.

Lemma pack_argb_exact (a b g r : Z) :
  is_byte a -> is_byte b -> is_byte g -> is_byte r ->
  pack_argb a b g r = argb_word a b g r.
Proof.
  intros Ha Hb Hg Hr. unfold pack_argb.
  unfold is_byte, U32.modulus in *.
  rewrite !shl_small by (unfold U32.modulus; lia).
  apply lor_bytes; assumption.
Qed.

Lemma argb_word_range (a b g r : Z) :
  is_byte a -> is_byte b -> is_byte g -> is_byte r ->
  U32.in_range (argb_word a b g r).
Proof. unfold is_byte, U32.in_range, U32.modulus, argb_word. lia. Qed.

(** Reading the channels back from an assembled word. *)
Lemma channels_of_argb_word (a b g r : Z) :
  is_byte a -> is_byte b -> is_byte g -> is_byte r ->
  alpha_of (argb_word a b g r) = a /\ blue_of (argb_word a b g r) = b /\
  green_of (argb_word a b g r) = g /\ red_of (argb_word a b g r) = r.
Proof.
  unfold is_byte, alpha_of, blue_of, green_of, red_of, argb_word, U32.shr.
  intros Ha Hb Hg Hr.
  rewrite !land_byte, !Z.shiftr_div_pow2 by lia.
  repeat split; Z.div_mod_to_equations; lia.
Qed.

(** Every word is assembled from its four channels. *)
Lemma argb_word_of_channels (p : Z) :
  U32.in_range p ->
  p = argb_word (alpha_of p) (blue_of p) (green_of p) (red_of p) /\
  is_byte (alpha_of p) /\ is_byte (blue_of p) /\ is_byte (green_of p) /\ is_byte (red_of p) /\
  alpha_of p = p / 2 ^ 24.
Proof.
  unfold is_byte, alpha_of, blue_of, green_of, red_of, argb_word, U32.shr,
    U32.in_range, U32.modulus.
  intros Hp.
  rewrite !land_byte, !Z.shiftr_div_pow2 by lia.
  repeat split; Z.div_mod_to_equations; lia.
Qed.


(** ** The partial-transparency blend *)

Lemma spec_alpha_bounds (a0 a1 : Z) :
  1 <= a0 <= 255 -> 1 <= a1 <= 254 -> 511 <= spec_alpha a0 a1 <= 65534.
Proof. unfold spec_alpha. intros H0 H1. nia. Qed.

Lemma over_alpha_exact (a0 a1 : Z) :
  is_byte a0 -> is_byte a1 -> over_alpha a0 a1 = spec_alpha a0 a1.
Proof.
  unfold is_byte, over_alpha, spec_alpha, U32.sub, U32.shl, U32.add, U32.mul, U32.wrap,
    U32.modulus.
  intros H0 H1.
  rewrite Z.shiftl_mul_pow2 by lia.
  rewrite (Z.mod_small (a1 + a0)) by lia.
  rewrite (Z.mod_small ((a1 + a0) * 2 ^ 8)) by lia.
  rewrite (Z.mod_small (a0 * a1)) by nia.
  apply Z.mod_small. nia.
Qed.

(** The numerator of a channel: never negative and below [2^32], so the
    reductions modulo [2^32] of the intermediate results cancel out. *)
Lemma channel_numerator_bounds (c1 c a0 a1 : Z) :
  is_byte c1 -> is_byte c -> 1 <= a0 <= 255 -> 1 <= a1 <= 254 ->
  0 <= (c1 * 2 ^ 8 - c * a0) * a1 + c * a0 * 2 ^ 8 <= 255 * spec_alpha a0 a1.
Proof.
  unfold is_byte, spec_alpha. intros Hc1 Hc H0 H1.
  assert (Hp : 0 <= c * a0 <= 255 * a0) by nia.
  assert (Hq : 0 <= c1 * a1 <= 255 * a1) by nia.
  replace ((c1 * 2 ^ 8 - c * a0) * a1 + c * a0 * 2 ^ 8)
    with (256 * (c1 * a1) + (c * a0) * (256 - a1)) by ring.
  replace (255 * ((a1 + a0) * 2 ^ 8 - a0 * a1))
    with (256 * (255 * a1) + (255 * a0) * (256 - a1)) by ring.
  split; [nia |].
  apply Z.add_le_mono; [lia |].
  apply Z.mul_le_mono_nonneg_r; lia.
Qed.

Lemma over_channel_exact (c1 c a0 a1 : Z) :
  is_byte c1 -> is_byte c -> 1 <= a0 <= 255 -> 1 <= a1 <= 254 ->
  over_channel c1 (U32.mul c a0) a1 (over_alpha a0 a1)
  = spec_channel c1 (c * a0) a1 (spec_alpha a0 a1) /\
  is_byte (spec_channel c1 (c * a0) a1 (spec_alpha a0 a1)).
Proof.
  intros Hc1 Hc H0 H1.
  pose proof (channel_numerator_bounds c1 c a0 a1 Hc1 Hc H0 H1) as Hn.
  pose proof (spec_alpha_bounds a0 a1 H0 H1) as Ha.
  rewrite over_alpha_exact by (unfold is_byte; lia).
  unfold over_channel, spec_channel, U32.div, U32.add, U32.mul, U32.sub, U32.shl, U32.wrap.
  rewrite !Z.shiftl_mul_pow2 by lia.
  assert (Hm : 0 < U32.modulus) by (unfold U32.modulus; lia).
  rewrite (Z.mod_small (c * a0)) by (unfold is_byte, U32.modulus in *; nia).
  rewrite Zminus_mod_idemp_l, Zmult_mod_idemp_l, Zplus_mod_idemp_l, Zplus_mod_idemp_r.
  rewrite Z.mod_small by (unfold U32.modulus; lia).
  rewrite Z.quot_div_nonneg by lia.
  split; [reflexivity |].
  unfold is_byte. split.
  - apply Z.div_pos; lia.
  - apply Z.div_le_upper_bound; lia.
Qed.

Example hex6 : hexToUInt32Color (fun _ => 0) (Some "#FF8000"%string) = 0xFF0080FF.
Proof. reflexivity. Qed.
Example hex8 : hexToUInt32Color (fun _ => 0) (Some "11223344"%string) = 0x44332211.
Proof. reflexivity. Qed.

(** C1.  In the partial-transparency branch (source alpha in 1..254, target
    alpha in 1..255) the 32-bit computation of [Blend_CompositePixel] yields
    exactly the integer formulas of the specification: the new alpha
    [a0' = ((a1 + a0) << 8) - a0 * a1] is never zero, every channel is
    [(((c1 << 8) - c0) * a1 + (c0 << 8)) / a0'] with [c0] the target channel
    multiplied by the original target alpha and the division truncating,
    and the final alpha is [a0' >> 8]; the reductions modulo [2^32] of the
    intermediate results leave no trace. *)
Theorem composite_partial_exact (S T : Z) :
  U32.in_range S -> U32.in_range T ->
  1 <= alpha_of S <= 254 -> 1 <= alpha_of T <= 255 ->
  let a1 := alpha_of S in
  let a0 := alpha_of T in
  let a0' := spec_alpha a0 a1 in
  let b := spec_channel (blue_of S) (blue_of T * a0) a1 a0' in
  let g := spec_channel (green_of S) (green_of T * a0) a1 a0' in
  let r := spec_channel (red_of S) (red_of T * a0) a1 a0' in
  a0' <> 0 /\
  over_alpha a0 a1 = a0' /\
  over_channel (blue_of S) (U32.mul (blue_of T) a0) a1 (over_alpha a0 a1) = b /\
  over_channel (green_of S) (U32.mul (green_of T) a0) a1 (over_alpha a0 a1) = g /\
  over_channel (red_of S) (U32.mul (red_of T) a0) a1 (over_alpha a0 a1) = r /\
  Blend_CompositePixel (Some T) S
  = Some (argb_word (a0' / 2 ^ 8) b g r).
Proof.
  intros HS HT H1 H0. cbv zeta.
  destruct (argb_word_of_channels S HS) as (_ & _ & HbS & HgS & HrS & HaS).
  destruct (argb_word_of_channels T HT) as (_ & _ & HbT & HgT & HrT & HaT).
  pose proof (spec_alpha_bounds _ _ H0 H1) as Ha.
  destruct (over_channel_exact _ _ _ _ HbS HbT H0 H1) as [Eb Bb].
  destruct (over_channel_exact _ _ _ _ HgS HgT H0 H1) as [Eg Bg].
  destruct (over_channel_exact _ _ _ _ HrS HrT H0 H1) as [Er Br].
  assert (Ea : over_alpha (alpha_of T) (alpha_of S) = spec_alpha (alpha_of T) (alpha_of S))
    by (apply over_alpha_exact; unfold is_byte; lia).
  repeat (split; [first [lia | assumption] |]).
  unfold Blend_CompositePixel.
  unfold U32.in_range, U32.modulus in HS, HT.
  assert (HSlo : (S <=? 0x00FFFFFF) = false)
    by (apply Z.leb_gt; rewrite HaS in H1; Z.div_mod_to_equations; lia).
  assert (HShi : (0xFF000000 <=? S) = false)
    by (apply Z.leb_gt; rewrite HaS in H1; Z.div_mod_to_equations; lia).
  assert (HTlo : (T <=? 0x00FFFFFF) = false)
    by (apply Z.leb_gt; rewrite HaT in H0; Z.div_mod_to_equations; lia).
  rewrite HSlo, HShi, HTlo. f_equal.
  unfold over.
  change (Z.land (U32.shr S 24) 255) with (alpha_of S).
  change (Z.land (U32.shr T 24) 255) with (alpha_of T).
  change (Z.land (U32.shr S 16) 255) with (blue_of S).
  change (Z.land (U32.shr T 16) 255) with (blue_of T).
  change (Z.land (U32.shr S 8) 255) with (green_of S).
  change (Z.land (U32.shr T 8) 255) with (green_of T).
  change (Z.land S 255) with (red_of S).
  change (Z.land T 255) with (red_of T).
  cbv zeta. rewrite Eb, Eg, Er, Ea.
  unfold U32.shr. rewrite Z.shiftr_div_pow2 by lia.
  apply pack_argb_exact; try assumption.
  unfold is_byte. Z.div_mod_to_equations. lia.
Qed.

Lemma composite_partial_exact_witness :
  Blend_CompositePixel (Some 0x80FF0000) 0x400000FF = Some 0xA0990066.
Proof.
  assert (HS : U32.in_range 0x400000FF) by (unfold U32.in_range, U32.modulus; lia).
  assert (HT : U32.in_range 0x80FF0000) by (unfold U32.in_range, U32.modulus; lia).
  assert (H1 : 1 <= alpha_of 0x400000FF <= 254) by (vm_compute; split; discriminate).
  assert (H0 : 1 <= alpha_of 0x80FF0000 <= 255) by (vm_compute; split; discriminate).
  destruct (composite_partial_exact _ _ HS HT H1 H0) as (_ & _ & _ & _ & _ & H).
  rewrite H. vm_compute. reflexivity.
Defined.

(** ** The two trivial branches *)

Lemma alpha_zero_iff (p : Z) : U32.in_range p -> (alpha_of p = 0 <-> p <= 0x00FFFFFF).
Proof.
  intros Hp. destruct (argb_word_of_channels p Hp) as (_ & _ & _ & _ & _ & Ha).
  unfold U32.in_range, U32.modulus in Hp. rewrite Ha.
  split; intros H; Z.div_mod_to_equations; lia.
Qed.

Lemma alpha_full_iff (p : Z) : U32.in_range p -> (alpha_of p = 255 <-> 0xFF000000 <= p).
Proof.
  intros Hp. destruct (argb_word_of_channels p Hp) as (_ & _ & _ & _ & _ & Ha).
  unfold U32.in_range, U32.modulus in Hp. rewrite Ha.
  split; intros H; Z.div_mod_to_equations; lia.
Qed.

(** C2.  A source whose alpha byte is 0 leaves the target bitwise as it
    is, whatever the target holds; a source whose alpha byte is 255 sets
    the target to the source, bitwise; and so does a source drawn over a
    target whose alpha byte is 0.  The cases are those of the code, in the
    order of its tests: the case of the transparent source comes first, and
    the target's alpha is looked at for the other sources. *)
Theorem composite_trivial_branches (S : Z) (T : cell) :
  U32.in_range S ->
  (alpha_of S = 0 -> Blend_CompositePixel T S = T) /\
  (alpha_of S = 255 -> Blend_CompositePixel T S = Some S) /\
  (alpha_of S <> 0 ->
   forall t, T = Some t -> U32.in_range t -> alpha_of t = 0 ->
   Blend_CompositePixel T S = Some S).
Proof.
  intros HS. unfold Blend_CompositePixel.
  pose proof (alpha_zero_iff S HS) as Hz.
  pose proof (alpha_full_iff S HS) as Hf.
  repeat split.
  - intros H0. apply Hz in H0. apply Z.leb_le in H0. rewrite H0. reflexivity.
  - intros H255. apply Hf in H255.
    assert (Hlo : (S <=? 0x00FFFFFF) = false) by (apply Z.leb_gt; lia).
    apply Z.leb_le in H255. rewrite Hlo, H255. reflexivity.
  - intros Hnz t -> Ht Ht0.
    assert (Hlo : (S <=? 0x00FFFFFF) = false).
    { apply Z.leb_gt. destruct (Z.le_gt_cases S 0x00FFFFFF) as [Hle | Hgt]; [| lia].
      apply Hz in Hle. contradiction. }
    rewrite Hlo. destruct (0xFF000000 <=? S); [reflexivity |].
    apply (alpha_zero_iff t Ht) in Ht0. apply Z.leb_le in Ht0. rewrite Ht0. reflexivity.
Qed.

Lemma composite_trivial_branches_witness :
  Blend_CompositePixel (Some 0x00445566) 0x80112233 = Some 0x80112233.
Proof.
  assert (HS : U32.in_range 0x80112233) by (unfold U32.in_range, U32.modulus; lia).
  assert (HT : U32.in_range 0x00445566) by (unfold U32.in_range, U32.modulus; lia).
  destruct (composite_trivial_branches 0x80112233 (Some 0x00445566) HS) as (_ & _ & H).
  apply (H ltac:(vm_compute; discriminate) 0x00445566 eq_refl HT eq_refl).
Defined.

(** ** The hexadecimal colour parser *)

Lemma hex_digit_range (c : ascii) (d : Z) : hex_digit c = Some d -> 0 <= d <= 15.
Proof.
  unfold hex_digit. set (n := Z.of_N (N_of_ascii c)).
  destruct ((48 <=? n) && (n <=? 57)) eqn:E1.
  { intros [= <-]. apply andb_true_iff in E1. lia. }
  destruct ((97 <=? n) && (n <=? 102)) eqn:E2.
  { intros [= <-]. apply andb_true_iff in E2. lia. }
  destruct ((65 <=? n) && (n <=? 70)) eqn:E3.
  { intros [= <-]. apply andb_true_iff in E3. lia. }
  discriminate.
Qed.

Lemma skip_hash_digit (c : ascii) (d : Z) (rest : string) :
  hex_digit c = Some d -> skip_hash (String c rest) = String c rest.
Proof.
  intros H. destruct c as [[] [] [] [] [] [] [] []]; try reflexivity.
  vm_compute in H. discriminate H.
Qed.

Lemma masks_of_argb_word (a b g r : Z) :
  is_byte a -> is_byte b -> is_byte g -> is_byte r ->
  Z.land (argb_word a b g r) 0xFF = r /\
  Z.land (argb_word a b g r) 0xFF00 = g * 2 ^ 8 /\
  Z.land (argb_word a b g r) 0xFF0000 = b * 2 ^ 16 /\
  Z.land (argb_word a b g r) 0xFF000000 = a * 2 ^ 24.
Proof.
  unfold is_byte, argb_word. intros Ha Hb Hg Hr.
  rewrite land_byte, land_mask_8, land_mask_16, land_mask_24.
  repeat split; Z.div_mod_to_equations; lia.
Qed.

Lemma shr_shifted (x n : Z) : 0 <= n -> U32.shr (x * 2 ^ n) n = x.
Proof.
  intros Hn. unfold U32.shr. rewrite Z.shiftr_div_pow2 by lia.
  apply Z.div_mul. apply Z.pow_nonzero; lia.
Qed.

(** The six-digit case, on the value the stream extracted. *)
Lemma rgb_to_argb (R G B : Z) :
  is_byte R -> is_byte G -> is_byte B ->
  let color := argb_word 0 R G B in
  Z.lor (Z.lor (Z.lor 0xFF000000 (U32.shl (Z.land color 0xFF) 16))
               (Z.land color 0xFF00))
        (U32.shr (Z.land color 0xFF0000) 16)
  = argb_word 0xFF B G R.
Proof.
  intros HR HG HB color.
  assert (H0 : is_byte 0) by (unfold is_byte; lia).
  destruct (masks_of_argb_word 0 R G B H0 HR HG HB) as (E0 & E8 & E16 & _).
  fold color in E0, E8, E16. rewrite E0, E8, E16.
  rewrite shr_shifted by lia.
  rewrite shl_small by (unfold is_byte, U32.modulus in *; lia).
  change 0xFF000000 with (0xFF * 2 ^ 24).
  apply lor_bytes; try assumption. unfold is_byte; lia.
Qed.

(** The eight-digit case: the circular shift from RGBA to ARGB. *)
Lemma rgba_to_argb (R G B A : Z) :
  is_byte R -> is_byte G -> is_byte B -> is_byte A ->
  let color := argb_word R G B A in
  Z.lor (Z.lor (Z.lor (U32.shl color 24)
                      (U32.shl (Z.land color 0xFF00) 8))
               (U32.shr (Z.land color 0xFF0000) 8))
        (U32.shr (Z.land color 0xFF000000) 24)
  = argb_word A B G R.
Proof.
  intros HR HG HB HA color.
  destruct (masks_of_argb_word R G B A HR HG HB HA) as (_ & E8 & E16 & E24).
  fold color in E8, E16, E24. rewrite E8, E16, E24.
  rewrite shr_shifted by lia.
  replace (G * 2 ^ 16) with (G * 2 ^ 8 * 2 ^ 8) by lia.
  rewrite shr_shifted by lia.
  rewrite (shl_small (B * 2 ^ 8)) by (unfold is_byte, U32.modulus in *; lia).
  replace (U32.shl color 24) with (A * 2 ^ 24).
  - replace (B * 2 ^ 8 * 2 ^ 8) with (B * 2 ^ 16) by lia.
    apply lor_bytes; assumption.
  - unfold U32.shl, U32.wrap, U32.modulus, color, argb_word, is_byte in *.
    rewrite Z.shiftl_mul_pow2 by lia.
    Z.div_mod_to_equations. lia.
Qed.

Lemma digits_inv (s : string) (ds : list (option Z)) :
  map hex_digit (list_ascii_of_string s) = ds ->
  match ds with
  | [] => s = EmptyString
  | d :: ds' => exists c rest, s = String c rest /\ hex_digit c = d /\
                               map hex_digit (list_ascii_of_string rest) = ds'
  end.
Proof.
  destruct s as [| c rest]; simpl; intros <-; [reflexivity |].
  exists c, rest. repeat split.
Qed.

Ltac next_digit H c rest Hc :=
  apply digits_inv in H; destruct H as (c & rest & -> & Hc & H).

(** C6.  [hexToUInt32Color] returns 0 for the null pointer and for a text
    whose length, after an optional leading [#], is neither 6 nor 8.  For
    six hexadecimal digits RRGGBB it returns the word with alpha 0xFF in
    bits 24-31, blue in bits 16-23, green in bits 8-15 and red in bits 0-7;
    for eight digits RRGGBBAA the same layout with the given alpha.  The
    leading [#] changes nothing. *)
Theorem hexToUInt32Color_spec (other : string -> Z) :
  hexToUInt32Color other None = 0 /\
  (forall s : string,
      String.length (skip_hash s) <> 6%nat -> String.length (skip_hash s) <> 8%nat ->
      hexToUInt32Color other (Some s) = 0) /\
  (forall (s : string) (r1 r2 g1 g2 b1 b2 : Z),
      map hex_digit (list_ascii_of_string s)
      = [Some r1; Some r2; Some g1; Some g2; Some b1; Some b2] ->
      let w := hexToUInt32Color other (Some s) in
      hexToUInt32Color other (Some (String "#" s)) = w /\
      U32.in_range w /\
      alpha_of w = 0xFF /\ blue_of w = 16 * b1 + b2 /\
      green_of w = 16 * g1 + g2 /\ red_of w = 16 * r1 + r2) /\
  (forall (s : string) (r1 r2 g1 g2 b1 b2 a1 a2 : Z),
      map hex_digit (list_ascii_of_string s)
      = [Some r1; Some r2; Some g1; Some g2; Some b1; Some b2; Some a1; Some a2] ->
      let w := hexToUInt32Color other (Some s) in
      hexToUInt32Color other (Some (String "#" s)) = w /\
      U32.in_range w /\
      alpha_of w = 16 * a1 + a2 /\ blue_of w = 16 * b1 + b2 /\
      green_of w = 16 * g1 + g2 /\ red_of w = 16 * r1 + r2).
Proof.
  split; [reflexivity |]. split; [| split].
  - intros s H6 H8. unfold hexToUInt32Color.
    destruct (Z.eqb_spec (Z.of_nat (String.length (skip_hash s))) 6) as [E | _]; [lia |].
    destruct (Z.eqb_spec (Z.of_nat (String.length (skip_hash s))) 8) as [E | _]; [lia |].
    reflexivity.
  - intros s r1 r2 g1 g2 b1 b2 H.
    next_digit H c1 s1 H1. next_digit H c2 s2 H2. next_digit H c3 s3 H3.
    next_digit H c4 s4 H4. next_digit H c5 s5 H5. next_digit H c6 s6 H6.
    apply digits_inv in H. subst s6.
    pose proof (hex_digit_range _ _ H1). pose proof (hex_digit_range _ _ H2).
    pose proof (hex_digit_range _ _ H3). pose proof (hex_digit_range _ _ H4).
    pose proof (hex_digit_range _ _ H5). pose proof (hex_digit_range _ _ H6).
    assert (HR : is_byte (16 * r1 + r2)) by (unfold is_byte; lia).
    assert (HG : is_byte (16 * g1 + g2)) by (unfold is_byte; lia).
    assert (HB : is_byte (16 * b1 + b2)) by (unfold is_byte; lia).
    assert (HA : is_byte 0xFF) by (unfold is_byte; lia).
    cbv zeta. unfold hexToUInt32Color.
    change (skip_hash (String "#" ?x)) with x.
    rewrite (skip_hash_digit _ _ _ H1).
    cbn [String.length Z.of_nat Pos.of_succ_nat Pos.succ Z.eqb Pos.eqb negb andb].
    split; [reflexivity |].
    unfold stream_hex. cbn [hex_digits]. rewrite H1, H2, H3, H4, H5, H6.
    replace (16 * (16 * (16 * (16 * (16 * (16 * 0 + r1) + r2) + g1) + g2) + b1) + b2)
      with (argb_word 0 (16 * r1 + r2) (16 * g1 + g2) (16 * b1 + b2))
      by (unfold argb_word; lia).
    assert (Hlt : (argb_word 0 (16 * r1 + r2) (16 * g1 + g2) (16 * b1 + b2) <? U32.modulus)
                  = true)
      by (apply Z.ltb_lt; unfold argb_word, U32.modulus, is_byte in *; lia).
    rewrite Hlt, (rgb_to_argb _ _ _ HR HG HB).
    split; [apply argb_word_range; assumption |].
    apply channels_of_argb_word; assumption.
  - intros s r1 r2 g1 g2 b1 b2 a1 a2 H.
    next_digit H c1 s1 H1. next_digit H c2 s2 H2. next_digit H c3 s3 H3.
    next_digit H c4 s4 H4. next_digit H c5 s5 H5. next_digit H c6 s6 H6.
    next_digit H c7 s7 H7. next_digit H c8 s8 H8.
    apply digits_inv in H. subst s8.
    pose proof (hex_digit_range _ _ H1). pose proof (hex_digit_range _ _ H2).
    pose proof (hex_digit_range _ _ H3). pose proof (hex_digit_range _ _ H4).
    pose proof (hex_digit_range _ _ H5). pose proof (hex_digit_range _ _ H6).
    pose proof (hex_digit_range _ _ H7). pose proof (hex_digit_range _ _ H8).
    assert (HR : is_byte (16 * r1 + r2)) by (unfold is_byte; lia).
    assert (HG : is_byte (16 * g1 + g2)) by (unfold is_byte; lia).
    assert (HB : is_byte (16 * b1 + b2)) by (unfold is_byte; lia).
    assert (HA : is_byte (16 * a1 + a2)) by (unfold is_byte; lia).
    cbv zeta. unfold hexToUInt32Color.
    change (skip_hash (String "#" ?x)) with x.
    rewrite (skip_hash_digit _ _ _ H1).
    cbn [String.length Z.of_nat Pos.of_succ_nat Pos.succ Z.eqb Pos.eqb negb andb].
    split; [reflexivity |].
    unfold stream_hex. cbn [hex_digits]. rewrite H1, H2, H3, H4, H5, H6, H7, H8.
    replace (16 * (16 * (16 * (16 * (16 * (16 * (16 * (16 * 0 + r1) + r2) + g1) + g2)
                                + b1) + b2) + a1) + a2)
      with (argb_word (16 * r1 + r2) (16 * g1 + g2) (16 * b1 + b2) (16 * a1 + a2))
      by (unfold argb_word; lia).
    assert (Hlt : (argb_word (16 * r1 + r2) (16 * g1 + g2) (16 * b1 + b2) (16 * a1 + a2)
                   <? U32.modulus) = true)
      by (apply Z.ltb_lt; unfold argb_word, U32.modulus, is_byte in *; lia).
    rewrite Hlt, (rgba_to_argb _ _ _ _ HR HG HB HA).
    split; [apply argb_word_range; assumption |].
    apply channels_of_argb_word; assumption.
Qed.

(** ** The blit rectangles *)

Lemma in_int_range (from to v : Z) : In v (int_range from to) <-> from <= v < to.
Proof.
  unfold int_range. rewrite in_map_iff. split.
  - intros (k & <- & Hk). apply in_seq in Hk. lia.
  - intros Hv. exists (Z.to_nat (v - from)). split; [lia |].
    apply in_seq. lia.
Qed.

Lemma in_blit_rows (rows : nat) (width imageWidth batonWidth sourcePos targetPos : Z)
  (ti si : Z) :
  In (ti, si) (blit_rows rows width imageWidth batonWidth sourcePos targetPos) <->
  exists row col : Z,
    0 <= row < Z.of_nat rows /\ 0 <= col < width /\
    ti = targetPos + row * batonWidth + col /\
    si = sourcePos + row * imageWidth + col.
Proof.
  revert sourcePos targetPos.
  induction rows as [| rows IH]; intros sourcePos targetPos; cbn [blit_rows].
  - split; [intros [] | intros (row & col & Hrow & _); lia].
  - rewrite in_app_iff, in_map_iff, IH. split.
    + intros [(col & [= <- <-] & Hcol) | (row & col & Hrow & Hcol & -> & ->)].
      * apply in_int_range in Hcol. exists 0, col. lia.
      * exists (row + 1), col. lia.
    + intros (row & col & Hrow & Hcol & -> & ->).
      destruct (Z.eq_dec row 0) as [-> | Hnz].
      * left. exists col. split; [f_equal; lia | apply in_int_range; lia].
      * right. exists (row - 1), col. lia.
Qed.

Lemma get_in_bounds {A : Type} (l : list A) (i : Z) :
  0 <= i < Z.of_nat (List.length l) -> exists v, get l i = Some v.
Proof.
  intros Hi. unfold get.
  destruct (Z.ltb_spec i 0) as [Hneg | _]; [lia |].
  destruct (nth_error l (Z.to_nat i)) as [v |] eqn:E; [exists v; reflexivity |].
  apply nth_error_None in E. lia.
Qed.

Lemma set_nth_length {A : Type} (l : list A) (n : nat) (v : A) :
  List.length (set_nth l n v) = List.length l.
Proof.
  revert n. induction l as [| hd tl IH]; intros [| n]; cbn; auto.
Qed.

Lemma set_length {A : Type} (l : list A) (i : Z) (v : A) :
  List.length (set l i v) = List.length l.
Proof. apply set_nth_length. Qed.

(** A sequence of calls of the loop body whose indices stay inside both
    arrays is defined, and leaves the target at its length. *)
Lemma composite_all_in_bounds (source : list Z) (accesses : list (Z * Z))
  (target : list cell) :
  (forall ti si, In (ti, si) accesses ->
                 0 <= ti < Z.of_nat (List.length target) /\
                 0 <= si < Z.of_nat (List.length source)) ->
  exists target',
    fold_left (composite_at source) accesses (Some target) = Some target' /\
    List.length target' = List.length target.
Proof.
  revert target. induction accesses as [| [ti si] rest IH]; intros target Hin.
  - exists target. split; reflexivity.
  - destruct (Hin ti si (or_introl eq_refl)) as [Hti Hsi].
    destruct (get_in_bounds target ti Hti) as [t Ht].
    destruct (get_in_bounds source si Hsi) as [s Hs].
    cbn [fold_left composite_at fst snd]. rewrite Ht, Hs.
    destruct (IH (set target ti (Blend_CompositePixel t s))) as (target' & Hf & Hl).
    { intros ti' si' Hin'. rewrite set_length. apply Hin. right. exact Hin'. }
    exists target'. split; [exact Hf |]. rewrite Hl. apply set_length.
Qed.

(** ** The completion callback *)

(** The two calls of [Work_AfterBlend]: three arguments on success, the
    error alone on failure. *)
Lemma Work_AfterBlend_arguments (baton : BlendBaton.t) :
  (BlendBaton.message baton = EmptyString ->
   argv (Work_AfterBlend baton)
   = [Null; BufferV (BlendBaton.stream baton);
      ArrayV (map Str (BlendBaton.warnings baton))]) /\
  (BlendBaton.message baton <> EmptyString ->
   argv (Work_AfterBlend baton) = [ErrorV (BlendBaton.message baton)]).
Proof.
  unfold Work_AfterBlend. split.
  - intros ->. reflexivity.
  - intros Hne. destruct (BlendBaton.message baton) as [| c rest]; [contradiction |].
    reflexivity.
Qed.

(** C8, at the input where the code departs from the claim.  A job of one
    plain buffer, without options (so without [reencode]), is answered by
    [Blend] itself, and the callback receives two arguments, the null value
    and the buffer: there is no array of warnings. *)
Theorem echo_path_two_arguments (other : Value -> Z) (hex_other : string -> Z)
  (bytes : list byte) (id : nat) :
  Blend other hex_other [ArrayV [BufferV bytes]; FunctionV id]
  = Calls (FunctionV id) [Null; BufferV bytes].
Proof. reflexivity. Qed.

(** C9, at the input where the code departs from the claim.  With no
    [format] option the output is a PNG, but a quality of 1 is accepted:
    the job is queued, with that quality and the PNG format. *)
Theorem png_quality_unchecked_without_format (other : Value -> Z)
  (hex_other : string -> Z) (b1 b2 : list byte) (id : nat) :
  exists baton : BlendBaton.t,
    Blend other hex_other
      [ArrayV [BufferV b1; BufferV b2]; ObjectV [("quality"%string, Number 1)]; FunctionV id]
    = Queues baton /\
    BlendBaton.format baton = BLEND_FORMAT_PNG /\ BlendBaton.quality baton = 1.
Proof. eexists. split; [reflexivity |]. split; reflexivity. Qed.

(** With the format named, the same quality is refused, and so is one
    above 256. *)
Lemma png_quality_checked_with_format (other : Value -> Z) (hex_other : string -> Z)
  (layers callback : Value) (properties : list (string * Value)) :
  IsArray layers = true -> IsFunction callback = true ->
  lookup properties "format" = Some (Str "png") ->
  (Int32Value other (Get (ObjectV properties) "quality") = 1 \/
   256 < Int32Value other (Get (ObjectV properties) "quality")) ->
  Blend other hex_other [layers; ObjectV properties; callback]
  = Throws "PNG images must be quantized between 2 and 256 colors.".
Proof.
  intros Harr Hfun Hfmt Hq.
  unfold Blend, check_arguments. rewrite Harr, Hfun.
  cbn [negb IsObject bind fst snd validate_options].
  unfold validate_format.
  cbn [Get]. rewrite Hfmt. cbn [Get] in Hq.
  set (q := Int32Value other _) in *.
  cbn [BlendBaton.quality BlendBaton.set_quality].
  change (String.eqb "png" "jpeg") with false.
  change (String.eqb "png" "jpg") with false.
  change (String.eqb "png" "png") with true.
  cbn [orb].
  assert (Hb : (q =? 1) || (256 <? q) = true).
  { apply orb_true_iff. destruct Hq as [-> | Hq]; [left; reflexivity | right].
    apply Z.ltb_lt. exact Hq. }
  rewrite Hb. reflexivity.
Qed.

(** ** The back-to-front walk *)

Section WalkFacts.

Variable create : list byte -> option ImageReader.

Lemma walk_stopped (rimages : list Image.t) (index : Z) (st : WalkState) :
  ws_alpha st = false -> walk create rimages index st = Fell st rimages.
Proof.
  intros H. destruct rimages as [| image rest]; cbn [walk]; [reflexivity |].
  rewrite H. reflexivity.
Qed.

Lemma prepend_Fell (images rimages : list Image.t) (st : WalkState) :
  prepend images (Fell st rimages) = Fell st (images ++ rimages).
Proof.
  unfold prepend. induction images as [| i tl IH]; cbn; [| rewrite IH]; reflexivity.
Qed.

Lemma prepend_Returned (images rimages : list Image.t) (st : WalkState) :
  prepend images (Returned st rimages) = Returned st (images ++ rimages).
Proof.
  unfold prepend. induction images as [| i tl IH]; cbn; [| rewrite IH]; reflexivity.
Qed.

Lemma prepend_NullReader (images : list Image.t) :
  prepend images NullReader = NullReader.
Proof.
  unfold prepend. induction images as [| i tl IH]; cbn; [| rewrite IH]; reflexivity.
Qed.

(** The walk over a list is the walk over its front part, continued on
    the rest from the state the front part leaves. *)
Lemma walk_app (front rest : list Image.t) (index : Z) (st : WalkState) :
  walk create (front ++ rest) index st =
  match walk create front index st with
  | Fell st' front' =>
      prepend front' (walk create rest (index - Z.of_nat (List.length front)) st')
  | Returned st' front' => Returned st' (front' ++ rest)
  | NullReader => NullReader
  end.
Proof.
  revert index st. induction front as [| image front IH]; intros index st.
  - cbn. rewrite Z.sub_0_r. reflexivity.
  - cbn [app walk]. destruct (negb (ws_alpha st)) eqn:Ha.
    + apply negb_true_iff in Ha. rewrite (walk_stopped rest _ st Ha).
      rewrite prepend_Fell. reflexivity.
    + destruct (examine create image index st) as [st1 image1 | st1 |];
        [| reflexivity | reflexivity].
      rewrite IH. destruct (walk create front (index - 1) st1) as [st' front' | st' front' |];
        cbn [keep]; [| reflexivity | reflexivity].
      cbn [prepend fold_right].
      replace (index - Z.of_nat (List.length (image :: front)))
        with (index - 1 - Z.of_nat (List.length front))
        by (cbn [List.length]; lia).
      reflexivity.
Qed.

Lemma same_settings_refl (b : BlendBaton.t) : same_settings b b.
Proof. destruct b. reflexivity. Qed.

Lemma same_settings_trans (b1 b2 b3 : BlendBaton.t) :
  same_settings b1 b2 -> same_settings b2 b3 -> same_settings b1 b3.
Proof.
  unfold same_settings. intros H12 H23. rewrite H23, H12. destruct b1. reflexivity.
Qed.

(** What one iteration does when the loop goes on: either it drops the
    layer and touches nothing but the canvas dimensions, or it has decoded
    the layer. *)
Lemma examine_Continue (image image' : Image.t) (index : Z) (st st' : WalkState) :
  examine create image index st = Continue st' image' ->
  same_settings (ws_baton st) (ws_baton st') /\
  ((ws_size st' = ws_size st /\ ws_decoded st' = ws_decoded st /\
    BlendBaton.warnings (ws_baton st') = BlendBaton.warnings (ws_baton st) /\
    ws_alpha st' = ws_alpha st /\ image' = image) \/
   (ws_size st' = ws_size st + 1 /\ ws_decoded st' = index :: ws_decoded st /\
    Image.reader image' <> None)).
Proof.
  unfold examine. destruct (create (Image.data image)) as [layer |]; [| discriminate].
  destruct ((rd_width layer =? 0) || (rd_height layer =? 0)); [discriminate |].
  destruct (Int.fits _ && Int.fits _); cbn [negb]; [| discriminate].
  match goal with |- context [if ?c then Continue _ _ else _] => destruct c end.
  - intros [= <- <-]. cbn. split; [destruct (ws_baton st); reflexivity |].
    left. repeat split.
  - match goal with |- context [if ?c then Leave _ else _] => destruct c end;
      [discriminate |].
    destruct (rd_decode layer) as [message | warnings surface]; [discriminate |].
    intros [= <- <-]. cbn. split; [destruct (ws_baton st); reflexivity |].
    right. repeat split. discriminate.
Qed.

(** What one iteration does when the worker returns from it. *)
Lemma examine_Leave (image : Image.t) (index : Z) (st st' : WalkState) :
  examine create image index st = Leave st' ->
  ws_decoded st' = ws_decoded st \/ ws_decoded st' = index :: ws_decoded st.
Proof.
  unfold examine. destruct (create (Image.data image)) as [layer |]; [| discriminate].
  destruct ((rd_width layer =? 0) || (rd_height layer =? 0)).
  { intros [= <-]. left. reflexivity. }
  destruct (Int.fits _ && Int.fits _); cbn [negb]; [| discriminate].
  match goal with |- context [if ?c then Continue _ _ else _] => destruct c end;
    [discriminate |].
  match goal with |- context [if ?c then Leave _ else _] => destruct c end.
  { intros [= <-]. left. reflexivity. }
  destruct (rd_decode layer) as [message | warnings surface]; [| discriminate].
  intros [= <-]. right. reflexivity.
Qed.

(** The walk that falls out of the loop has kept the settings; as long as
    no layer was kept, it has decoded nothing and collected no warning. *)
Lemma walk_Fell (rimages rimages' : list Image.t) (index : Z) (st st' : WalkState) :
  walk create rimages index st = Fell st' rimages' ->
  same_settings (ws_baton st) (ws_baton st') /\
  ws_size st <= ws_size st' /\
  (ws_size st' = ws_size st ->
   ws_decoded st' = ws_decoded st /\
   BlendBaton.warnings (ws_baton st') = BlendBaton.warnings (ws_baton st) /\
   ws_alpha st' = ws_alpha st).
Proof.
  revert rimages' index st. induction rimages as [| image rest IH]; intros rimages' index st.
  - cbn. intros [= <- <-]. split; [apply same_settings_refl |]. split; [lia |].
    intros _. repeat split.
  - cbn [walk]. destruct (negb (ws_alpha st)).
    { intros [= <- <-]. split; [apply same_settings_refl |]. split; [lia |].
      intros _. repeat split. }
    destruct (examine create image index st) as [st1 image1 | st1 |] eqn:Ex;
      [| discriminate | discriminate].
    destruct (walk create rest (index - 1) st1) as [st2 rest' | st2 rest' |] eqn:Ew;
      cbn [keep]; [| discriminate | discriminate].
    intros [= <- <-].
    destruct (examine_Continue _ _ _ _ _ Ex) as [Hs1 Hcase].
    destruct (IH _ _ _ Ew) as (Hs2 & Hle & Hsame).
    split; [exact (same_settings_trans _ _ _ Hs1 Hs2) |].
    destruct Hcase as [(Hsz & Hdec & Hw & Ha & _) | (Hsz & _)].
    + split; [lia |]. intros Heq.
      destruct (Hsame ltac:(lia)) as (Hd2 & Hw2 & Ha2).
      rewrite Hd2, Hw2, Ha2. repeat split; assumption.
    + split; [lia |]. intros Heq. lia.
Qed.

(** The layers the walk decodes are among those it goes through. *)
Lemma walk_decoded (rimages : list Image.t) (index : Z) (st : WalkState) :
  match walk create rimages index st with
  | Fell st' _ | Returned st' _ =>
      forall i : Z, In i (ws_decoded st') ->
                    In i (ws_decoded st) \/ index - Z.of_nat (List.length rimages) < i <= index
  | NullReader => True
  end.
Proof.
  revert index st. induction rimages as [| image rest IH]; intros index st.
  - cbn. intros i Hi. left. exact Hi.
  - cbn [walk]. destruct (negb (ws_alpha st)).
    { intros i Hi. left. exact Hi. }
    destruct (examine create image index st) as [st1 image1 | st1 |] eqn:Ex.
    + specialize (IH (index - 1) st1).
      destruct (examine_Continue _ _ _ _ _ Ex) as [_ Hcase].
      assert (Hst1 : forall i, In i (ws_decoded st1) -> In i (ws_decoded st) \/ i = index).
      { intros i Hi. destruct Hcase as [(_ & -> & _) | (_ & -> & _)] in Hi.
        - left. exact Hi.
        - destruct Hi as [<- | Hi]; [right; reflexivity | left; exact Hi]. }
      destruct (walk create rest (index - 1) st1) as [st2 rest' | st2 rest' |];
        cbn [keep]; [| | exact I].
      all: intros i Hi; destruct (IH i Hi) as [Hin | Hrange];
        [destruct (Hst1 i Hin) as [Hin' | ->]; [left; exact Hin' | right] | right];
        cbn [List.length]; lia.
    + intros i Hi. destruct (examine_Leave _ _ _ _ Ex) as [E | E]; rewrite E in Hi.
      * left. exact Hi.
      * destruct Hi as [<- | Hi]; [right; cbn [List.length]; lia | left; exact Hi].
    + exact I.
Qed.

End WalkFacts.

(** ** The canvas before compositing *)

Lemma set_nth_app (A : Type) (l1 l2 : list A) (old v : A) :
  set_nth (l1 ++ old :: l2) (List.length l1) v = l1 ++ v :: l2.
Proof. induction l1 as [| hd tl IH]; cbn; [| rewrite IH]; reflexivity. Qed.

Lemma repeat_snoc (A : Type) (a : A) (n : nat) : repeat a n ++ [a] = a :: repeat a n.
Proof. induction n as [| n IH]; cbn; [| rewrite IH]; reflexivity. Qed.

(** The fill loop, after [k] of its [n] iterations. *)
Lemma fill_prefix (matte : Z) (n k : nat) :
  (k <= n)%nat ->
  fold_left (fun (target : list cell) (i : Z) => set target i (Some matte))
    (map (fun j : nat => 0 + Z.of_nat j) (seq 0 k)) (repeat None n)
  = repeat (Some matte) k ++ repeat None (n - k).
Proof.
  induction k as [| k IH]; intros Hk.
  - cbn. rewrite Nat.sub_0_r. reflexivity.
  - rewrite seq_S, map_app, fold_left_app, IH by lia. cbn [map fold_left Nat.add].
    unfold set. replace (Z.to_nat (0 + Z.of_nat k)) with k by lia.
    replace (n - k)%nat with (S (n - S k)) by lia. cbn [repeat].
    pose proof (set_nth_app cell (repeat (Some matte) k) (repeat None (n - S k))
                  None (Some matte)) as Hset.
    rewrite repeat_length in Hset. etransitivity; [exact Hset |].
    change (Some matte :: repeat None (n - S k))
      with ([Some matte] ++ repeat None (n - S k)).
    rewrite app_assoc, repeat_snoc. reflexivity.
Qed.

Lemma canvas_init_filled (matte pixels : Z) :
  canvas_init true matte pixels = repeat (Some matte) (Z.to_nat pixels).
Proof.
  unfold canvas_init, int_range. rewrite Z.sub_0_r.
  rewrite fill_prefix by lia. rewrite Nat.sub_diag. apply app_nil_r.
Qed.

Lemma canvas_init_untouched (matte pixels : Z) :
  canvas_init false matte pixels = repeat None (Z.to_nat pixels).
Proof. reflexivity. Qed.

Lemma get_repeat (A : Type) (a : A) (n : nat) (i : Z) :
  0 <= i < Z.of_nat n -> get (repeat a n) i = Some a.
Proof.
  intros Hi. unfold get. destruct (Z.ltb_spec i 0) as [Hneg | _]; [lia |].
  apply nth_error_repeat. lia.
Qed.

(** ** The worker *)

Lemma to_int_positive (u : Z) : U32.in_range u -> u <> 0 -> 0 <= to_int u -> 0 < to_int u.
Proof.
  unfold U32.in_range, U32.modulus, to_int.
  destruct (Z.ltb_spec u (2 ^ 31)); lia.
Qed.

Lemma to_int_fits (u : Z) : U32.in_range u -> Int.fits (to_int u) = true.
Proof.
  unfold U32.in_range, U32.modulus, to_int, Int.fits, Int.min, Int.max. intros Hu.
  apply andb_true_iff. split; apply Z.leb_le; destruct (Z.ltb_spec u (2 ^ 31)); lia.
Qed.

Lemma rev_split (below above : list Image.t) (image : Image.t) :
  rev (below ++ image :: above) = rev above ++ image :: rev below.
Proof.
  rewrite rev_app_distr. cbn [rev]. rewrite <- app_assoc. reflexivity.
Qed.

Section WorkerFacts.

Variable save_as_jpeg : Z -> image_data_32 -> encode_result.
Variable save_as_png8_pal : image_data_32 -> Palette -> Z -> Z -> bool -> encode_result.
Variable save_as_png8_hex :
  image_data_32 -> Z -> Z -> Z -> Z -> Double.t -> bool -> encode_result.
Variable save_as_png8_oct : image_data_32 -> Z -> Z -> Z -> Z -> bool -> encode_result.
Variable save_as_png : image_data_32 -> Z -> Z -> bool -> bool -> encode_result.
Variable create : list byte -> option ImageReader.
Variable malloc_succeeds : Z -> bool.
Variable fmod : Double.t -> Double.t -> Double.t.

Let run : BlendBaton.t -> Outcome :=
  Work_Blend save_as_jpeg save_as_png8_pal save_as_png8_hex save_as_png8_oct save_as_png
    create malloc_succeeds fmod.


(** *** Layers beneath an opaque cover *)

Lemma Blend_Encode_images (image : image_data_32) (baton : BlendBaton.t)
  (images : list Image.t) (alpha : bool) :
  Blend_Encode save_as_jpeg save_as_png8_pal save_as_png8_hex save_as_png8_oct save_as_png
    image (BlendBaton.set_images baton images) alpha
  = BlendBaton.set_images
      (Blend_Encode save_as_jpeg save_as_png8_pal save_as_png8_hex save_as_png8_oct
         save_as_png image baton alpha) images.
Proof.
  destruct baton as [cb im q f re w h ma pal mo en co ti me wa stm].
  unfold Blend_Encode, BlendBaton.set_images, BlendBaton.set_quality.
  cbn [BlendBaton.format BlendBaton.quality BlendBaton.encoder BlendBaton.palette
       BlendBaton.mode BlendBaton.compression BlendBaton.stream
       BlendBaton.callback BlendBaton.images BlendBaton.reencode BlendBaton.width
       BlendBaton.height BlendBaton.matte BlendBaton.tint BlendBaton.message
       BlendBaton.warnings].
  destruct f; [| destruct (q =? 0)];
    cbn [BlendBaton.quality];
    match goal with |- context [match ?r with Wrote _ => _ | Raised _ _ => _ end] =>
      destruct r end; reflexivity.
Qed.

Lemma Work_AfterBlend_images (baton : BlendBaton.t) (images : list Image.t) :
  Work_AfterBlend (BlendBaton.set_images baton images) = Work_AfterBlend baton.
Proof. reflexivity. Qed.

(** Layers that were not decoded are not composited. *)
Lemma composite_fresh (baton : BlendBaton.t) (lower : list Image.t) (target : list cell) :
  Forall fresh lower ->
  fold_left
    (fun (target : option (list cell)) (image : Image.t) =>
       match target, Image.reader image with
       | None, _ => None
       | Some target, Some _ => Blend_Composite target baton image
       | Some target, None => Some target
       end) lower (Some target)
  = Some target.
Proof.
  induction 1 as [| image lower Hfresh _ IH]; cbn [fold_left]; [reflexivity |].
  unfold fresh in Hfresh. rewrite Hfresh. exact IH.
Qed.

(** The part of the worker after the loop does not depend on undecoded
    layers at the bottom of the stack. *)
Lemma blend_images_lower (st : WalkState) (rimages lower : list Image.t) :
  Forall fresh lower ->
  completion (blend_images save_as_jpeg save_as_png8_pal save_as_png8_hex save_as_png8_oct
                save_as_png malloc_succeeds fmod st (rimages ++ rev lower))
  = completion (blend_images save_as_jpeg save_as_png8_pal save_as_png8_hex
                  save_as_png8_oct save_as_png malloc_succeeds fmod st rimages) /\
  decoded_layers (blend_images save_as_jpeg save_as_png8_pal save_as_png8_hex
                    save_as_png8_oct save_as_png malloc_succeeds fmod st
                    (rimages ++ rev lower))
  = decoded_layers (blend_images save_as_jpeg save_as_png8_pal save_as_png8_hex
                      save_as_png8_oct save_as_png malloc_succeeds fmod st rimages).
Proof.
  intros Hfresh. unfold blend_images.
  rewrite rev_app_distr, rev_involutive.
  cbn [BlendBaton.width BlendBaton.height BlendBaton.matte BlendBaton.tint
       BlendBaton.set_images].
  set (pixels := BlendBaton.width (ws_baton st) * BlendBaton.height (ws_baton st)).
  destruct (negb (Int.fits pixels)); [split; reflexivity |].
  destruct (pixels <=? 0); [split; reflexivity |].
  destruct (negb (malloc_succeeds pixels)); [split; reflexivity |].
  set (target := canvas_init (ws_alpha st) (BlendBaton.matte (ws_baton st)) pixels).
  unfold blend_onto, composite_images.
  cbn [BlendBaton.images BlendBaton.set_images BlendBaton.width BlendBaton.height
       BlendBaton.tint].
  rewrite fold_left_app.
  rewrite (composite_fresh _ lower target Hfresh).
  match goal with
  | |- context [fold_left ?f (rev rimages) (Some target)] =>
      change (fold_left f (rev rimages) (Some target))
        with (fold_left
                (fun (target : option (list cell)) (image : Image.t) =>
                   match target, Image.reader image with
                   | None, _ => None
                   | Some target, Some _ =>
                       Blend_Composite target
                         (BlendBaton.set_images (ws_baton st) (rev rimages)) image
                   | Some target, None => Some target
                   end) (rev rimages) (Some target))
  end.
  match goal with
  | |- context [match ?c with Some _ => _ | None => NoBehaviour end] => destruct c
  end; [| split; reflexivity].
  cbn [completion decoded_layers]. split; [| reflexivity].
  rewrite (Blend_Encode_images _ (ws_baton st) (lower ++ rev rimages)).
  rewrite (Blend_Encode_images _ (ws_baton st) (rev rimages)).
  rewrite !Work_AfterBlend_images. reflexivity.
Qed.


Lemma to_int_0 : to_int 0 = 0.
Proof. reflexivity. Qed.

(** An opaque layer that covers the canvas and has a visible part ends
    the walk: the worker returns from its iteration, the flag is cleared,
    or the iteration has no defined behaviour. *)
Lemma examine_cover (image : Image.t) (layer : ImageReader) (index : Z) (st : WalkState) :
  create (Image.data image) = Some layer ->
  rd_alpha layer = false ->
  covers_canvas (ws_baton st) image layer -> visible image layer ->
  match examine create image index st with
  | Continue st' _ => ws_alpha st' = false
  | Leave _ => True
  | NullLayer => True
  end.
Proof.
  intros Hcreate Halpha (Hx & Hy & Hcw & Hch) (Hvw & Hvh).
  unfold examine. rewrite Hcreate.
  destruct (Z.eqb_spec (rd_width layer) 0) as [E | _];
    [rewrite E, to_int_0 in Hvw; lia |].
  destruct (Z.eqb_spec (rd_height layer) 0) as [E | _];
    [rewrite E, to_int_0 in Hvh; lia |].
  cbn [orb].
  destruct (Int.fits _ && Int.fits _); cbn [negb]; [| exact I].
  cbn [BlendBaton.width BlendBaton.height BlendBaton.set_width BlendBaton.set_height].
  set (vw := to_int (rd_width layer) + Image.x image) in *.
  set (vh := to_int (rd_height layer) + Image.y image) in *.
  assert (HW : 0 < seed (BlendBaton.width (ws_baton st)) vw).
  { unfold seed. destruct (Z.leb_spec (BlendBaton.width (ws_baton st)) 0); lia. }
  assert (HH : 0 < seed (BlendBaton.height (ws_baton st)) vh).
  { unfold seed. destruct (Z.leb_spec (BlendBaton.height (ws_baton st)) 0); lia. }
  destruct (Z.leb_spec vw 0) as [E | _]; [lia |].
  destruct (Z.leb_spec vh 0) as [E | _]; [lia |].
  destruct (Z.leb_spec (seed (BlendBaton.width (ws_baton st)) vw) (Image.x image))
    as [E | _]; [lia |].
  destruct (Z.leb_spec (seed (BlendBaton.height (ws_baton st)) vh) (Image.y image))
    as [E | _]; [lia |].
  cbn [orb].
  match goal with |- context [if ?c then Leave _ else _] => destruct c end; [exact I |].
  destruct (rd_decode layer) as [message | warnings surface]; [exact I |].
  cbn [ws_alpha BlendBaton.width BlendBaton.height BlendBaton.set_warnings
       BlendBaton.set_width BlendBaton.set_height].
  rewrite Halpha.
  destruct (Z.leb_spec (Image.x image) 0) as [_ | E]; [| lia].
  destruct (Z.leb_spec (Image.y image) 0) as [_ | E]; [| lia].
  destruct (Z.leb_spec (seed (BlendBaton.width (ws_baton st)) vw) vw) as [_ | E]; [| lia].
  destruct (Z.leb_spec (seed (BlendBaton.height (ws_baton st)) vh) vh) as [_ | E]; [| lia].
  reflexivity.
Qed.

Section Cover.

Variable baton : BlendBaton.t.
Variable above : list Image.t.
Variable image : Image.t.
Variable layer : ImageReader.
Variable index : Z.

Hypothesis Hcreate : create (Image.data image) = Some layer.
Hypothesis Halpha : rd_alpha layer = false.
Hypothesis Hcover :
  forall (st : WalkState) (rabove : list Image.t),
    walk create (rev above) index (initial_walk_state baton) = Fell st rabove ->
    ws_alpha st = true ->
    covers_canvas (ws_baton st) image layer /\ visible image layer.

(** Past the cover, the loop is left or the flag is cleared. *)
Lemma walk_to_cover (st : WalkState) (rimages : list Image.t) :
  walk create (rev above ++ [image]) index (initial_walk_state baton) = Fell st rimages ->
  ws_alpha st = false.
Proof.
  rewrite walk_app.
  destruct (walk create (rev above) index (initial_walk_state baton))
    as [st1 rabove | st1 rabove |] eqn:Eabove; [| discriminate | discriminate].
  cbn [walk]. destruct (ws_alpha st1) eqn:Ea; cbn [negb].
  - destruct (Hcover st1 rabove eq_refl Ea) as [Hc Hv].
    pose proof (examine_cover image layer
                  (index - Z.of_nat (List.length (rev above))) st1 Hcreate Halpha Hc Hv)
      as Hex.
    destruct (examine create image (index - Z.of_nat (List.length (rev above))) st1)
      as [st2 image2 | st2 |].
    + cbn [walk keep]. rewrite prepend_Fell. intros [= <- _]. exact Hex.
    + rewrite prepend_Returned. discriminate.
    + rewrite prepend_NullReader. discriminate.
  - rewrite prepend_Fell. intros [= <- _]. exact Ea.
Qed.

(** The walk never goes below the cover. *)
Lemma walk_past_cover (lower : list Image.t) :
  walk create (rev (lower ++ image :: above)) index (initial_walk_state baton) =
  match walk create (rev above ++ [image]) index (initial_walk_state baton) with
  | Fell st rimages => Fell st (rimages ++ rev lower)
  | Returned st rimages => Returned st (rimages ++ rev lower)
  | NullReader => NullReader
  end.
Proof.
  rewrite rev_split.
  change (rev above ++ image :: rev lower) with (rev above ++ [image] ++ rev lower).
  rewrite app_assoc, walk_app.
  destruct (walk create (rev above ++ [image]) index (initial_walk_state baton))
    as [st rimages | st rimages |] eqn:E; [| reflexivity | reflexivity].
  rewrite (walk_stopped create _ _ st (walk_to_cover _ _ E)).
  apply prepend_Fell.
Qed.

End Cover.

Lemma blend_images_decoded (st : WalkState) (rimages : list Image.t) (i : Z) :
  In i (decoded_layers (blend_images save_as_jpeg save_as_png8_pal save_as_png8_hex
                          save_as_png8_oct save_as_png malloc_succeeds fmod st rimages)) ->
  In i (ws_decoded st).
Proof.
  unfold blend_images, blend_onto.
  repeat match goal with
         | |- context [if ?c then NoBehaviour else _] => destruct c
         | |- context [if ?c then Finished _ _ else _] => destruct c
         | |- context [match ?c with Some _ => _ | None => NoBehaviour end] => destruct c
         end; cbn [decoded_layers]; try (intros []); auto.
Qed.

(** C4, as the code has it.  Let the stack hold a layer whose decoder
    reports no alpha, and let this layer, whenever the walk reaches it,
    cover the canvas then in effect and have a visible part of positive
    width and height.  Then the layers beneath it are never decoded, and
    replacing them by as many other layers changes nothing of what the
    callback receives: neither the output bytes, nor the warnings, nor the
    error. *)
Theorem opaque_cover_hides_lower_layers (baton : BlendBaton.t)
  (below below' above : list Image.t) (image : Image.t) (layer : ImageReader) :
  create (Image.data image) = Some layer ->
  rd_alpha layer = false ->
  List.length below = List.length below' ->
  Forall fresh below -> Forall fresh below' ->
  (forall (st : WalkState) (rabove : list Image.t),
      walk create (rev above) (Z.of_nat (List.length below + List.length above))
        (initial_walk_state baton) = Fell st rabove ->
      ws_alpha st = true ->
      covers_canvas (ws_baton st) image layer /\ visible image layer) ->
  let job := fun images : list Image.t => run (BlendBaton.set_images baton images) in
  completion (job (below ++ image :: above)) = completion (job (below' ++ image :: above)) /\
  (forall i : Z, In i (decoded_layers (job (below ++ image :: above))) ->
                 Z.of_nat (List.length below) <= i) /\
  (forall i : Z, In i (decoded_layers (job (below' ++ image :: above))) ->
                 Z.of_nat (List.length below') <= i).
Proof.
  intros Hcreate Halpha Hlen Hfresh Hfresh' Hcover job.
  set (index := Z.of_nat (List.length below + List.length above)) in *.
  assert (Hjob : forall lower : list Image.t,
             List.length lower = List.length below ->
             job (lower ++ image :: above) =
             match walk create (rev above ++ [image]) index (initial_walk_state baton) with
             | Fell st rimages =>
                 blend_images save_as_jpeg save_as_png8_pal save_as_png8_hex
                   save_as_png8_oct save_as_png malloc_succeeds fmod st
                   (rimages ++ rev lower)
             | Returned st rimages =>
                 Finished (BlendBaton.set_images (ws_baton st) (rev (rimages ++ rev lower)))
                   (ws_decoded st)
             | NullReader => NoBehaviour
             end).
  { intros lower Hl. unfold job, run, Work_Blend.
    cbn [BlendBaton.images BlendBaton.set_images].
    change (initial_walk_state (BlendBaton.set_images baton (lower ++ image :: above)))
      with (initial_walk_state baton).
    replace (Z.of_nat (List.length (lower ++ image :: above)) - 1) with index
      by (subst index; rewrite length_app; cbn [List.length]; lia).
    rewrite (walk_past_cover baton above image layer index Hcreate Halpha Hcover lower).
    destruct (walk create (rev above ++ [image]) index (initial_walk_state baton));
      reflexivity. }
  pose proof (walk_decoded create (rev above ++ [image]) index (initial_walk_state baton))
    as Hdec.
  rewrite (Hjob below eq_refl), (Hjob below' (eq_sym Hlen)).
  assert (Hrange : forall i : Z,
             In i (ws_decoded (initial_walk_state baton)) \/
             index - Z.of_nat (List.length (rev above ++ [image])) < i <= index ->
             Z.of_nat (List.length below) <= i).
  { intros i [[] | Hi]. rewrite length_app, length_rev in Hi. cbn [List.length] in Hi.
    subst index. lia. }
  destruct (walk create (rev above ++ [image]) index (initial_walk_state baton))
    as [st rimages | st rimages |].
  - destruct (blend_images_lower st rimages below Hfresh) as [Hc Hd].
    destruct (blend_images_lower st rimages below' Hfresh') as [Hc' Hd'].
    rewrite Hc, Hc', Hd, Hd'. split; [reflexivity |].
    rewrite <- Hlen.
    split; intros i Hi; apply Hrange, Hdec, (blend_images_decoded _ _ _ Hi).
  - cbn [completion decoded_layers]. rewrite !Work_AfterBlend_images.
    split; [reflexivity |]. rewrite <- Hlen.
    split; intros i Hi; apply Hrange, Hdec, Hi.
  - cbn [completion decoded_layers]. split; [reflexivity |]. split; intros i [].
Qed.

End WorkerFacts.

(** ** Worked examples and the inputs where the claims fail *)

Lemma hexToUInt32Color_spec_witness :
  hexToUInt32Color (fun _ => 0) (Some "#FF8000"%string) = 0xFF0080FF /\
  hexToUInt32Color (fun _ => 0) (Some "11223344"%string) = 0x44332211.
Proof.
  pose proof (hexToUInt32Color_spec (fun _ => 0)) as (_ & _ & H6 & H8).
  split.
  - destruct (H6 "FF8000"%string 15 15 8 0 0 0 eq_refl) as (Hhash & _). cbv zeta in Hhash.
    rewrite Hhash. reflexivity.
  - reflexivity.
Defined.

(** C7, at the input where the code departs from the claim.  A canvas of
    65536 by 65537 and a layer of 1 by 2 pixels at (0, 1), which passes the
    viewport test and is decoded to a surface of 2 pixels: the canvas has
    positive dimensions, but their product does not fit the [int] of line
    528, and the run of the worker has no defined behaviour.  The 32-bit
    value of the product is 65536: on a canvas of that many words, the blit
    of the layer as the loop leaves it (no [int] of which overflows) goes
    to the words of index 65536 and 131072, the first of them one past the
    end, and so leaves the canvas. *)
Theorem canvas_size_overflow :
  in_viewport (BlendBaton.width oversized_job) (BlendBaton.height oversized_job)
    column_1x2 (sample_reader column_1x2) /\
  0 < BlendBaton.width oversized_job <= Int.max /\
  0 < BlendBaton.height oversized_job <= Int.max /\
  (exists st : WalkState,
      sample_walk (rev (BlendBaton.images oversized_job)) 0
        (initial_walk_state oversized_job)
      = Fell st [decoded_column] /\
      BlendBaton.width (ws_baton st) = BlendBaton.width oversized_job /\
      BlendBaton.height (ws_baton st) = BlendBaton.height oversized_job) /\
  Z.of_nat (List.length (rd_surface (sample_reader column_1x2)))
  = Image.width decoded_column * Image.height decoded_column /\
  Int.fits (BlendBaton.width oversized_job * BlendBaton.height oversized_job) = false /\
  sample_Work_Blend oversized_job = NoBehaviour /\
  int_wrap (BlendBaton.width oversized_job * BlendBaton.height oversized_job) = 65536 /\
  blit_fits oversized_job decoded_column = true /\
  blit_accesses oversized_job decoded_column = [(65536, 0); (131072, 1)] /\
  Blend_Composite
    (repeat (Some 0)
       (Z.to_nat (int_wrap (BlendBaton.width oversized_job * BlendBaton.height oversized_job))))
    oversized_job decoded_column
  = None.
Proof.
  split; [unfold in_viewport; vm_compute; repeat split; discriminate |].
  split; [vm_compute; split; [reflexivity | discriminate] |].
  split; [vm_compute; split; [reflexivity | discriminate] |].
  split; [eexists; split; [vm_compute; reflexivity | split; reflexivity] |].
  split; [vm_compute; reflexivity |].
  split; [vm_compute; reflexivity |].
  split; [vm_compute; reflexivity |].
  split; [vm_compute; reflexivity |].
  split; [vm_compute; reflexivity |].
  split; vm_compute; reflexivity.
Qed.



Lemma opaque_cover_hides_lower_layers_witness :
  completion (sample_Work_Blend
                (sample_job [opaque_2x2; other_2x2; translucent_1x1] true 0))
  = completion (sample_Work_Blend
                  (sample_job [garbage; other_2x2; translucent_1x1] true 0)) /\
  decoded_layers (sample_Work_Blend
                    (sample_job [opaque_2x2; other_2x2; translucent_1x1] true 0))
  = [1; 2].
Proof.
  split; [| reflexivity].
  refine (proj1 (opaque_cover_hides_lower_layers sample_jpeg sample_png8_pal
                   sample_png8_hex sample_png8_oct sample_png sample_create
                   (fun _ => true) sample_fmod
                   (sample_job [] true 0) [opaque_2x2] [garbage] [translucent_1x1]
                   other_2x2 (sample_reader other_2x2)
                   eq_refl eq_refl eq_refl _ _ _)).
  - repeat constructor.
  - repeat constructor.
  - intros st rabove Hwalk _. vm_compute in Hwalk.
    injection Hwalk as <- _.
    unfold covers_canvas, visible. vm_compute. repeat split; discriminate.
Defined.

(** C4, as the claim words it, fails for an opaque layer that lies wholly
    to the left of a canvas the caller left unset.  Its right edge is at 0,
    the width of the canvas when the layer is examined and at the end of
    the job, so that it covers the canvas in the claim's terms; but the
    viewport test drops it, and the layer beneath is examined: a row that is
    no wider leaves the job without a canvas, a wider row is decoded and
    becomes the output. *)
Lemma cover_left_of_canvas_counterexample :
  sample_create (Image.data row_4_left) = Some (sample_reader row_4_left) /\
  rd_alpha (sample_reader row_4_left) = false /\
  sample_walk (rev []) 1 (initial_walk_state (sample_job [] true 0))
  = Fell (initial_walk_state (sample_job [] true 0)) [] /\
  covers_canvas (ws_baton (initial_walk_state (sample_job [] true 0))) row_4_left
    (sample_reader row_4_left) /\
  completion (sample_Work_Blend (sample_job [row_4_left'; row_4_left] true 0))
  = Some {| callee := FunctionV 0;
            argv := [ErrorV "Image dimensions 0x1 are invalid"] |} /\
  completion (sample_Work_Blend (sample_job [row_8_left; row_4_left] true 0))
  = Some {| callee := FunctionV 0;
            argv := [Null; BufferV [x07; x07; x07; x07]; ArrayV []] |} /\
  decoded_layers (sample_Work_Blend (sample_job [row_8_left; row_4_left] true 0)) = [0] /\
  completion (sample_Work_Blend (sample_job [row_4_left'; row_4_left] true 0))
  <> completion (sample_Work_Blend (sample_job [row_8_left; row_4_left] true 0)).
Proof.
  split; [reflexivity |]. split; [reflexivity |]. split; [reflexivity |].
  split; [unfold covers_canvas; vm_compute; repeat split; discriminate |].
  split; [reflexivity |]. split; [reflexivity |]. split; [reflexivity |].
  vm_compute. discriminate.
Qed.

(** ** The grey case of [hsl2rgb] *)


(** ** Rounding to binary64 *)

Lemma digits2_log2 (m : positive) : Zpos (digits2_pos m) = Z.log2 (Zpos m) + 1.
Proof.
  assert (H : forall p, digits2_pos p = Pos.size p).
  { induction p as [p IH | p IH |]; cbn; [rewrite IH | rewrite IH |]; reflexivity. }
  destruct m as [p | p |]; cbn [digits2_pos Z.log2]; rewrite ?H; lia.
Qed.

Lemma Zdigits2_log2 (x : Z) : 0 < x -> Zdigits2 x = Z.log2 x + 1.
Proof. destruct x as [| p | p]; try lia. intros _. apply digits2_log2. Qed.

Lemma Zdigits2_nonneg (x : Z) : 0 <= Zdigits2 x.
Proof. destruct x; cbn; lia. Qed.

Lemma Zdigits2_shiftr (x n : Z) :
  0 <= x -> 0 <= n -> Zdigits2 (Z.shiftr x n) = Z.max 0 (Zdigits2 x - n).
Proof.
  intros Hx Hn. destruct (Z.eq_dec x 0) as [-> | Hnz].
  { rewrite Z.shiftr_0_l. cbn. lia. }
  assert (Hpos : 0 < x) by lia.
  rewrite (Zdigits2_log2 x Hpos).
  destruct (Z.eq_dec (Z.shiftr x n) 0) as [E | E].
  - rewrite E. apply Z.shiftr_eq_0_iff in E. cbn. lia.
  - assert (Hs : 0 < Z.shiftr x n).
    { pose proof (proj2 (Z.shiftr_nonneg x n) Hx). lia. }
    rewrite (Zdigits2_log2 _ Hs), Z.log2_shiftr by lia.
    assert (Hl : ~ Z.log2 x < n).
    { intros Hlt. apply E. apply Z.shiftr_eq_0; lia. }
    lia.
Qed.

Lemma Zdigits2_succ (x : Z) : 0 <= x -> Zdigits2 (x + 1) <= Zdigits2 x + 1.
Proof.
  intros Hx. destruct (Z.eq_dec x 0) as [-> | Hnz]; [cbn; lia |].
  rewrite !Zdigits2_log2 by lia.
  pose proof (Z.log2_succ_le x). unfold Z.succ in *. lia.
Qed.

Lemma Zdigits2_le_pow2 (x k : Z) : 0 <= x -> 0 <= k -> x < 2 ^ k -> Zdigits2 x <= k.
Proof.
  intros Hx Hk Hlt. destruct (Z.eq_dec x 0) as [-> | Hnz]; [cbn; lia |].
  rewrite Zdigits2_log2 by lia.
  apply Z.log2_lt_pow2 in Hlt; lia.
Qed.

Lemma Zdigits2_upper (x : Z) : 0 <= x -> x < 2 ^ Zdigits2 x.
Proof.
  intros Hx. destruct (Z.eq_dec x 0) as [-> | Hnz]; [cbn; lia |].
  rewrite Zdigits2_log2 by lia.
  pose proof (Z.log2_spec x ltac:(lia)). unfold Z.succ in *. lia.
Qed.

Lemma shr_1_m (mrs : shr_record) :
  0 <= shr_m mrs -> shr_m (shr_1 mrs) = Z.shiftr (shr_m mrs) 1.
Proof.
  destruct mrs as [[| [p | p |] | p] r s]; cbn; intros H; try reflexivity; lia.
Qed.

Lemma iter_shr_1_m (p : positive) (mrs : shr_record) :
  0 <= shr_m mrs ->
  shr_m (iter_pos shr_1 p mrs) = Z.shiftr (shr_m mrs) (Zpos p).
Proof.
  revert mrs. induction p as [p IH | p IH |]; intros mrs Hm; cbn [iter_pos].
  - assert (H1 : 0 <= shr_m (shr_1 mrs))
      by (rewrite shr_1_m by exact Hm; apply Z.shiftr_nonneg; exact Hm).
    assert (H2 : 0 <= shr_m (iter_pos shr_1 p (shr_1 mrs)))
      by (rewrite IH by exact H1; apply Z.shiftr_nonneg; exact H1).
    rewrite IH by exact H2. rewrite IH by exact H1. rewrite shr_1_m by exact Hm.
    rewrite !Z.shiftr_shiftr by lia. f_equal. lia.
  - assert (H1 : 0 <= shr_m (iter_pos shr_1 p mrs))
      by (rewrite IH by exact Hm; apply Z.shiftr_nonneg; exact Hm).
    rewrite IH by exact H1. rewrite IH by exact Hm.
    rewrite Z.shiftr_shiftr by lia. f_equal. lia.
  - apply shr_1_m. exact Hm.
Qed.

Lemma shr_m_of_loc (M : Z) (loc : location) : shr_m (shr_record_of_loc M loc) = M.
Proof. destruct loc as [| []]; reflexivity. Qed.

(** One alignment step of the rounding: the mantissa stays non-negative,
    and neither the magnitude nor the exponent grows beyond what the
    format forces. *)
Lemma shr_fexp_bound (M E : Z) (loc : location) :
  0 <= M ->
  0 <= shr_m (fst (shr_fexp 53 1024 M E loc)) /\
  Zdigits2 (shr_m (fst (shr_fexp 53 1024 M E loc))) + snd (shr_fexp 53 1024 M E loc)
  <= Z.max (Zdigits2 M + E) (-1074) /\
  snd (shr_fexp 53 1024 M E loc) <= Z.max E (Z.max (Zdigits2 M + E - 53) (-1074)).
Proof.
  intros HM. unfold shr_fexp, shr, fexp, emin.
  pose proof (Zdigits2_nonneg M) as Hd.
  destruct (Z.max (Zdigits2 M + E - 53) (3 - 1024 - 53) - E) as [| p | p] eqn:En;
    cbn [fst snd]; rewrite ?shr_m_of_loc.
  - lia.
  - rewrite iter_shr_1_m by (rewrite shr_m_of_loc; exact HM).
    rewrite shr_m_of_loc, Zdigits2_shiftr by lia.
    split; [apply Z.shiftr_nonneg; exact HM | lia].
  - lia.
Qed.

Lemma round_nearest_even_bound (M : Z) (loc : location) :
  0 <= M -> M <= round_nearest_even M loc <= M + 1.
Proof.
  intros HM. destruct loc as [| []]; cbn; try lia.
  destruct (Z.even M); lia.
Qed.

Lemma Zdigits2_mono (x y : Z) : 0 <= x <= y -> Zdigits2 x <= Zdigits2 y.
Proof.
  intros [Hx Hxy]. destruct (Z.eq_dec x 0) as [-> | Hnz].
  { cbn. apply Zdigits2_nonneg. }
  rewrite !Zdigits2_log2 by lia. pose proof (Z.log2_le_mono x y Hxy). lia.
Qed.

(** The result of rounding a positive value of magnitude at most [B]: a
    zero, or a finite number of the same sign and of magnitude at most
    [B + 1]; never an infinity nor a NaN. *)
Lemma binary_round_aux_bound (s : bool) (M : positive) (E : Z) (loc : location) (B : Z) :
  Zpos (digits2_pos M) + E <= B -> -1074 <= B -> B <= 1023 -> E <= 971 ->
  match binary_round_aux 53 1024 s (Zpos M) E loc with
  | S754_zero s' => s' = s
  | S754_finite s' m' e' => s' = s /\ Zpos (digits2_pos m') + e' <= B + 1
  | S754_infinity _ | S754_nan => False
  end.
Proof.
  intros HB Hlo Hhi HE. unfold binary_round_aux.
  pose proof (shr_fexp_bound (Zpos M) E loc ltac:(lia)) as (H1 & H2 & H3).
  destruct (shr_fexp 53 1024 (Zpos M) E loc) as [mrs' e'] eqn:E1. cbn [fst snd] in *.
  change (Zdigits2 (Zpos M)) with (Zpos (digits2_pos M)) in *.
  pose proof (round_nearest_even_bound (shr_m mrs') (loc_of_shr_record mrs') H1) as Hr.
  set (M2 := round_nearest_even (shr_m mrs') (loc_of_shr_record mrs')) in *.
  assert (HM2 : Zdigits2 M2 <= Zdigits2 (shr_m mrs') + 1).
  { etransitivity; [apply (Zdigits2_mono M2 (shr_m mrs' + 1)); lia |].
    apply Zdigits2_succ. exact H1. }
  pose proof (shr_fexp_bound M2 e' loc_Exact ltac:(lia)) as (H4 & H5 & H6).
  destruct (shr_fexp 53 1024 M2 e' loc_Exact) as [mrs'' e''] eqn:E2. cbn [fst snd] in *.
  destruct (shr_m mrs'') as [| m | m] eqn:Em.
  - reflexivity.
  - change (Zdigits2 (Zpos m)) with (Zpos (digits2_pos m)) in *.
    destruct (Z.leb_spec e'' (1024 - 53)) as [_ | Hgt]; [| lia].
    split; [reflexivity | lia].
  - lia.
Qed.

(** *** Exact roundings *)

Lemma iter_xO_pow (m k : positive) : Zpos (Pos.iter xO m k) = Zpos m * 2 ^ Zpos k.
Proof.
  induction k as [| k IH] using Pos.peano_ind.
  - cbn. lia.
  - rewrite Pos.iter_succ, Pos2Z.inj_xO, IH, Pos2Z.inj_succ, Z.pow_succ_r by lia. lia.
Qed.

Lemma digits2_iter_xO (m k : positive) :
  Zpos (digits2_pos (Pos.iter xO m k)) = Zpos (digits2_pos m) + Zpos k.
Proof.
  rewrite !digits2_log2, iter_xO_pow, Z.log2_mul_pow2 by lia. lia.
Qed.

Lemma iter_shr_1_exact (k m : positive) :
  iter_pos shr_1 k (Build_shr_record (Zpos (Pos.iter xO m k)) false false)
  = Build_shr_record (Zpos m) false false.
Proof.
  revert m. induction k as [k IH | k IH |]; intros m; cbn [iter_pos Pos.iter shr_1].
  - cbn [orb]. rewrite IH, IH. reflexivity.
  - rewrite IH, IH. reflexivity.
  - reflexivity.
Qed.

Lemma bounded_inv (m : positive) (e : Z) :
  bounded 53 1024 m e = true ->
  Z.max (Zpos (digits2_pos m) + e - 53) (-1074) = e /\ e <= 971.
Proof.
  unfold bounded, canonical_mantissa, fexp, emin. intros H.
  apply andb_true_iff in H. destruct H as [Hc He].
  apply Z.eqb_eq in Hc. apply Z.leb_le in He. lia.
Qed.

(** A canonical mantissa, rounded, is itself. *)
Lemma round_canonical (s : bool) (m : positive) (e : Z) :
  bounded 53 1024 m e = true ->
  binary_round_aux 53 1024 s (Zpos m) e loc_Exact = S754_finite s m e.
Proof.
  intros Hb. destruct (bounded_inv m e Hb) as [Hc He].
  unfold binary_round_aux, shr_fexp, fexp, emin. cbn [Zdigits2].
  change (3 - 1024 - 53) with (-1074). rewrite Hc, Z.sub_diag.
  cbn [shr shr_record_of_loc shr_m loc_of_shr_record round_nearest_even Zdigits2].
  rewrite Hc, Z.sub_diag. cbn [shr shr_record_of_loc shr_m].
  destruct (Z.leb_spec e (1024 - 53)); [reflexivity | lia].
Qed.

(** A canonical mantissa followed by [k] zero bits, rounded, is the
    mantissa. *)
Lemma round_shifted (s : bool) (m k : positive) (e : Z) :
  bounded 53 1024 m e = true ->
  binary_round_aux 53 1024 s (Zpos (Pos.iter xO m k)) (e - Zpos k) loc_Exact
  = S754_finite s m e.
Proof.
  intros Hb. destruct (bounded_inv m e Hb) as [Hc He].
  unfold binary_round_aux at 1. unfold shr_fexp at 1. unfold fexp, emin. cbn [Zdigits2].
  change (3 - 1024 - 53) with (-1074). rewrite digits2_iter_xO.
  replace (Zpos (digits2_pos m) + Zpos k + (e - Zpos k) - 53)
    with (Zpos (digits2_pos m) + e - 53) by lia.
  rewrite Hc. replace (e - (e - Zpos k)) with (Zpos k) by lia.
  cbn [shr shr_record_of_loc]. rewrite iter_shr_1_exact.
  cbn [shr_m loc_of_shr_record round_nearest_even].
  replace (e - Zpos k + Zpos k) with e by lia.
  unfold shr_fexp, fexp, emin. cbn [Zdigits2].
  change (3 - 1024 - 53) with (-1074). rewrite Hc, Z.sub_diag.
  cbn [shr shr_record_of_loc shr_m].
  destruct (Z.leb_spec e (1024 - 53)); [reflexivity | lia].
Qed.

Lemma shl_align_same (m : positive) (e : Z) : shl_align m e e = (m, e).
Proof. unfold shl_align. rewrite Z.sub_diag. reflexivity. Qed.

(** Aligning a mantissa keeps its magnitude and does not raise its
    exponent. *)
Lemma shl_align_bound (m : positive) (e e' : Z) :
  Zpos (digits2_pos (fst (shl_align m e e'))) + snd (shl_align m e e')
  = Zpos (digits2_pos m) + e /\
  snd (shl_align m e e') <= e /\
  (e' <= e -> snd (shl_align m e e') = e').
Proof.
  unfold shl_align. destruct (e' - e) as [| d | d] eqn:Ed; cbn [fst snd].
  - lia.
  - lia.
  - rewrite digits2_iter_xO. lia.
Qed.

(** [x - x] is [+0]. *)
Lemma sub_self (s : bool) (m : positive) (e : Z) :
  Double.sub (S754_finite s m e) (S754_finite s m e) = S754_zero false.
Proof.
  unfold Double.sub, SFsub, Double.prec, Double.emax. rewrite Z.min_id, shl_align_same. cbn [fst].
  rewrite Z.sub_diag. reflexivity.
Qed.

Lemma binary_round_bound (s : bool) (m : positive) (e B : Z) :
  Zpos (digits2_pos m) + e <= B -> -1074 <= B -> B <= 1023 -> e <= 971 ->
  match binary_round 53 1024 s m e with
  | S754_zero _ | S754_finite _ _ _ => True
  | S754_infinity _ | S754_nan => False
  end.
Proof.
  intros HB Hlo Hhi He. unfold binary_round.
  pose proof (shl_align_bound m e (fexp 53 1024 (Zpos (digits2_pos m) + e)))
    as (Hd & Hs & _).
  destruct (shl_align m e (fexp 53 1024 (Zpos (digits2_pos m) + e))) as [mz ez].
  cbn [fst snd] in *.
  pose proof (binary_round_aux_bound s mz ez loc_Exact B ltac:(lia) Hlo Hhi ltac:(lia)) as H.
  destruct (binary_round_aux 53 1024 s (Zpos mz) ez loc_Exact); tauto.
Qed.

(** The difference of two finite numbers of small magnitude is a zero or
    a finite number. *)
Lemma sub_small (sx sy : bool) (mx my : positive) (ex ey B : Z) :
  Zpos (digits2_pos mx) + ex <= B -> Zpos (digits2_pos my) + ey <= B ->
  -1075 <= B -> B <= 1022 -> ex <= 971 -> ey <= 971 ->
  match Double.sub (S754_finite sx mx ex) (S754_finite sy my ey) with
  | S754_zero _ | S754_finite _ _ _ => True
  | S754_infinity _ | S754_nan => False
  end.
Proof.
  intros Hx Hy Hlo Hhi Hex Hey. unfold Double.sub, SFsub, Double.prec, Double.emax.
  set (ez := Z.min ex ey).
  pose proof (shl_align_bound mx ex ez) as (Hdx & _ & Hsx).
  pose proof (shl_align_bound my ey ez) as (Hdy & _ & Hsy).
  specialize (Hsx ltac:(lia)). specialize (Hsy ltac:(lia)).
  rewrite Hsx in Hdx. rewrite Hsy in Hdy.
  set (a := fst (shl_align mx ex ez)) in *.
  set (b := fst (shl_align my ey ez)) in *.
  pose proof (Zdigits2_upper (Zpos a) ltac:(lia)) as Ha.
  pose proof (Zdigits2_upper (Zpos b) ltac:(lia)) as Hb.
  cbn [Zdigits2] in Ha, Hb.
  assert (Hpa : Zpos a < 2 ^ (B - ez)).
  { eapply Z.lt_le_trans; [exact Ha |]. apply Z.pow_le_mono_r; lia. }
  assert (Hpb : Zpos b < 2 ^ (B - ez)).
  { eapply Z.lt_le_trans; [exact Hb |]. apply Z.pow_le_mono_r; lia. }
  assert (Hk : 0 <= B - ez) by lia.
  assert (Hsum : forall M : Z, Z.abs M < 2 ^ (B - ez + 1) ->
                 match binary_normalize 53 1024 M ez false with
                 | S754_zero _ | S754_finite _ _ _ => True
                 | S754_infinity _ | S754_nan => False
                 end).
  { intros M HM. destruct M as [| p | p]; cbn [binary_normalize]; [exact I | |].
    - apply (binary_round_bound false p ez (B + 1)); try lia.
      pose proof (Zdigits2_le_pow2 (Zpos p) (B - ez + 1) ltac:(lia) ltac:(lia) HM) as Hd.
      cbn [Zdigits2] in Hd. lia.
    - apply (binary_round_bound true p ez (B + 1)); try lia.
      pose proof (Zdigits2_le_pow2 (Zpos p) (B - ez + 1) ltac:(lia) ltac:(lia) HM) as Hd.
      cbn [Zdigits2] in Hd. lia. }
  apply Hsum. rewrite Z.pow_add_r by lia.
  destruct sx, sy; cbn [cond_Zopp]; lia.
Qed.

Lemma of_int_1 : Double.of_int 1 = S754_finite false 4503599627370496 (-52).
Proof. reflexivity. Qed.
Lemma of_int_2 : Double.of_int 2 = S754_finite false 4503599627370496 (-51).
Proof. reflexivity. Qed.
Lemma of_int_3 : Double.of_int 3 = S754_finite false 6755399441055744 (-51).
Proof. reflexivity. Qed.
Lemma of_int_6 : Double.of_int 6 = S754_finite false 6755399441055744 (-50).
Proof. reflexivity. Qed.
Lemma of_int_255 : Double.of_int 255 = S754_finite false 8972014882652160 (-45).
Proof. reflexivity. Qed.

Lemma bounded_digits (m : positive) (e : Z) :
  bounded 53 1024 m e = true -> Zpos (digits2_pos m) <= 53.
Proof. intros H. destruct (bounded_inv m e H). lia. Qed.

(** A canonical number below 1 has an exponent of at most -53. *)
Lemma below_one_exponent (m : positive) (e : Z) :
  bounded 53 1024 m e = true ->
  SFltb (S754_finite false m e) (S754_finite false 4503599627370496 (-52)) = true ->
  e <= -53.
Proof.
  intros Hb. destruct (bounded_inv m e Hb) as [Hc _].
  unfold SFltb, SFcompare.
  destruct (Z.compare_spec e (-52)) as [-> | Hlt | Hgt]; [| lia | discriminate].
  rewrite Pos.compare_cont_spec. unfold Pos.switch_Eq.
  destruct (Pos.compare_spec m 4503599627370496%positive) as [_ | Hlt | _];
    try discriminate.
  intros _.
  pose proof (Zdigits2_le_pow2 (Zpos m) 52 (Pos2Z.is_nonneg m) ltac:(discriminate)
                (Pos2Z.pos_lt_pos _ _ Hlt)) as Hd.
  cbn [Zdigits2] in Hd. clear Hlt. lia.
Qed.

(** A number of at most 1 has an exponent of at most -52. *)
Lemma at_most_one_exponent (m : positive) (e : Z) :
  SFleb (S754_finite false m e) (S754_finite false 4503599627370496 (-52)) = true ->
  e <= -52.
Proof.
  unfold SFleb, SFcompare.
  destruct (Z.compare_spec e (-52)) as [-> | Hlt | Hgt]; [lia | lia | discriminate].
Qed.

Lemma mul_pow2 (m c k : positive) :
  Zpos c = 2 ^ Zpos k -> (m * c)%positive = Pos.iter xO m k.
Proof.
  intros Hc. apply Pos2Z.inj. rewrite iter_xO_pow, Pos2Z.inj_mul, Hc. reflexivity.
Qed.

(** [x * 1] is [x]. *)
Lemma mul_one (m : positive) (e : Z) :
  bounded 53 1024 m e = true ->
  Double.mul (S754_finite false m e) (Double.of_int 1) = S754_finite false m e.
Proof.
  intros Hb. rewrite of_int_1. unfold Double.mul, SFmul. cbn [xorb].
  rewrite (mul_pow2 m 4503599627370496 52 eq_refl).
  exact (round_shifted false m 52 e Hb).
Qed.

Lemma normalize_canonical (m : positive) (e : Z) :
  bounded 53 1024 m e = true ->
  binary_normalize 53 1024 (Zpos m) e false = S754_finite false m e.
Proof.
  intros Hb. destruct (bounded_inv m e Hb) as [Hc _].
  unfold binary_normalize, binary_round, fexp, emin.
  change (3 - 1024 - 53) with (-1074). rewrite Hc, shl_align_same.
  exact (round_canonical false m e Hb).
Qed.

(** [x * 2 - x] is [x], for [x] of at most 1. *)
Lemma double_minus_self (m : positive) (e : Z) :
  bounded 53 1024 m e = true -> e <= -52 ->
  Double.sub (Double.mul (S754_finite false m e) (Double.of_int 2)) (S754_finite false m e)
  = S754_finite false m e.
Proof.
  intros Hb He. destruct (bounded_inv m e Hb) as [Hc _].
  rewrite of_int_2. unfold Double.mul, SFmul, Double.prec, Double.emax. cbn [xorb].
  destruct (Z.eq_dec (Zpos (digits2_pos m)) 53) as [Hnormal | Hsub].
  - (* a normal number: the exponent goes up by one *)
    assert (Hb' : bounded 53 1024 m (e + 1) = true).
    { unfold bounded, canonical_mantissa, fexp, emin.
      apply andb_true_iff. split; [apply Z.eqb_eq | apply Z.leb_le]; lia. }
    rewrite (mul_pow2 m 4503599627370496 52 eq_refl).
    replace (e + -51) with (e + 1 - 52) by lia.
    rewrite (round_shifted false m 52 (e + 1) Hb').
    unfold Double.sub, SFsub, Double.prec, Double.emax.
    replace (Z.min (e + 1) e) with e by lia.
    rewrite shl_align_same. unfold shl_align.
    replace (e - (e + 1)) with (-1) by lia. cbn [fst Pos.iter cond_Zopp].
    replace (Zpos (xO m) - Zpos m) with (Zpos m) by lia.
    exact (normalize_canonical m e Hb).
  - (* a subnormal number: the mantissa doubles *)
    assert (Hb' : bounded 53 1024 (xO m) e = true).
    { unfold bounded, canonical_mantissa, fexp, emin. cbn [digits2_pos].
      apply andb_true_iff. split; [apply Z.eqb_eq | apply Z.leb_le]; lia. }
    replace (m * 4503599627370496)%positive with (Pos.iter xO (xO m) 51)
      by (symmetry; apply Pos2Z.inj;
          rewrite iter_xO_pow, Pos2Z.inj_mul, Pos2Z.inj_xO; lia).
    replace (e + -51) with (e - 51) by lia.
    rewrite (round_shifted false (xO m) 51 e Hb').
    unfold Double.sub, SFsub, Double.prec, Double.emax. rewrite Z.min_id, !shl_align_same. cbn [fst cond_Zopp].
    replace (Zpos (xO m) - Zpos m) with (Zpos m) by lia.
    exact (normalize_canonical m e Hb).
Qed.

Lemma zero_times (sz : bool) (t : Double.t) :
  finite_or_zero t ->
  exists s' : bool,
    Double.mul (Double.mul (S754_zero sz) t) (Double.of_int 6) = S754_zero s'.
Proof.
  rewrite of_int_6. destruct t as [st | st | | st mt et]; cbn; intros H;
    try contradiction; eexists; reflexivity.
Qed.

Section Grey.

Variable fmod : Double.t -> Double.t -> Double.t.
Hypothesis fmod_range : fmod_below_one fmod.

(** The four ways out of [hueToRGB]. *)
Lemma hueToRGB_cases (m1 m2 h : Double.t) :
  (exists t : Double.t,
      finite_or_zero t /\
      hueToRGB fmod m1 m2 h
      = Double.add m1 (Double.mul (Double.mul (Double.sub m2 m1) t) (Double.of_int 6))) \/
  hueToRGB fmod m1 m2 h = m2 \/ hueToRGB fmod m1 m2 h = m1.
Proof.
  unfold hueToRGB.
  destruct (fmod_range (Double.add h (Double.of_int 1))) as [Hnan | [Hvalid Hlt]].
  - rewrite Hnan. right. right. reflexivity.
  - set (h' := fmod (Double.add h (Double.of_int 1)) (Double.of_int 1)) in *.
    rewrite of_int_1 in Hlt. unfold Double.ltb, SFltb in Hlt.
    destruct (Double.ltb (Double.mul h' (Double.of_int 6)) (Double.of_int 1)).
    { left. exists h'. split; [| reflexivity].
      destruct h'; cbn [SFabs SFcompare] in Hlt; try discriminate; exact I. }
    destruct (Double.ltb (Double.mul h' (Double.of_int 2)) (Double.of_int 1)).
    { right. left. reflexivity. }
    destruct (Double.ltb (Double.mul h' (Double.of_int 3)) (Double.of_int 2)).
    2: { right. right. reflexivity. }
    left. exists (Double.sub Double.lit_0_66666 h'). split; [| reflexivity].
    destruct h' as [sh | sh | | sh mh eh]; cbn [SFabs SFcompare] in Hlt;
      try discriminate.
    + exact I.
    + unfold Double.lit_0_66666.
      cbn [Double.valid valid_binary] in Hvalid.
      pose proof (below_one_exponent mh eh Hvalid Hlt) as He.
      pose proof (bounded_digits mh eh Hvalid) as Hd.
      apply (sub_small false sh 6004739455165630 mh (-53) eh 0); cbn [digits2_pos]; lia.
Qed.

End Grey.

Lemma to_unsigned_small (m : positive) (e : Z) :
  Zpos (digits2_pos m) + e <= 32 ->
  Double.to_unsigned (S754_finite false m e) = Some (Z.shiftl (Zpos m) e).
Proof.
  intros H. unfold Double.to_unsigned.
  assert (Hlt : Z.shiftl (Zpos m) e < U32.modulus).
  { unfold U32.modulus.
    assert (Hn : 0 <= Z.shiftl (Zpos m) e) by (apply Z.shiftl_nonneg; lia).
    eapply Z.lt_le_trans; [apply Zdigits2_upper; exact Hn |].
    apply Z.pow_le_mono_r; [lia |].
    destruct (Z.le_gt_cases 0 e) as [He | He].
    - rewrite Z.shiftl_mul_pow2 by lia.
      assert (Hm : Zpos m * 2 ^ e < 2 ^ (Zpos (digits2_pos m) + e)).
      { rewrite Z.pow_add_r by lia.
        apply Z.mul_lt_mono_pos_r; [apply Z.pow_pos_nonneg; lia |].
        apply (Zdigits2_upper (Zpos m)). lia. }
      pose proof (Zdigits2_le_pow2 (Zpos m * 2 ^ e) (Zpos (digits2_pos m) + e)
                    ltac:(rewrite <- Z.shiftl_mul_pow2 by lia; exact Hn) ltac:(lia) Hm).
      lia.
    - replace e with (- (- e)) by lia. rewrite Z.shiftl_opp_r.
      rewrite Zdigits2_shiftr by lia. cbn [Zdigits2]. lia. }
  apply Z.ltb_lt in Hlt. rewrite Hlt. reflexivity.
Qed.

(** [x * 255] converts to [unsigned], for [x] between 0 and 1. *)
Lemma mul_255_defined (m : positive) (e : Z) :
  bounded 53 1024 m e = true -> e <= -52 ->
  exists v : Z,
    Double.to_unsigned (Double.mul (S754_finite false m e) (Double.of_int 255)) = Some v.
Proof.
  intros Hb He. pose proof (bounded_digits m e Hb) as Hd.
  rewrite of_int_255. unfold Double.mul, SFmul, Double.prec, Double.emax. cbn [xorb].
  assert (Hprod : Zpos (digits2_pos (m * 8972014882652160)) <= Zpos (digits2_pos m) + 53).
  { apply (Zdigits2_le_pow2 (Zpos (m * 8972014882652160))); [lia | lia |].
    rewrite Pos2Z.inj_mul, Z.pow_add_r by lia.
    apply Z.mul_lt_mono_nonneg; [lia | | lia |].
    - apply (Zdigits2_upper (Zpos m)). lia.
    - reflexivity. }
  pose proof (binary_round_aux_bound false (m * 8972014882652160) (e + -45) loc_Exact 9
                ltac:(lia) ltac:(lia) ltac:(lia) ltac:(lia)) as Hr.
  destruct (binary_round_aux 53 1024 false (Zpos (m * 8972014882652160)) (e + -45) loc_Exact)
    as [s' | s' | | s' m' e']; try contradiction.
  - exists 0. reflexivity.
  - destruct Hr as [-> Hmag]. eexists. apply to_unsigned_small. lia.
Qed.

Section GreyCase.

Variable fmod : Double.t -> Double.t -> Double.t.
Hypothesis fmod_range : fmod_below_one fmod.

(** With [m1] and [m2] both zero, [hueToRGB] yields a zero. *)
Lemma hueToRGB_zero (a b : bool) (h : Double.t) :
  exists c : bool, hueToRGB fmod (S754_zero a) (S754_zero b) h = S754_zero c.
Proof.
  destruct (hueToRGB_cases fmod fmod_range (S754_zero a) (S754_zero b) h)
    as [(t & Ht & ->) | [-> | ->]]; [| eexists; reflexivity | eexists; reflexivity].
  assert (Hz : exists z, Double.sub (S754_zero b) (S754_zero a) = S754_zero z)
    by (destruct a, b; eexists; reflexivity).
  destruct Hz as [z ->]. destruct (zero_times z t Ht) as [s' ->].
  destruct a, s'; eexists; reflexivity.
Qed.

(** With [m1] and [m2] equal, [hueToRGB] yields their value. *)
Lemma hueToRGB_flat (m : positive) (e : Z) (h : Double.t) :
  hueToRGB fmod (S754_finite false m e) (S754_finite false m e) h = S754_finite false m e.
Proof.
  destruct (hueToRGB_cases fmod fmod_range (S754_finite false m e) (S754_finite false m e) h)
    as [(t & Ht & ->) | [-> | ->]]; [| reflexivity | reflexivity].
  rewrite sub_self. destruct (zero_times false t Ht) as [s' ->]. reflexivity.
Qed.

(** C10.  With a saturation of zero and a lightness [l] between 0 and 1,
    [hsl2rgb] returns the same value in the three channels, for every
    hue: [l * 255] converted to [unsigned], that is truncated toward
    zero.  The branch for a saturation of zero does not return, the
    general formula runs after it and yields the same three values. *)
Theorem hsl2rgb_grey (h s l : Double.t) (rgb : Z * Z * Z) :
  Double.eqb s Double.zero = true ->
  Double.valid l = true ->
  Double.leb Double.zero l = true -> Double.leb l (Double.of_int 1) = true ->
  exists v : Z,
    Double.to_unsigned (Double.mul l (Double.of_int 255)) = Some v /\
    hsl2rgb fmod h s l rgb = Some (v, v, v).
Proof.
  intros Hs Hvalid H0 H1.
  assert (Es : exists ss, s = S754_zero ss).
  { destruct s as [ss | ss | | ss ms es].
    - eexists; reflexivity.
    - destruct ss; discriminate Hs.
    - discriminate Hs.
    - destruct ss; discriminate Hs. }
  destruct Es as [ss ->].
  rewrite of_int_1 in H1.
  unfold hsl2rgb.
  change (negb (Double.to_bool (S754_zero ss))) with true. cbv iota.
  destruct l as [sl | sl | | sl m e].
  - (* l is a zero *)
    exists 0.
    assert (E255 : forall c, Double.to_unsigned (Double.mul (S754_zero c) (Double.of_int 255))
                             = Some 0)
      by (intros c; rewrite of_int_255; reflexivity).
    rewrite E255. split; [reflexivity |].
    change (Double.leb (S754_zero sl) Double.lit_0_5) with true. cbv iota.
    rewrite of_int_1, of_int_2.
    change (Double.add (S754_zero ss) (S754_finite false 4503599627370496 (-52)))
      with (S754_finite false 4503599627370496 (-52)).
    change (Double.mul (S754_zero sl) (S754_finite false 4503599627370496 (-52)))
      with (S754_zero (xorb sl false)).
    change (Double.mul (S754_zero sl) (S754_finite false 4503599627370496 (-51)))
      with (S754_zero (xorb sl false)).
    assert (Em1 : exists a, Double.sub (S754_zero (xorb sl false)) (S754_zero (xorb sl false))
                            = S754_zero a)
      by (destruct sl; eexists; reflexivity).
    destruct Em1 as [a ->].
    destruct (hueToRGB_zero a (xorb sl false) (Double.add h Double.lit_0_33333)) as [c1 ->].
    destruct (hueToRGB_zero a (xorb sl false) h) as [c2 ->].
    destruct (hueToRGB_zero a (xorb sl false) (Double.sub h Double.lit_0_33333)) as [c3 ->].
    rewrite !E255. reflexivity.
  - (* an infinity is not between 0 and 1 *)
    destruct sl; discriminate.
  - discriminate.
  - (* l is a finite number *)
    destruct sl; [discriminate |].
    cbn [Double.valid valid_binary] in Hvalid.
    pose proof (at_most_one_exponent m e H1) as He.
    destruct (mul_255_defined m e Hvalid He) as [v Hv].
    exists v. rewrite Hv. split; [reflexivity |].
    assert (Em2 : (if Double.leb (S754_finite false m e) Double.lit_0_5
                   then Double.mul (S754_finite false m e)
                          (Double.add (S754_zero ss) (Double.of_int 1))
                   else Double.sub (Double.add (S754_finite false m e) (S754_zero ss))
                          (Double.mul (S754_finite false m e) (S754_zero ss)))
                  = S754_finite false m e).
    { destruct (Double.leb (S754_finite false m e) Double.lit_0_5).
      - rewrite of_int_1.
        change (Double.add (S754_zero ss) (S754_finite false 4503599627370496 (-52)))
          with (Double.of_int 1).
        apply mul_one. exact Hvalid.
      - reflexivity. }
    rewrite Em2, (double_minus_self m e Hvalid He), !hueToRGB_flat, Hv. reflexivity.
Qed.

End GreyCase.

(** The examples' [fmod] is in the range of [fmod(x, 1)]. *)
Lemma sample_fmod_below_one : fmod_below_one sample_fmod.
Proof.
  intros x. unfold sample_fmod. cbv zeta.
  destruct (Double.valid (fractional_part x)
            && Double.ltb (SFabs (fractional_part x)) (Double.of_int 1)) eqn:Hr.
  - right. apply andb_true_iff in Hr. exact Hr.
  - left. reflexivity.
Qed.

(** The examples' [fmod] computes: the fractional part of 7.25 is 0.25. *)
Example sample_fmod_7_25 :
  sample_fmod (S754_finite false 8162774324609024 (-50)) (Double.of_int 1)
  = S754_finite false 4503599627370496 (-54).
Proof. vm_compute. reflexivity. Qed.

Lemma hsl2rgb_grey_witness :
  fmod_below_one sample_fmod /\
  Double.to_unsigned (Double.mul Double.lit_0_5 (Double.of_int 255)) = Some 127 /\
  hsl2rgb sample_fmod (S754_finite false 8162774324609024 (-50)) Double.zero
    Double.lit_0_5 (0, 0, 0)
  = Some (127, 127, 127).
Proof.
  split; [exact sample_fmod_below_one |].
  destruct (hsl2rgb_grey sample_fmod sample_fmod_below_one
              (S754_finite false 8162774324609024 (-50)) Double.zero
              Double.lit_0_5 (0, 0, 0) eq_refl eq_refl eq_refl eq_refl) as [v [Hv Hrgb]].
  assert (E : Double.to_unsigned (Double.mul Double.lit_0_5 (Double.of_int 255)) = Some 127)
    by (vm_compute; reflexivity).
  split; [exact E |].
  rewrite E in Hv. injection Hv as <-. exact Hrgb.
Defined.

(* ================================================================== *)
(** * Part III: further properties of the code *)
(* ================================================================== *)

(** Tactics for the job descriptor and for case analyses. *)
Ltac baton_fields :=
  cbn [BlendBaton.callback BlendBaton.images BlendBaton.quality BlendBaton.format
       BlendBaton.reencode BlendBaton.width BlendBaton.height BlendBaton.matte
       BlendBaton.palette BlendBaton.mode BlendBaton.encoder BlendBaton.compression
       BlendBaton.tint BlendBaton.message BlendBaton.warnings BlendBaton.stream
       BlendBaton.set_callback BlendBaton.set_images BlendBaton.set_quality
       BlendBaton.set_format BlendBaton.set_reencode BlendBaton.set_width
       BlendBaton.set_height BlendBaton.set_matte BlendBaton.set_palette
       BlendBaton.set_mode BlendBaton.set_encoder BlendBaton.set_compression
       BlendBaton.set_tint BlendBaton.set_message BlendBaton.set_warnings
       BlendBaton.set_stream BlendBaton.new] in *.

Ltac split_match :=
  match goal with
  | |- context [match ?x with _ => _ end] => destruct x eqn:?
  | |- context [if ?x then _ else _] => destruct x eqn:?
  end.

(** ** [Blend_CompositePixel]: words and opacity *)

(** The blend of two pixels that both have transparency, as a word
    assembled from four bytes. *)
Lemma over_word (S T : Z) :
  U32.in_range S -> U32.in_range T ->
  1 <= alpha_of S <= 254 -> 1 <= alpha_of T <= 255 ->
  exists b g r : Z,
    is_byte b /\ is_byte g /\ is_byte r /\
    is_byte (spec_alpha (alpha_of T) (alpha_of S) / 2 ^ 8) /\
    over T S = argb_word (spec_alpha (alpha_of T) (alpha_of S) / 2 ^ 8) b g r.
Proof.
  intros HS HT H1 H0.
  destruct (argb_word_of_channels S HS) as (_ & _ & HbS & HgS & HrS & _).
  destruct (argb_word_of_channels T HT) as (_ & _ & HbT & HgT & HrT & _).
  pose proof (spec_alpha_bounds _ _ H0 H1) as Ha.
  destruct (over_channel_exact _ _ _ _ HbS HbT H0 H1) as [Eb Bb].
  destruct (over_channel_exact _ _ _ _ HgS HgT H0 H1) as [Eg Bg].
  destruct (over_channel_exact _ _ _ _ HrS HrT H0 H1) as [Er Br].
  assert (Ea : over_alpha (alpha_of T) (alpha_of S) = spec_alpha (alpha_of T) (alpha_of S))
    by (apply over_alpha_exact; unfold is_byte; lia).
  assert (Hbyte : is_byte (spec_alpha (alpha_of T) (alpha_of S) / 2 ^ 8))
    by (unfold is_byte; Z.div_mod_to_equations; lia).
  eexists _, _, _. split; [exact Bb |]. split; [exact Bg |]. split; [exact Br |].
  split; [exact Hbyte |].
  unfold over.
  change (Z.land (U32.shr S 24) 255) with (alpha_of S).
  change (Z.land (U32.shr T 24) 255) with (alpha_of T).
  change (Z.land (U32.shr S 16) 255) with (blue_of S).
  change (Z.land (U32.shr T 16) 255) with (blue_of T).
  change (Z.land (U32.shr S 8) 255) with (green_of S).
  change (Z.land (U32.shr T 8) 255) with (green_of T).
  change (Z.land S 255) with (red_of S).
  change (Z.land T 255) with (red_of T).
  cbv zeta. rewrite Eb, Eg, Er, Ea.
  unfold U32.shr. rewrite Z.shiftr_div_pow2 by lia.
  apply pack_argb_exact; assumption.
Qed.

(** The four ways [Blend_CompositePixel] treats a target that holds a
    value: it keeps it, it replaces it (twice), or it blends. *)
Lemma composite_cases (S T : Z) :
  U32.in_range S -> U32.in_range T ->
  (alpha_of S = 0 /\ Blend_CompositePixel (Some T) S = Some T) \/
  (alpha_of S = 255 /\ Blend_CompositePixel (Some T) S = Some S) \/
  (alpha_of T = 0 /\ Blend_CompositePixel (Some T) S = Some S) \/
  (1 <= alpha_of S <= 254 /\ 1 <= alpha_of T <= 255 /\
   Blend_CompositePixel (Some T) S = Some (over T S)).
Proof.
  intros HS HT. unfold Blend_CompositePixel.
  pose proof (alpha_zero_iff S HS) as HzS. pose proof (alpha_full_iff S HS) as HfS.
  pose proof (alpha_zero_iff T HT) as HzT.
  destruct (argb_word_of_channels S HS) as (_ & HaS & _).
  destruct (argb_word_of_channels T HT) as (_ & HaT & _).
  unfold is_byte in HaS, HaT.
  destruct (Z.leb_spec S 0x00FFFFFF) as [Hlo | Hlo].
  { left. split; [apply HzS; exact Hlo | reflexivity]. }
  destruct (Z.leb_spec 0xFF000000 S) as [Hhi | Hhi].
  { right. left. split; [apply HfS; exact Hhi | reflexivity]. }
  destruct (Z.leb_spec T 0x00FFFFFF) as [Htlo | Htlo].
  { right. right. left. split; [apply HzT; exact Htlo | reflexivity]. }
  right. right. right.
  assert (alpha_of S <> 0) by (intros E; apply HzS in E; lia).
  assert (alpha_of S <> 255) by (intros E; apply HfS in E; lia).
  assert (alpha_of T <> 0) by (intros E; apply HzT in E; lia).
  repeat split; lia.
Qed.

(** Compositing two 32-bit words gives a 32-bit word: no arithmetic of
    the blend leaves a bit above the alpha byte. *)
Theorem composite_pixel_in_range (S T : Z) :
  U32.in_range S -> U32.in_range T ->
  exists R : Z, Blend_CompositePixel (Some T) S = Some R /\ U32.in_range R.
Proof.
  intros HS HT.
  destruct (composite_cases S T HS HT)
    as [[_ ->] | [[_ ->] | [[_ ->] | (H1 & H0 & ->)]]];
    [exists T | exists S | exists S |]; try (split; [reflexivity | assumption]).
  destruct (over_word S T HS HT H1 H0) as (b & g & r & Hb & Hg & Hr & Ha & ->).
  eexists. split; [reflexivity |]. apply argb_word_range; assumption.
Qed.

(** Compositing never makes a pixel more transparent: the alpha byte of
    the result is at least the alpha byte of the target and at least the
    alpha byte of the source.  In particular an opaque target stays
    opaque. *)
Theorem composite_alpha_monotone (S T R : Z) :
  U32.in_range S -> U32.in_range T ->
  Blend_CompositePixel (Some T) S = Some R ->
  alpha_of T <= alpha_of R /\ alpha_of S <= alpha_of R /\
  (alpha_of T = 255 -> alpha_of R = 255).
Proof.
  intros HS HT.
  destruct (argb_word_of_channels S HS) as (_ & HaS & _).
  destruct (argb_word_of_channels T HT) as (_ & HaT & _).
  unfold is_byte in HaS, HaT.
  destruct (composite_cases S T HS HT)
    as [[Ha ->] | [[Ha ->] | [[Ha ->] | (H1 & H0 & ->)]]]; intros [= <-]; try lia.
  destruct (over_word S T HS HT H1 H0) as (b & g & r & Hb & Hg & Hr & Ha & ->).
  destruct (channels_of_argb_word _ b g r Ha Hb Hg Hr) as (-> & _).
  unfold is_byte in Ha. unfold spec_alpha in *.
  assert (Hp : alpha_of T * alpha_of S <= 255 * alpha_of S) by nia.
  assert (Hq : alpha_of T * alpha_of S <= alpha_of T * 254) by nia.
  split; [Z.div_mod_to_equations; lia |]. split; [Z.div_mod_to_equations; lia |].
  intros E. rewrite E in *. Z.div_mod_to_equations. lia.
Qed.

Lemma composite_alpha_monotone_witness :
  alpha_of 0xFF102030 <= alpha_of 0xFF485058 /\ alpha_of 0x80808080 <= alpha_of 0xFF485058.
Proof.
  assert (HS : U32.in_range 0x80808080) by (unfold U32.in_range, U32.modulus; lia).
  assert (HT : U32.in_range 0xFF102030) by (unfold U32.in_range, U32.modulus; lia).
  destruct (composite_alpha_monotone 0x80808080 0xFF102030 0xFF485058 HS HT) as (H1 & H2 & _).
  - vm_compute. reflexivity.
  - split; assumption.
Defined.

Lemma composite_pixel_in_range_witness :
  exists R : Z, Blend_CompositePixel (Some 0x80FF0000) 0x400000FF = Some R /\ U32.in_range R.
Proof. apply composite_pixel_in_range; unfold U32.in_range, U32.modulus; lia. Defined.

(** ** [Blend_Composite]: what the blit writes *)

Lemma get_Some_bounds {A : Type} (l : list A) (i : Z) (v : A) :
  get l i = Some v -> 0 <= i < Z.of_nat (List.length l).
Proof.
  unfold get. destruct (Z.ltb_spec i 0) as [Hneg | Hpos]; [discriminate |].
  intros H. assert (Hn : nth_error l (Z.to_nat i) <> None) by congruence.
  apply nth_error_Some in Hn. lia.
Qed.

Lemma nth_error_set_nth_same {A : Type} (l : list A) (n : nat) (v : A) :
  (n < List.length l)%nat -> nth_error (set_nth l n v) n = Some v.
Proof.
  revert n. induction l as [| hd tl IH]; intros [| n] Hn; cbn in *; try lia.
  - reflexivity.
  - apply IH. lia.
Qed.

Lemma nth_error_set_nth_other {A : Type} (l : list A) (n m : nat) (v : A) :
  n <> m -> nth_error (set_nth l n v) m = nth_error l m.
Proof.
  revert n m. induction l as [| hd tl IH]; intros [| n] [| m] Hnm; cbn; try reflexivity.
  - contradiction.
  - apply IH. lia.
Qed.

Lemma get_set_same {A : Type} (l : list A) (i : Z) (v : A) :
  0 <= i < Z.of_nat (List.length l) -> get (set l i v) i = Some v.
Proof.
  intros Hi. unfold get, set. destruct (Z.ltb_spec i 0) as [Hneg | _]; [lia |].
  apply nth_error_set_nth_same. lia.
Qed.

Lemma get_set_other {A : Type} (l : list A) (i j : Z) (v : A) :
  0 <= i -> i <> j -> get (set l i v) j = get l j.
Proof.
  intros Hi Hij. unfold get, set. destruct (Z.ltb_spec j 0) as [Hneg | Hpos]; [reflexivity |].
  apply nth_error_set_nth_other. lia.
Qed.

Lemma set_nth_same_value {A : Type} (l : list A) (n : nat) (v : A) :
  nth_error l n = Some v -> set_nth l n v = l.
Proof.
  revert n. induction l as [| hd tl IH]; intros [| n] H; cbn in *; try discriminate.
  - injection H as ->. reflexivity.
  - rewrite IH by exact H. reflexivity.
Qed.

Lemma fold_composite_None (source : list Z) (accesses : list (Z * Z)) :
  fold_left (composite_at source) accesses None = None.
Proof. induction accesses as [| a rest IH]; [reflexivity | exact IH]. Qed.

(** A sequence of calls of the loop body that writes no word twice: each
    word it names ends as the composite of what it held with the source
    word it is paired with, and every other word is left alone. *)
Lemma fold_composite_spec (source : list Z) (accesses : list (Z * Z))
  (target target' : list cell) :
  NoDup (map fst accesses) ->
  fold_left (composite_at source) accesses (Some target) = Some target' ->
  (forall ti si : Z,
      In (ti, si) accesses ->
      exists (t : cell) (s : Z),
        get target ti = Some t /\ get source si = Some s /\
        get target' ti = Some (Blend_CompositePixel t s)) /\
  (forall i : Z, ~ In i (map fst accesses) -> get target' i = get target i).
Proof.
  revert target. induction accesses as [| [ti si] rest IH]; intros target Hnd Hfold.
  - cbn in Hfold. injection Hfold as <-. split; [intros ti si [] | reflexivity].
  - cbn [map fst] in Hnd. apply NoDup_cons_iff in Hnd. destruct Hnd as [Hfresh Hnd].
    cbn [fold_left composite_at fst snd] in Hfold.
    destruct (get target ti) as [t |] eqn:Ht;
      [| rewrite fold_composite_None in Hfold; discriminate].
    destruct (get source si) as [s |] eqn:Hs;
      [| rewrite fold_composite_None in Hfold; discriminate].
    pose proof (get_Some_bounds _ _ _ Ht) as Hti.
    destruct (IH _ Hnd Hfold) as [Hin Hout].
    split.
    + intros ti' si' [[= <- <-] | Hrest].
      * exists t, s. split; [exact Ht |]. split; [exact Hs |].
        rewrite (Hout ti Hfresh). apply get_set_same. exact Hti.
      * destruct (Hin ti' si' Hrest) as (t' & s' & Ht' & Hs' & Hres).
        exists t', s'. split; [| split; assumption].
        rewrite <- Ht'. symmetry. apply get_set_other; [lia |].
        intros <-. apply Hfresh. apply in_map_iff. exists (ti, si'). split; [reflexivity | exact Hrest].
    + intros i Hi. cbn [map fst In] in Hi.
      rewrite (Hout i) by tauto. apply get_set_other; [lia |]. tauto.
Qed.

Lemma NoDup_map_injective {A B : Type} (f : A -> B) (l : list A) :
  (forall a b : A, f a = f b -> a = b) -> NoDup l -> NoDup (map f l).
Proof.
  intros Hinj. induction 1 as [| a l Hnotin Hnd IH]; cbn [map]; constructor.
  - intros Hin. apply in_map_iff in Hin. destruct Hin as (b & E & Hb).
    apply Hinj in E. subst b. contradiction.
  - exact IH.
Qed.

Lemma int_range_NoDup (from to : Z) : NoDup (int_range from to).
Proof.
  unfold int_range. apply NoDup_map_injective; [| apply seq_NoDup].
  intros a b H. lia.
Qed.

(** The rows of a blit that is no wider than the canvas share no target
    word. *)
Lemma blit_rows_targets_NoDup (rows : nat) (width imageWidth batonWidth : Z)
  (sourcePos targetPos : Z) :
  width <= batonWidth ->
  NoDup (map fst (blit_rows rows width imageWidth batonWidth sourcePos targetPos)).
Proof.
  intros Hw. revert sourcePos targetPos.
  induction rows as [| rows IH]; intros sourcePos targetPos; cbn [blit_rows map].
  - constructor.
  - rewrite map_app, map_map. cbn [fst]. apply NoDup_app.
    + apply NoDup_map_injective; [| apply int_range_NoDup].
      intros a b H. lia.
    + apply IH.
    + intros ti Hrow Hrest.
      apply in_map_iff in Hrow. destruct Hrow as (x & <- & Hx).
      apply in_int_range in Hx.
      apply in_map_iff in Hrest. destruct Hrest as ([ti' si'] & E & Hin).
      cbn [fst] in E. subst ti'. apply in_blit_rows in Hin.
      destruct Hin as (row & col & Hrow & Hcol & E & _). nia.
Qed.

(** The clipped rectangles of a layer that passed the viewport test. *)
Lemma blit_rect_bounds (baton : BlendBaton.t) (image : Image.t) :
  0 <= Image.width image -> 0 <= Image.height image ->
  0 < BlendBaton.width baton -> 0 < BlendBaton.height baton ->
  Image.width image + Image.x image > 0 -> Image.height image + Image.y image > 0 ->
  Image.x image < BlendBaton.width baton -> Image.y image < BlendBaton.height baton ->
  let r := blit_rect baton image in
  (0 <= blit_width r /\ 0 <= blit_height r) /\
  (0 <= sourceX r /\ sourceX r + blit_width r <= Image.width image /\
   0 <= sourceY r /\ sourceY r + blit_height r <= Image.height image) /\
  (0 <= targetX r /\ targetX r + blit_width r <= BlendBaton.width baton /\
   0 <= targetY r /\ targetY r + blit_height r <= BlendBaton.height baton).
Proof.
  intros. subst r. unfold blit_rect.
  cbn [blit_width blit_height sourceX sourceY targetX targetY]. lia.
Qed.

Lemma blit_accesses_spec (baton : BlendBaton.t) (image : Image.t) (ti si : Z) :
  0 <= blit_height (blit_rect baton image) ->
  In (ti, si) (blit_accesses baton image) <->
  exists row col : Z,
    0 <= row < blit_height (blit_rect baton image) /\
    0 <= col < blit_width (blit_rect baton image) /\
    ti = (targetY (blit_rect baton image) + row) * BlendBaton.width baton
         + targetX (blit_rect baton image) + col /\
    si = (sourceY (blit_rect baton image) + row) * Image.width image
         + sourceX (blit_rect baton image) + col.
Proof.
  intros Hh. unfold blit_accesses. cbv zeta. rewrite in_blit_rows.
  split; intros (row & col & Hrow & Hcol & -> & ->); exists row, col;
    (split; [lia |]); (split; [lia |]); split; ring.
Qed.

Lemma blit_ready_bounds (target : list cell) (baton : BlendBaton.t) (image : Image.t)
  (layer : ImageReader) (ti si : Z) :
  blit_ready target baton image layer ->
  In (ti, si) (blit_accesses baton image) ->
  0 <= ti < Z.of_nat (List.length target) /\
  0 <= si < Z.of_nat (List.length (rd_surface layer)).
Proof.
  intros (Hreader & Hiw & Hih & Hsurface & Hbw & Hbh & Htarget & Hvw & Hvh & Hx & Hy) Hin.
  destruct (blit_rect_bounds baton image Hiw Hih Hbw Hbh Hvw Hvh Hx Hy)
    as (Hdims & Hsrc & Htgt).
  apply blit_accesses_spec in Hin; [| lia].
  destruct Hin as (row & col & Hrow & Hcol & -> & ->).
  rewrite Htarget, Hsurface. split; nia.
Qed.

(** *** The [int]s of the blit *)

Lemma fits_iff (z : Z) : Int.fits z = true <-> Int.min <= z <= Int.max.
Proof. unfold Int.fits. rewrite andb_true_iff, !Z.leb_le. reflexivity. Qed.

Lemma in_blit_steps (rows : nat) (imageWidth batonWidth sourcePos targetPos v : Z) :
  In v (blit_steps rows imageWidth batonWidth sourcePos targetPos) ->
  exists k : Z,
    1 <= k <= Z.of_nat rows /\
    (v = sourcePos + k * imageWidth \/ v = targetPos + k * batonWidth).
Proof.
  revert sourcePos targetPos.
  induction rows as [| rows IH]; intros sourcePos targetPos; cbn [blit_steps]; [intros [] |].
  intros [<- | [<- | Hin]].
  - exists 1. split; [lia | left; ring].
  - exists 1. split; [lia | right; ring].
  - destruct (IH _ _ Hin) as (k & Hk & [-> | ->]); exists (k + 1);
      (split; [lia |]); [left | right]; ring.
Qed.

(** A layer that passed the viewport test, on a canvas of positive
    width and height: when the sizes fit an [int], so does every [int] the
    blit computes. *)
Lemma blit_fits_sized (target : list cell) (baton : BlendBaton.t) (image : Image.t)
  (layer : ImageReader) :
  blit_ready target baton image layer -> int_sized baton image ->
  blit_fits baton image = true.
Proof.
  intros (Hreader & Hiw & Hih & Hsurface & Hbw & Hbh & Htarget & Hvw & Hvh & Hx & Hy)
         (Swh & Sh & SWH & Sx & Sy).
  destruct (blit_rect_bounds baton image Hiw Hih Hbw Hbh Hvw Hvh Hx Hy)
    as ((Hbw0 & Hbh0) & (Hsx & Hsxw & Hsy & Hsyh) & (Htx & Htxw & Hty & Htyh)).
  assert (Hheight : 0 <= blit_height (blit_rect baton image)) by exact Hbh0.
  pose proof (fun ti si => blit_accesses_spec baton image ti si Hheight) as Hacc.
  unfold blit_fits. cbv zeta.
  set (r := blit_rect baton image) in *.
  set (w := Image.width image) in *. set (h := Image.height image) in *.
  set (W := BlendBaton.width baton) in *. set (H := BlendBaton.height baton) in *.
  assert (Hwh : 0 <= w * h) by (apply Z.mul_nonneg_nonneg; lia).
  assert (HWH : 0 <= W * H) by (apply Z.mul_nonneg_nonneg; lia).
  assert (HHle : H <= W * H) by nia.
  assert (Hmin : Int.min = - Int.max - 1) by reflexivity.
  assert (Hsrc_row : forall k : Z, 0 <= k <= h -> 0 <= k * w <= w * h).
  { intros k Hk. split; [apply Z.mul_nonneg_nonneg; lia |].
    rewrite (Z.mul_comm w h). apply Z.mul_le_mono_nonneg_r; lia. }
  assert (Htgt_row : forall k : Z, 0 <= k <= H -> 0 <= k * W <= W * H).
  { intros k Hk. split; [apply Z.mul_nonneg_nonneg; lia |].
    rewrite (Z.mul_comm W H). apply Z.mul_le_mono_nonneg_r; lia. }
  apply andb_true_iff. split; [apply andb_true_iff; split |].
  - (* the clipping *)
    pose proof (Hsrc_row (sourceY r) ltac:(lia)) as Hs0.
    pose proof (Htgt_row (targetY r) ltac:(lia)) as Ht0.
    assert (Ew : blit_width r
                 = w - sourceX r - Z.max 0 (Image.x image + w - W)) by reflexivity.
    assert (Eh : blit_height r
                 = h - sourceY r - Z.max 0 (Image.y image + h - H)) by reflexivity.
    unfold blit_ints. cbv zeta. fold r w h W H.
    cbn [forallb]. rewrite !andb_true_iff, !fits_iff.
    repeat apply conj; try exact I; try reflexivity; lia.
  - (* the indices of the loop *)
    apply forallb_forall. intros [ti si] Hin. cbn [fst snd].
    apply Hacc in Hin. destruct Hin as (row & col & Hrow & Hcol & -> & ->).
    pose proof (Hsrc_row (sourceY r + row) ltac:(lia)) as Hs.
    pose proof (Htgt_row (targetY r + row) ltac:(lia)) as Ht.
    apply andb_true_iff. rewrite !fits_iff. lia.
  - (* the positions the loop moves to *)
    apply forallb_forall. intros v Hin. apply in_blit_steps in Hin.
    destruct Hin as (k & Hk & Hv). rewrite Z2Nat.id in Hk by lia.
    pose proof (Hsrc_row (sourceY r + k) ltac:(lia)) as Hs.
    pose proof (Htgt_row (targetY r + k) ltac:(lia)) as Ht.
    apply fits_iff. destruct Hv as [-> | ->]; lia.
Qed.

(** A blit of which an [int] overflows has no behaviour, whatever the
    canvas. *)
Lemma blit_overflow (target : list cell) (baton : BlendBaton.t) (image : Image.t) :
  blit_fits baton image = false -> Blend_Composite target baton image = None.
Proof.
  intros Hfits. unfold Blend_Composite. rewrite Hfits.
  destruct (Image.reader image); reflexivity.
Qed.

(** The blit of a layer that is ready and of which no [int] overflows, in
    terms of the pairs of indices the loop goes through. *)
Lemma blit_ready_run (target : list cell) (baton : BlendBaton.t) (image : Image.t)
  (layer : ImageReader) :
  blit_ready target baton image layer -> blit_fits baton image = true ->
  exists target' : list cell,
    Blend_Composite target baton image = Some target' /\
    List.length target' = List.length target /\
    (forall ti si : Z,
        In (ti, si) (blit_accesses baton image) ->
        exists (t : cell) (s : Z),
          get target ti = Some t /\ get (rd_surface layer) si = Some s /\
          get target' ti = Some (Blend_CompositePixel t s)) /\
    (forall i : Z, ~ In i (map fst (blit_accesses baton image)) ->
                   get target' i = get target i).
Proof.
  intros Hready Hfits.
  pose proof Hready
    as (Hreader & Hiw & Hih & Hsurface & Hbw & Hbh & Htarget & Hvw & Hvh & Hx & Hy).
  destruct (blit_rect_bounds baton image Hiw Hih Hbw Hbh Hvw Hvh Hx Hy)
    as (Hdims & Hsrc & Htgt).
  destruct (composite_all_in_bounds (rd_surface layer) (blit_accesses baton image) target)
    as (target' & Hfold & Hlen).
  { intros ti si Hin. exact (blit_ready_bounds _ _ _ _ _ _ Hready Hin). }
  exists target'. unfold Blend_Composite. rewrite Hreader, Hfits.
  split; [exact Hfold |]. split; [exact Hlen |].
  assert (Hnd : NoDup (map fst (blit_accesses baton image))).
  { unfold blit_accesses. cbv zeta. apply blit_rows_targets_NoDup. lia. }
  exact (fold_composite_spec _ _ _ _ Hnd Hfold).
Qed.

Lemma blit_ready_height (target : list cell) (baton : BlendBaton.t) (image : Image.t)
  (layer : ImageReader) :
  blit_ready target baton image layer -> 0 <= blit_height (blit_rect baton image).
Proof.
  intros (Hreader & Hiw & Hih & Hsurface & Hbw & Hbh & Htarget & Hvw & Hvh & Hx & Hy).
  destruct (blit_rect_bounds baton image Hiw Hih Hbw Hbh Hvw Hvh Hx Hy)
    as (Hdims & _). lia.
Qed.

(** What [Blend_Composite] does to the canvas, for sizes that fit an
    [int].  Inside the clipped rectangle the word at column
    [targetX + col] of row [targetY + row] becomes the composite of what it
    held with the source word at column [sourceX + col] of row
    [sourceY + row]; every word outside the rectangle is left as it was,
    and the canvas keeps its length. *)
Theorem blit_composites_rectangle (target : list cell) (baton : BlendBaton.t)
  (image : Image.t) (layer : ImageReader) :
  blit_ready target baton image layer ->
  int_sized baton image ->
  let r := blit_rect baton image in
  exists target' : list cell,
    Blend_Composite target baton image = Some target' /\
    List.length target' = List.length target /\
    (forall row col : Z,
        0 <= row < blit_height r -> 0 <= col < blit_width r ->
        exists (t : cell) (s : Z),
          get target ((targetY r + row) * BlendBaton.width baton + targetX r + col)
          = Some t /\
          get (rd_surface layer) ((sourceY r + row) * Image.width image + sourceX r + col)
          = Some s /\
          get target' ((targetY r + row) * BlendBaton.width baton + targetX r + col)
          = Some (Blend_CompositePixel t s)) /\
    (forall i : Z,
        ~ (exists row col : Z,
              0 <= row < blit_height r /\ 0 <= col < blit_width r /\
              i = (targetY r + row) * BlendBaton.width baton + targetX r + col) ->
        get target' i = get target i).
Proof.
  intros Hready Hsized r.
  pose proof (blit_ready_height _ _ _ _ Hready) as Hh.
  destruct (blit_ready_run _ _ _ _ Hready (blit_fits_sized _ _ _ _ Hready Hsized))
    as (target' & Hrun & Hlen & Hin & Hout).
  exists target'. split; [exact Hrun |]. split; [exact Hlen |]. split.
  - intros row col Hrow Hcol. apply Hin. apply blit_accesses_spec; [exact Hh |].
    exists row, col. fold r. split; [exact Hrow |]. split; [exact Hcol |].
    split; reflexivity.
  - intros i Hi. apply Hout. intros Hmem. apply Hi.
    apply in_map_iff in Hmem. destruct Hmem as ([ti si] & E & Hmem). cbn [fst] in E. subst ti.
    apply blit_accesses_spec in Hmem; [| exact Hh].
    destruct Hmem as (row & col & Hrow & Hcol & -> & _).
    exists row, col. split; [exact Hrow |]. split; [exact Hcol |]. reflexivity.
Qed.

Lemma blit_composites_rectangle_witness :
  blit_ready (repeat None 12) canvas_4x3 decoded_3x2 (sample_reader decoded_3x2) /\
  int_sized canvas_4x3 decoded_3x2 /\
  exists target' : list cell,
    Blend_Composite (repeat None 12) canvas_4x3 decoded_3x2 = Some target' /\
    get target' 4 = Some (Some 0xFF000005) /\ get target' 0 = Some None.
Proof.
  assert (Hready : blit_ready (repeat None 12) canvas_4x3 decoded_3x2
                     (sample_reader decoded_3x2)).
  { unfold blit_ready. cbn. repeat apply conj; try reflexivity; lia. }
  assert (Hsized : int_sized canvas_4x3 decoded_3x2).
  { unfold int_sized, Int.max. cbn. repeat apply conj; lia. }
  split; [exact Hready |]. split; [exact Hsized |].
  destruct (blit_composites_rectangle _ _ _ _ Hready Hsized)
    as (target' & Hrun & _ & Hin & Hout).
  exists target'. split; [exact Hrun |]. split.
  - destruct (Hin 0 0 ltac:(cbn; lia) ltac:(cbn; lia)) as (t & s & Ht & Hs & Hres).
    cbn in Ht, Hs, Hres. injection Ht as <-. injection Hs as <-. exact Hres.
  - rewrite (Hout 0); [reflexivity |].
    intros (row & col & Hrow & Hcol & E).
    change (targetY (blit_rect canvas_4x3 decoded_3x2)) with 1 in E.
    change (targetX (blit_rect canvas_4x3 decoded_3x2)) with 0 in E.
    change (BlendBaton.width canvas_4x3) with 4 in E.
    change (blit_height (blit_rect canvas_4x3 decoded_3x2)) with 2 in Hrow.
    change (blit_width (blit_rect canvas_4x3 decoded_3x2)) with 2 in Hcol. lia.
Defined.

(** Within the sizes that fit an [int], the blit stays inside its two
    arrays.  For a decoded layer that passed the viewport test, with a
    surface of width times height pixels, on a canvas of positive width
    and height with that many words: the source and the target rectangle
    have one width and one height, neither negative; each lies inside its
    surface; every index the loop uses lies inside its array and no [int]
    overflows; and a negative offset clips the source at its opposite and
    puts the target at 0. *)
Theorem blit_stays_in_bounds (target : list cell) (baton : BlendBaton.t)
  (image : Image.t) (layer : ImageReader) :
  blit_ready target baton image layer ->
  int_sized baton image ->
  let r := blit_rect baton image in
  (0 <= blit_width r /\ 0 <= blit_height r) /\
  (0 <= sourceX r /\ sourceX r + blit_width r <= Image.width image /\
   0 <= sourceY r /\ sourceY r + blit_height r <= Image.height image) /\
  (0 <= targetX r /\ targetX r + blit_width r <= BlendBaton.width baton /\
   0 <= targetY r /\ targetY r + blit_height r <= BlendBaton.height baton) /\
  blit_fits baton image = true /\
  (forall ti si : Z,
      In (ti, si) (blit_accesses baton image) ->
      0 <= ti < Z.of_nat (List.length target) /\
      0 <= si < Z.of_nat (List.length (rd_surface layer))) /\
  (exists target' : list cell,
      Blend_Composite target baton image = Some target' /\
      List.length target' = List.length target) /\
  (Image.x image < 0 -> sourceX r = - Image.x image /\ targetX r = 0) /\
  (Image.y image < 0 -> sourceY r = - Image.y image /\ targetY r = 0).
Proof.
  intros Hready Hsized r.
  pose proof Hready
    as (Hreader & Hiw & Hih & Hsurface & Hbw & Hbh & Htarget & Hvw & Hvh & Hx & Hy).
  destruct (blit_rect_bounds baton image Hiw Hih Hbw Hbh Hvw Hvh Hx Hy)
    as (Hdims & Hsrc & Htgt).
  pose proof (blit_fits_sized _ _ _ _ Hready Hsized) as Hfits.
  destruct (blit_ready_run _ _ _ _ Hready Hfits) as (target' & Hrun & Hlen & _).
  split; [exact Hdims |]. split; [exact Hsrc |]. split; [exact Htgt |].
  split; [exact Hfits |]. split.
  { intros ti si Hin. exact (blit_ready_bounds _ _ _ _ _ _ Hready Hin). }
  split; [exists target'; split; assumption |].
  subst r. unfold blit_rect. cbn [sourceX sourceY targetX targetY]. lia.
Qed.

Lemma blit_stays_in_bounds_witness :
  blit_accesses canvas_4x3 decoded_3x2 = [(4, 1); (5, 2); (8, 4); (9, 5)] /\
  sourceX (blit_rect canvas_4x3 decoded_3x2) = 1 /\
  targetX (blit_rect canvas_4x3 decoded_3x2) = 0 /\
  exists target' : list cell,
    Blend_Composite (repeat None 12) canvas_4x3 decoded_3x2 = Some target' /\
    List.length target' = 12%nat.
Proof.
  assert (Hready : blit_ready (repeat None 12) canvas_4x3 decoded_3x2
                     (sample_reader decoded_3x2)).
  { unfold blit_ready. cbn. repeat apply conj; try reflexivity; lia. }
  assert (Hsized : int_sized canvas_4x3 decoded_3x2).
  { unfold int_sized, Int.max. cbn. repeat apply conj; lia. }
  pose proof (blit_stays_in_bounds _ _ _ _ Hready Hsized) as H.
  cbv zeta in H. destruct H as (_ & _ & _ & _ & _ & Hdef & Hneg & _).
  split; [reflexivity |].
  destruct (Hneg ltac:(cbn; lia)) as [Hs Ht].
  split; [exact Hs |]. split; [exact Ht |]. exact Hdef.
Defined.

(** A layer whose pixels are all opaque and which covers the canvas
    decides every word of the canvas, whatever the canvas held, even
    nothing: for sizes that fit an [int], the pixel at column [cx] of row
    [cy] becomes the layer's pixel at column [cx - x] of row [cy - y]. *)
Theorem blit_opaque_cover (target : list cell) (baton : BlendBaton.t)
  (image : Image.t) (layer : ImageReader) :
  blit_ready target baton image layer ->
  int_sized baton image ->
  Image.x image <= 0 -> Image.y image <= 0 ->
  BlendBaton.width baton <= Image.width image + Image.x image ->
  BlendBaton.height baton <= Image.height image + Image.y image ->
  Forall (fun s : Z => 0xFF000000 <= s) (rd_surface layer) ->
  exists target' : list cell,
    Blend_Composite target baton image = Some target' /\
    forall cx cy : Z,
      0 <= cx < BlendBaton.width baton -> 0 <= cy < BlendBaton.height baton ->
      exists s : Z,
        get (rd_surface layer)
          ((cy - Image.y image) * Image.width image + (cx - Image.x image)) = Some s /\
        get target' (cy * BlendBaton.width baton + cx) = Some (Some s).
Proof.
  intros Hready Hsized Hx0 Hy0 Hcw Hch Hopaque.
  pose proof (blit_ready_height _ _ _ _ Hready) as Hh.
  destruct (blit_ready_run _ _ _ _ Hready (blit_fits_sized _ _ _ _ Hready Hsized))
    as (target' & Hrun & _ & Hin & _).
  exists target'. split; [exact Hrun |]. intros cx cy Hcx Hcy.
  destruct (Hin (cy * BlendBaton.width baton + cx)
              ((cy - Image.y image) * Image.width image + (cx - Image.x image)))
    as (t & s & Ht & Hs & Hres).
  { apply blit_accesses_spec; [exact Hh |]. exists cy, cx.
    unfold blit_rect. cbn [blit_width blit_height sourceX sourceY targetX targetY].
    replace (Z.max 0 (- Image.x image)) with (- Image.x image) by lia.
    replace (Z.max 0 (- Image.y image)) with (- Image.y image) by lia.
    replace (Z.max 0 (Image.x image)) with 0 by lia.
    replace (Z.max 0 (Image.y image)) with 0 by lia.
    replace (Z.max 0 (Image.x image + Image.width image - BlendBaton.width baton))
      with (Image.x image + Image.width image - BlendBaton.width baton) by lia.
    replace (Z.max 0 (Image.y image + Image.height image - BlendBaton.height baton))
      with (Image.y image + Image.height image - BlendBaton.height baton) by lia.
    split; [lia |]. split; [lia |]. split; ring. }
  exists s. split; [exact Hs |]. rewrite Hres. f_equal.
  assert (Hs' : 0xFF000000 <= s).
  { rewrite Forall_forall in Hopaque. apply Hopaque.
    unfold get in Hs. destruct (_ <? 0); [discriminate |].
    apply nth_error_In in Hs. exact Hs. }
  unfold Blend_CompositePixel.
  destruct (Z.leb_spec s 0x00FFFFFF) as [Hlo | _]; [lia |].
  destruct (Z.leb_spec 0xFF000000 s) as [_ | Hhi]; [reflexivity | lia].
Qed.

Lemma blit_opaque_cover_witness :
  exists target' : list cell,
    Blend_Composite (repeat None 4) canvas_2x2 decoded_cover = Some target' /\
    forall cx cy : Z,
      0 <= cx < 2 -> 0 <= cy < 2 ->
      exists s : Z,
        get (rd_surface (sample_reader decoded_cover)) ((cy - 0) * 3 + (cx - -1)) = Some s /\
        get target' (cy * 2 + cx) = Some (Some s).
Proof.
  apply (blit_opaque_cover (repeat None 4) canvas_2x2 decoded_cover
           (sample_reader decoded_cover)).
  - unfold blit_ready. cbn. repeat apply conj; try reflexivity; lia.
  - unfold int_sized, Int.max. cbn. repeat apply conj; lia.
  - cbn. lia.
  - cbn. lia.
  - cbn. lia.
  - cbn. lia.
  - cbn. repeat constructor; lia.
Defined.

(** A sequence of calls of the loop body on source words that are all
    fully transparent changes nothing. *)
Lemma fold_composite_transparent (source : list Z) (accesses : list (Z * Z))
  (target : list cell) :
  (forall ti si, In (ti, si) accesses ->
                 0 <= ti < Z.of_nat (List.length target) /\
                 0 <= si < Z.of_nat (List.length source)) ->
  Forall (fun s : Z => s <= 0x00FFFFFF) source ->
  fold_left (composite_at source) accesses (Some target) = Some target.
Proof.
  intros Hbounds Hclear. induction accesses as [| [ti si] rest IH]; [reflexivity |].
  destruct (Hbounds ti si (or_introl eq_refl)) as [Hti Hsi].
  destruct (get_in_bounds target ti Hti) as [t Ht].
  destruct (get_in_bounds source si Hsi) as [s Hs].
  cbn [fold_left composite_at fst snd]. rewrite Ht, Hs.
  assert (Hs' : s <= 0x00FFFFFF).
  { rewrite Forall_forall in Hclear. apply Hclear.
    unfold get in Hs. destruct (_ <? 0); [discriminate |].
    apply nth_error_In in Hs. exact Hs. }
  unfold Blend_CompositePixel. apply Z.leb_le in Hs'. rewrite Hs'.
  unfold get in Ht. destruct (Z.ltb_spec ti 0) as [Hneg | _]; [lia |].
  unfold set. rewrite (set_nth_same_value _ _ _ Ht).
  apply IH. intros ti' si' Hin'. apply Hbounds. right. exact Hin'.
Qed.

(** A layer whose pixels are all fully transparent leaves the canvas as it
    is, words that hold no value included, for sizes that fit an [int]. *)
Theorem blit_transparent_layer (target : list cell) (baton : BlendBaton.t)
  (image : Image.t) (layer : ImageReader) :
  blit_ready target baton image layer ->
  int_sized baton image ->
  Forall (fun s : Z => s <= 0x00FFFFFF) (rd_surface layer) ->
  Blend_Composite target baton image = Some target.
Proof.
  intros Hready Hsized Hclear. unfold Blend_Composite.
  pose proof Hready as (Hreader & _).
  rewrite Hreader, (blit_fits_sized _ _ _ _ Hready Hsized).
  apply fold_composite_transparent; [| exact Hclear].
  intros ti si Hin. exact (blit_ready_bounds target baton image layer ti si Hready Hin).
Qed.

Lemma blit_transparent_layer_witness :
  Blend_Composite [Some 1; None; Some 3; Some 4; None; Some 6] canvas_3x2 decoded_clear
  = Some [Some 1; None; Some 3; Some 4; None; Some 6].
Proof.
  apply (blit_transparent_layer _ canvas_3x2 decoded_clear clear_reader).
  - unfold blit_ready. cbn. repeat apply conj; try reflexivity; lia.
  - unfold int_sized, Int.max. cbn. repeat apply conj; lia.
  - cbn. repeat constructor; lia.
Defined.

(** ** [hexToUInt32Color]: any text *)

Lemma hex_digits_nonneg (s : string) (acc v : Z) :
  0 <= acc -> hex_digits s acc = Some v -> 0 <= v.
Proof.
  revert acc. induction s as [| c rest IH]; intros acc Hacc; cbn [hex_digits].
  - intros [= <-]. exact Hacc.
  - destruct (hex_digit c) as [d |] eqn:Hd; [| discriminate].
    apply hex_digit_range in Hd. apply IH. lia.
Qed.

Lemma stream_hex_in_range (other : string -> Z) (s : string) :
  (forall t : string, U32.in_range (other t)) -> U32.in_range (stream_hex other s).
Proof.
  intros Hother. unfold stream_hex. destruct s as [| c rest]; [apply Hother |].
  destruct (hex_digits (String c rest) 0) as [v |] eqn:Hv; [| apply Hother].
  destruct (Z.ltb_spec v U32.modulus) as [Hlt | _]; [| apply Hother].
  split; [| exact Hlt]. apply (hex_digits_nonneg (String c rest) 0 v); [lia | exact Hv].
Qed.

(** The six-character case on any 32-bit value: the top byte of the
    value is dropped. *)
Lemma rgb_to_argb_any (color : Z) :
  U32.in_range color ->
  Z.lor (Z.lor (Z.lor 0xFF000000 (U32.shl (Z.land color 0xFF) 16))
               (Z.land color 0xFF00))
        (U32.shr (Z.land color 0xFF0000) 16)
  = argb_word 0xFF (red_of color) (green_of color) (blue_of color).
Proof.
  intros Hc.
  destruct (argb_word_of_channels color Hc) as (E & Ha & Hb & Hg & Hr & _).
  destruct (masks_of_argb_word _ _ _ _ Ha Hb Hg Hr) as (E0 & E8 & E16 & _).
  rewrite <- E in E0, E8, E16. rewrite E0, E8, E16.
  rewrite shr_shifted by lia.
  rewrite shl_small by (unfold is_byte, U32.modulus in *; lia).
  change 0xFF000000 with (0xFF * 2 ^ 24).
  apply lor_bytes; try assumption. unfold is_byte; lia.
Qed.

(** The eight-character case on any 32-bit value: the four bytes in the
    opposite order. *)
Lemma rgba_to_argb_any (color : Z) :
  U32.in_range color ->
  Z.lor (Z.lor (Z.lor (U32.shl color 24)
                      (U32.shl (Z.land color 0xFF00) 8))
               (U32.shr (Z.land color 0xFF0000) 8))
        (U32.shr (Z.land color 0xFF000000) 24)
  = argb_word (red_of color) (green_of color) (blue_of color) (alpha_of color).
Proof.
  intros Hc.
  destruct (argb_word_of_channels color Hc) as (E & Ha & Hb & Hg & Hr & _).
  pose proof (rgba_to_argb _ _ _ _ Ha Hb Hg Hr) as H. cbv zeta in H.
  rewrite <- E in H. exact H.
Qed.

(** Whatever the text, [hexToUInt32Color] returns a 32-bit word.  A text
    of six characters after the optional [#] gives a word whose alpha byte
    is 0xFF, hexadecimal digits or not, so that the word is not 0; a text of
    eight characters gives the bytes of the number the stream extracted
    in the opposite order. *)
Theorem hexToUInt32Color_any_text (other : string -> Z) (hex : string) :
  (forall t : string, U32.in_range (other t)) ->
  let w := hexToUInt32Color other (Some hex) in
  let color := stream_hex other (skip_hash hex) in
  U32.in_range w /\
  (String.length (skip_hash hex) = 6%nat ->
   w = argb_word 0xFF (red_of color) (green_of color) (blue_of color) /\
   alpha_of w = 0xFF /\ w <> 0) /\
  (String.length (skip_hash hex) = 8%nat ->
   w = argb_word (red_of color) (green_of color) (blue_of color) (alpha_of color)).
Proof.
  intros Hother w color.
  pose proof (stream_hex_in_range other (skip_hash hex) Hother) as Hc. fold color in Hc.
  destruct (argb_word_of_channels color Hc) as (_ & Ha & Hb & Hg & Hr & _).
  assert (Hff : is_byte 0xFF) by (unfold is_byte; lia).
  assert (H6 : String.length (skip_hash hex) = 6%nat ->
               w = argb_word 0xFF (red_of color) (green_of color) (blue_of color)).
  { intros E. subst w. unfold hexToUInt32Color. cbv zeta. rewrite E. cbn [Z.of_nat].
    change (negb (Z.pos (Pos.of_succ_nat 5) =? 6) && negb (Z.pos (Pos.of_succ_nat 5) =? 8))
      with false.
    change (Z.pos (Pos.of_succ_nat 5) =? 8) with false. cbv iota.
    fold color. apply rgb_to_argb_any. exact Hc. }
  assert (H8 : String.length (skip_hash hex) = 8%nat ->
               w = argb_word (red_of color) (green_of color) (blue_of color)
                     (alpha_of color)).
  { intros E. subst w. unfold hexToUInt32Color. cbv zeta. rewrite E. cbn [Z.of_nat].
    change (negb (Z.pos (Pos.of_succ_nat 7) =? 6) && negb (Z.pos (Pos.of_succ_nat 7) =? 8))
      with false.
    change (Z.pos (Pos.of_succ_nat 7) =? 8) with true. cbv iota.
    fold color. apply rgba_to_argb_any. exact Hc. }
  split; [| split].
  - destruct (Nat.eq_dec (String.length (skip_hash hex)) 6) as [E6 | N6].
    { rewrite (H6 E6). apply argb_word_range; assumption. }
    destruct (Nat.eq_dec (String.length (skip_hash hex)) 8) as [E8 | N8].
    { rewrite (H8 E8). apply argb_word_range; assumption. }
    subst w. unfold hexToUInt32Color. cbv zeta.
    destruct (Z.eqb_spec (Z.of_nat (String.length (skip_hash hex))) 6) as [E | _]; [lia |].
    destruct (Z.eqb_spec (Z.of_nat (String.length (skip_hash hex))) 8) as [E | _]; [lia |].
    cbn [negb andb]. unfold U32.in_range, U32.modulus. lia.
  - intros E. split; [exact (H6 E) |].
    rewrite (H6 E).
    destruct (channels_of_argb_word 0xFF _ _ _ Hff Hr Hg Hb) as (Ealpha & _).
    split; [exact Ealpha |].
    unfold argb_word, is_byte in *. lia.
  - exact H8.
Qed.

Lemma hexToUInt32Color_any_text_witness :
  U32.in_range (hexToUInt32Color (fun _ => 0) (Some "#zzzzzz"%string)) /\
  alpha_of (hexToUInt32Color (fun _ => 0) (Some "#zzzzzz"%string)) = 0xFF.
Proof.
  destruct (hexToUInt32Color_any_text (fun _ => 0) "#zzzzzz"%string) as (Hr & H6 & _).
  - intros t. unfold U32.in_range, U32.modulus. lia.
  - split; [exact Hr |]. destruct (H6 eq_refl) as (_ & Ha & _). exact Ha.
Defined.

(** ** [Blend]: the jobs it queues *)

Section EntryFacts.

Variable Int32Value_other : Value -> Z.
Variable stream_hex_other : string -> Z.

Lemma check_arguments_Go (args : list Value) (baton : BlendBaton.t)
  (options : option Value) :
  check_arguments args = Go _ (baton, options) ->
  exists (layers : list Value) (rest : list Value) (callback : Value),
    args = ArrayV layers :: rest /\ IsFunction callback = true /\
    baton = BlendBaton.set_callback BlendBaton.new callback.
Proof.
  unfold check_arguments. destruct args as [| a0 rest]; [discriminate |].
  destruct a0; try discriminate. cbn [IsArray negb].
  destruct rest as [| a1 [| a2 rest]]; [discriminate | |].
  - destruct (IsFunction a1) eqn:Hf; [| discriminate]. cbn [negb].
    intros [= <- <-]. eexists _, _, a1. repeat apply conj; [reflexivity | exact Hf | reflexivity].
  - destruct (IsObject a1); [| discriminate]. cbn [negb].
    destruct (IsFunction a2) eqn:Hf; [| discriminate]. cbn [negb].
    intros [= <- <-]. eexists _, _, a2. repeat apply conj; [reflexivity | exact Hf | reflexivity].
Qed.

Lemma check_arguments_Stop (args : list Value) (r : BlendResult) :
  check_arguments args = Stop _ r -> refused r.
Proof.
  unfold check_arguments. repeat split_match; intros [= <-]; exact I.
Qed.

Lemma validate_format_Go (b b' : BlendBaton.t) (options : Value) :
  BlendBaton.format b = BLEND_FORMAT_PNG ->
  validate_format Int32Value_other b options = Go _ b' ->
  fixed_fields b b' /\
  (BlendBaton.format b' = BLEND_FORMAT_JPEG -> 1 <= BlendBaton.quality b' <= 100).
Proof.
  intros Hpng. unfold validate_format, fixed_fields.
  destruct (Get options "format") as [| | | | format | | | | | |];
    try (intros [= <-]; baton_fields; rewrite Hpng; repeat apply conj;
         first [reflexivity | discriminate]).
  destruct (String.eqb format "jpeg" || String.eqb format "jpg").
  - baton_fields.
    destruct (Z.eqb_spec (Int32Value Int32Value_other (Get options "quality")) 0) as [E | N].
    + intros [= <-]. baton_fields. repeat apply conj; try reflexivity. intros _. lia.
    + destruct (Z.ltb_spec (Int32Value Int32Value_other (Get options "quality")) 0);
        [discriminate |].
      destruct (Z.ltb_spec 100 (Int32Value Int32Value_other (Get options "quality")));
        [discriminate |].
      cbn [orb]. intros [= <-]. baton_fields. repeat apply conj; try reflexivity.
      intros _. lia.
  - destruct (String.eqb format "png"); [| discriminate].
    destruct (_ || _); [discriminate |].
    intros [= <-]. baton_fields. rewrite Hpng.
    repeat apply conj; first [reflexivity | discriminate].
Qed.

Lemma validate_format_Stop (b : BlendBaton.t) (options : Value) (r : BlendResult) :
  validate_format Int32Value_other b options = Stop _ r -> refused r.
Proof.
  unfold validate_format.
  destruct (Get options "format"); try discriminate.
  repeat split_match; try discriminate; intros [= <-]; exact I.
Qed.

Lemma validate_canvas_fields (b : BlendBaton.t) (options : Value) :
  let b' := validate_canvas Int32Value_other stream_hex_other b options in
  fixed_fields b b' /\
  BlendBaton.format b' = BlendBaton.format b /\
  BlendBaton.quality b' = BlendBaton.quality b /\
  BlendBaton.compression b' = BlendBaton.compression b /\
  BlendBaton.encoder b' = BlendBaton.encoder b /\
  (BlendBaton.matte b = 0 -> BlendBaton.matte b' <> 0 -> BlendBaton.reencode b' = true).
Proof.
  unfold validate_canvas, fixed_fields. cbv zeta.
  destruct (Get options "matte") as [| | | | matte | | | | | |];
    try (baton_fields; repeat apply conj; try reflexivity; intros E N; contradiction).
  baton_fields.
  destruct (Z.eqb_spec (hexToUInt32Color stream_hex_other (Some matte)) 0) as [E | N];
    cbn [negb andb].
  - baton_fields. repeat apply conj; try reflexivity. intros _ N. contradiction.
  - destruct (BooleanValue (Get options "reencode")); cbn [negb]; baton_fields;
      repeat apply conj; reflexivity.
Qed.

Lemma validate_encoding_Go (b b' : BlendBaton.t) (options : Value) :
  validate_encoding Int32Value_other b options = Go _ b' ->
  fixed_fields b b' /\
  BlendBaton.format b' = BlendBaton.format b /\
  BlendBaton.quality b' = BlendBaton.quality b /\
  BlendBaton.matte b' = BlendBaton.matte b /\
  BlendBaton.reencode b' = BlendBaton.reencode b /\
  BlendBaton.width b' = BlendBaton.width b /\
  BlendBaton.height b' = BlendBaton.height b /\
  (BlendBaton.compression b' = Z_DEFAULT_COMPRESSION \/
   1 <= BlendBaton.compression b' <= max_compression b').
Proof.
  unfold validate_encoding, fixed_fields, max_compression.
  set (comp := Int32Value Int32Value_other (Get options "compression")).
  set (b1 := if IsObject (Get options "palette")
             then match Get options "palette" with
                  | PaletteV p => Go _ (BlendBaton.set_palette b (Some p))
                  | _ => Stop _ Unwrapped
                  end
             else Go _ b).
  assert (H1 : forall b1', b1 = Go _ b1' ->
                           exists p, b1' = BlendBaton.set_palette b p).
  { subst b1. intros b1'. destruct (IsObject (Get options "palette")).
    - destruct (Get options "palette"); try discriminate.
      intros [= <-]. eexists. reflexivity.
    - intros [= <-]. exists (BlendBaton.palette b). destruct b. reflexivity. }
  destruct b1 as [b1' | r]; [| discriminate].
  destruct (H1 b1' eq_refl) as [p ->]. clear H1. cbn [bind].
  set (b2 := match Get options "mode" with
             | Str mode => _
             | _ => _
             end).
  assert (H2 : exists m, b2 = BlendBaton.set_mode (BlendBaton.set_palette b p) m).
  { subst b2. destruct (Get options "mode");
      try (exists (BlendBaton.mode b); destruct b; reflexivity).
    repeat split_match; try (eexists; reflexivity);
      exists (BlendBaton.mode b); destruct b; reflexivity. }
  destruct H2 as [m H2]. rewrite H2. clear H2 b2.
  set (b3 := match Get options "encoder" with
             | Str encoder => _
             | _ => _
             end).
  assert (H3 : exists e, b3 = BlendBaton.set_encoder
                                (BlendBaton.set_mode (BlendBaton.set_palette b p) m) e).
  { subst b3. destruct (Get options "encoder");
      try (exists (BlendBaton.encoder b); destruct b; reflexivity).
    split_match; try (eexists; reflexivity);
      exists (BlendBaton.encoder b); destruct b; reflexivity. }
  destruct H3 as [e H3]. rewrite H3. clear H3 b3.
  cbn [BlendBaton.encoder BlendBaton.set_encoder BlendBaton.compression
       BlendBaton.set_compression].
  unfold Z_DEFAULT_COMPRESSION, Z_BEST_COMPRESSION, MZ_UBER_COMPRESSION.
  destruct (Z.leb_spec comp 0) as [Hle | Hgt];
    cbn [BlendBaton.compression BlendBaton.set_compression];
    destruct e; (split_match; [discriminate |]); intros [= <-]; baton_fields;
    repeat apply conj; try reflexivity; lia.
Qed.

Lemma validate_encoding_Stop (b : BlendBaton.t) (options : Value) (r : BlendResult) :
  validate_encoding Int32Value_other b options = Stop _ r -> refused r.
Proof.
  unfold validate_encoding.
  destruct (IsObject (Get options "palette")).
  - destruct (Get options "palette"); cbn [bind]; try (intros [= <-]; exact I).
    split_match; [intros [= <-]; exact I | discriminate].
  - cbn [bind]. split_match; [intros [= <-]; exact I | discriminate].
Qed.

Lemma tint_pair_Stop (tint : Value) (key message : string)
  (current : option (Value * Value)) (r : BlendResult) :
  tint_pair tint key message current = Stop _ r -> refused r.
Proof.
  unfold tint_pair. destruct (Get tint key) as [| | | | | | val_array | | | |];
    try discriminate.
  destruct val_array as [| v0 [| v1 [| v2 rest]]]; try discriminate;
    intros [= <-]; exact I.
Qed.

Lemma validate_tint_Go (b b' : BlendBaton.t) (options : Value) :
  validate_tint b options = Go _ b' -> exists t : Tinter, b' = BlendBaton.set_tint b t.
Proof.
  unfold validate_tint. cbv zeta. destruct (IsObject (Get options "tint")).
  - destruct (tint_pair _ "h" _ _) as [h | r]; cbn [bind]; [| discriminate].
    destruct (tint_pair _ "s" _ _) as [s | r]; cbn [bind]; [| discriminate].
    destruct (tint_pair _ "l" _ _) as [l | r]; cbn [bind]; [| discriminate].
    destruct (tint_pair _ "a" _ _) as [a | r]; cbn [bind]; [| discriminate].
    intros [= <-]. eexists. reflexivity.
  - intros [= <-]. exists (BlendBaton.tint b). destruct b. reflexivity.
Qed.

Lemma validate_tint_Stop (b : BlendBaton.t) (options : Value) (r : BlendResult) :
  validate_tint b options = Stop _ r -> refused r.
Proof.
  unfold validate_tint. cbv zeta. destruct (IsObject (Get options "tint")); [| discriminate].
  destruct (tint_pair _ "h" _ _) as [h | r1] eqn:Eh; cbn [bind];
    [| intros [= <-]; exact (tint_pair_Stop _ _ _ _ _ Eh)].
  destruct (tint_pair _ "s" _ _) as [s | r1] eqn:Es; cbn [bind];
    [| intros [= <-]; exact (tint_pair_Stop _ _ _ _ _ Es)].
  destruct (tint_pair _ "l" _ _) as [l | r1] eqn:El; cbn [bind];
    [| intros [= <-]; exact (tint_pair_Stop _ _ _ _ _ El)].
  destruct (tint_pair _ "a" _ _) as [a | r1] eqn:Ea; cbn [bind];
    [discriminate | intros [= <-]; exact (tint_pair_Stop _ _ _ _ _ Ea)].
Qed.

(** The options that pass the validation leave a job whose quality,
    matte and compression fit its format, its [reencode] flag and its
    encoder. *)
Lemma validate_options_Go (b b' : BlendBaton.t) (options : option Value) :
  BlendBaton.format b = BLEND_FORMAT_PNG -> BlendBaton.matte b = 0 ->
  BlendBaton.compression b = Z_DEFAULT_COMPRESSION ->
  validate_options Int32Value_other stream_hex_other b options = Go _ b' ->
  fixed_fields b b' /\ options_checked b'.
Proof.
  intros Hpng Hmatte Hcomp. unfold validate_options, options_checked.
  destruct options as [options |].
  - destruct (validate_format Int32Value_other b options) as [b1 | r] eqn:E1;
      cbn [bind]; [| discriminate].
    destruct (validate_format_Go _ _ _ Hpng E1) as [(F1 & F2 & F3 & F4 & F5) Hq].
    pose proof (validate_canvas_fields b1 options) as Hc. cbv zeta in Hc.
    set (b2 := validate_canvas Int32Value_other stream_hex_other b1 options) in *.
    destruct Hc as ((G1 & G2 & G3 & G4 & G5) & Gf & Gq & _ & _ & Gm).
    destruct (validate_encoding Int32Value_other b2 options) as [b3 | r] eqn:E3;
      cbn [bind]; [| discriminate].
    destruct (validate_encoding_Go _ _ _ E3)
      as ((K1 & K2 & K3 & K4 & K5) & Kf & Kq & Km & Kr & _ & _ & Kc).
    intros E4. destruct (validate_tint_Go _ _ _ E4) as [t ->].
    unfold fixed_fields, max_compression in *. baton_fields.
    assert (Hm1 : BlendBaton.matte b1 = 0).
    { unfold validate_format in E1. revert E1. repeat split_match; try discriminate;
        intros [= <-]; baton_fields; exact Hmatte. }
    repeat apply conj; try congruence.
    + intros Hj. rewrite Kq, Gq. apply Hq. congruence.
    + intros Hne. rewrite Kr. apply Gm; [exact Hm1 | congruence].
  - intros [= <-]. unfold fixed_fields. repeat apply conj; try reflexivity.
    + rewrite Hpng. discriminate.
    + intros N. contradiction.
    + left. exact Hcomp.
Qed.

Lemma validate_options_Stop (b : BlendBaton.t) (options : option Value) (r : BlendResult) :
  validate_options Int32Value_other stream_hex_other b options = Stop _ r -> refused r.
Proof.
  unfold validate_options. destruct options as [options |]; [| discriminate].
  destruct (validate_format Int32Value_other b options) as [b1 | r1] eqn:E1; cbn [bind];
    [| intros [= <-]; exact (validate_format_Stop _ _ _ E1)].
  destruct (validate_encoding Int32Value_other _ options) as [b3 | r1] eqn:E3; cbn [bind];
    [| intros [= <-]; exact (validate_encoding_Stop _ _ _ E3)].
  apply validate_tint_Stop.
Qed.

Lemma collect_images_Go (elements : list Value) (images : list Image.t) :
  collect_images Int32Value_other elements = Go _ images ->
  Forall2 (describes Int32Value_other) elements images.
Proof.
  revert images. induction elements as [| element rest IH]; intros images; cbn [collect_images].
  - intros [= <-]. constructor.
  - set (first := match element with BufferV bytes => _ | _ => _ end).
    assert (Hfirst : forall image, first = Go _ image ->
                                   describes Int32Value_other element image).
    { subst first. intros image. destruct element; cbn [IsObject Has Get]; try discriminate.
      - intros [= <-]. left. eexists. split; reflexivity.
      - destruct (lookup properties "buffer") as [v |] eqn:El; [| discriminate].
        destruct v; try discriminate. intros [= <-]. right.
        eexists _, _. cbn [Get]. rewrite El. repeat apply conj; reflexivity. }
    destruct first as [image | r]; cbn [bind]; [| discriminate].
    destruct (collect_images Int32Value_other rest) as [images' | r]; cbn [bind];
      [| discriminate].
    intros [= <-]. constructor; [apply Hfirst; reflexivity | apply IH; reflexivity].
Qed.

Lemma collect_images_Stop (elements : list Value) (r : BlendResult) :
  collect_images Int32Value_other elements = Stop _ r -> refused r.
Proof.
  induction elements as [| element rest IH]; cbn [collect_images]; [discriminate |].
  set (first := match element with BufferV bytes => _ | _ => _ end).
  assert (Hfirst : forall r', first = Stop _ r' -> refused r').
  { subst first. intros r'. repeat split_match; try discriminate; intros [= <-]; exact I. }
  destruct first as [image | r']; cbn [bind]; [| intros [= <-]; apply Hfirst; reflexivity].
  destruct (collect_images Int32Value_other rest) as [images' | r']; cbn [bind];
    [discriminate | intros [= <-]; apply IH; reflexivity].
Qed.

Lemma check_layers_Go (b : BlendBaton.t) (layers : list Value) :
  check_layers b layers = Go _ tt ->
  (layers = [] \/ (exists bytes : list byte, layers = [BufferV bytes])) ->
  BlendBaton.reencode b = true.
Proof.
  unfold check_layers. cbv zeta. destruct (BlendBaton.reencode b); [reflexivity |].
  intros H [-> | [bytes ->]]; cbn in H; discriminate H.
Qed.

Lemma check_layers_Stop (b : BlendBaton.t) (layers : list Value) (r : BlendResult) :
  check_layers b layers = Stop _ r ->
  refused r \/
  (exists bytes : list byte,
      layers = [BufferV bytes] /\ BlendBaton.reencode b = false /\
      r = Calls (BlendBaton.callback b) [Null; BufferV bytes]).
Proof.
  unfold check_layers. cbv zeta.
  destruct (BlendBaton.reencode b); cbn [negb andb].
  { rewrite !andb_false_r. discriminate. }
  rewrite !andb_true_r.
  destruct (Z.ltb_spec (Z.of_nat (List.length layers)) 1) as [H0 | H0].
  { intros [= <-]. left. exact I. }
  destruct (Z.eqb_spec (Z.of_nat (List.length layers)) 1) as [H1 | H1]; [| discriminate].
  destruct layers as [| element [| second rest]]; cbn [List.length] in H1; try lia.
  destruct element; cbn [HasInstance]; try (split_match; try discriminate;
                                            intros [= <-]; left; exact I).
  intros [= <-]. right. eexists. repeat apply conj; reflexivity.
Qed.

Lemma describes_fresh (element : Value) (image : Image.t) :
  describes Int32Value_other element image -> fresh image.
Proof.
  intros [(bytes & _ & ->) | (properties & bytes & _ & _ & ->)]; reflexivity.
Qed.

Lemma described_layers_fresh (layers : list Value) (images : list Image.t) :
  Forall2 (describes Int32Value_other) layers images -> Forall fresh images.
Proof.
  induction 1 as [| element image layers' images' Hd _ IH]; constructor;
    [exact (describes_fresh _ _ Hd) | exact IH].
Qed.

(** Every job that [Blend] queues is well formed.  The first argument
    was an array and the callback is a function; nothing was reported or
    written yet; there is one undecoded layer for each element of the
    array, with that element's bytes and offsets; a JPEG has a quality
    from 1 to 100; a matte other than 0 comes with [reencode]; the
    compression is the default or lies between 1 and the encoder's
    maximum; the width and the height are not negative, and positive when
    there is no layer; and a job of no layer or of one plain buffer
    reencodes. *)
Theorem Blend_queues_checked_jobs (args : list Value) (baton : BlendBaton.t) :
  Blend Int32Value_other stream_hex_other args = Queues baton ->
  exists (layers rest : list Value),
    args = ArrayV layers :: rest /\
    IsFunction (BlendBaton.callback baton) = true /\
    queued baton /\
    Forall2 (describes Int32Value_other) layers (BlendBaton.images baton) /\
    options_checked baton /\
    0 <= BlendBaton.width baton /\ 0 <= BlendBaton.height baton /\
    (layers = [] -> 0 < BlendBaton.width baton /\ 0 < BlendBaton.height baton) /\
    (layers = [] \/ (exists bytes : list byte, layers = [BufferV bytes]) ->
     BlendBaton.reencode baton = true).
Proof.
  unfold Blend.
  destruct (check_arguments args) as [[b0 options] | r] eqn:E0; cbn [bind fst snd];
    [| intros ->; destruct (check_arguments_Stop _ _ E0)].
  destruct (check_arguments_Go _ _ _ E0) as (layers & rest & callback & -> & Hf & ->).
  destruct (validate_options _ _ _ options) as [b1 | r] eqn:E1; cbn [bind];
    [| intros ->; destruct (validate_options_Stop _ _ _ E1)].
  destruct (validate_options_Go (BlendBaton.set_callback BlendBaton.new callback) b1 options
              eq_refl eq_refl eq_refl E1)
    as ((F1 & F2 & F3 & F4 & F5) & Hq & Hm & Hc).
  cbn [elements_of].
  destruct (check_layers b1 layers) as [[] | r] eqn:E2; cbn [bind];
    [| intros ->; destruct (check_layers_Stop _ _ _ E2) as [[] | (bytes & _ & _ & [=])]].
  destruct (negb _) eqn:Hdims; [intros [=] |].
  destruct ((BlendBaton.width b1 <? 0) || (BlendBaton.height b1 <? 0)) eqn:Hneg;
    [intros [=] |].
  destruct (collect_images Int32Value_other layers) as [images | r] eqn:E3; cbn [bind];
    [| intros ->; destruct (collect_images_Stop _ _ E3)].
  intros [= <-]. exists layers, rest.
  pose proof (collect_images_Go _ _ E3) as Himages.
  apply negb_false_iff in Hdims. apply orb_false_iff in Hneg. destruct Hneg as [Hw Hh].
  apply Z.ltb_ge in Hw, Hh.
  unfold queued, options_checked, max_compression in *. baton_fields.
  repeat apply conj; try assumption.
  - reflexivity.
  - rewrite F1. exact Hf.
  - exact (described_layers_fresh _ _ Himages).
  - intros ->. cbn [List.length Z.of_nat] in Hdims. cbn [Z.leb orb] in Hdims.
    change (1 <=? 0) with false in Hdims. cbn [orb] in Hdims.
    apply andb_true_iff in Hdims. destruct Hdims as [H1 H2].
    apply Z.ltb_lt in H1, H2. split; assumption.
  - exact (check_layers_Go _ _ E2).
Qed.

(** [Blend] calls the callback itself in one case only: the first
    argument holds exactly one plain buffer.  The callback is then a
    function and receives the null value and that buffer; no error is
    ever passed to the callback by [Blend] itself. *)
Theorem Blend_calls_only_echo (args : list Value) (callback : Value) (argv : list Value) :
  Blend Int32Value_other stream_hex_other args = Calls callback argv ->
  exists (bytes : list byte) (rest : list Value),
    args = ArrayV [BufferV bytes] :: rest /\
    IsFunction callback = true /\ argv = [Null; BufferV bytes].
Proof.
  unfold Blend.
  destruct (check_arguments args) as [[b0 options] | r] eqn:E0; cbn [bind fst snd];
    [| intros ->; destruct (check_arguments_Stop _ _ E0)].
  destruct (check_arguments_Go _ _ _ E0) as (layers & rest & cb & -> & Hf & ->).
  destruct (validate_options _ _ _ options) as [b1 | r] eqn:E1; cbn [bind];
    [| intros ->; destruct (validate_options_Stop _ _ _ E1)].
  destruct (validate_options_Go (BlendBaton.set_callback BlendBaton.new cb) b1 options
              eq_refl eq_refl eq_refl E1)
    as ((F1 & _) & _).
  cbn [elements_of].
  destruct (check_layers b1 layers) as [[] | r] eqn:E2; cbn [bind].
  - destruct (negb _) eqn:Hdims; [intros [=] |].
    destruct ((BlendBaton.width b1 <? 0) || (BlendBaton.height b1 <? 0)) eqn:Hneg;
      [intros [=] |].
    destruct (collect_images Int32Value_other layers) as [images | r] eqn:E3; cbn [bind];
      [intros [=] | intros ->; destruct (collect_images_Stop _ _ E3)].
  - intros ->.
    destruct (check_layers_Stop _ _ _ E2) as [[] | (bytes & -> & _ & [= Ecb Eargv])].
    exists bytes, rest. split; [reflexivity |]. split; [| exact Eargv].
    rewrite Ecb, F1. exact Hf.
Qed.

End EntryFacts.

Lemma Blend_queues_checked_jobs_witness :
  exists baton : BlendBaton.t,
    sample_Blend [ArrayV [BufferV [x01]; ObjectV [("buffer"%string, BufferV [x02]);
                                                  ("x"%string, Number 3)]];
                  ObjectV [("format"%string, Str "jpeg"); ("matte"%string, Str "#102030")];
                  FunctionV 7]
    = Queues baton /\
    BlendBaton.quality baton = 80 /\ BlendBaton.reencode baton = true /\
    BlendBaton.images baton = [Image.make [x01] 0 0; Image.make [x02] 3 0] /\
    queued baton /\ options_checked baton.
Proof.
  eexists. split; [vm_compute; reflexivity |].
  split; [reflexivity |]. split; [reflexivity |]. split; [reflexivity |].
  match goal with
  | |- queued ?b /\ _ =>
      destruct (Blend_queues_checked_jobs (fun _ => 0) (fun _ => 0)
                  [ArrayV [BufferV [x01]; ObjectV [("buffer"%string, BufferV [x02]);
                                                   ("x"%string, Number 3)]];
                   ObjectV [("format"%string, Str "jpeg"); ("matte"%string, Str "#102030")];
                   FunctionV 7] b ltac:(vm_compute; reflexivity))
        as (layers & rest & _ & _ & Hq & _ & Hc & _)
  end.
  split; [exact Hq | exact Hc].
Defined.

Lemma Blend_calls_only_echo_witness :
  exists (bytes : list byte) (rest : list Value),
    [ArrayV [BufferV [x01; x02]]; FunctionV 7] = ArrayV [BufferV bytes] :: rest /\
    IsFunction (FunctionV 7) = true /\ [Null; BufferV [x01; x02]] = [Null; BufferV bytes].
Proof.
  apply (Blend_calls_only_echo (fun _ => 0) (fun _ => 0)). vm_compute. reflexivity.
Defined.


(** ** [Work_Blend]: what the worker keeps of a job *)

Lemma extends_refl (b : BlendBaton.t) : extends b b.
Proof.
  unfold extends. repeat apply conj; try reflexivity.
  - exists []. symmetry. apply app_nil_r.
  - exists []. symmetry. apply app_nil_r.
Qed.

Lemma extends_trans (b1 b2 b3 : BlendBaton.t) :
  extends b1 b2 -> extends b2 b3 -> extends b1 b3.
Proof.
  intros (C1 & F1 & R1 & M1 & W1 & H1 & [e1 E1] & [o1 O1])
         (C2 & F2 & R2 & M2 & W2 & H2 & [e2 E2] & [o2 O2]).
  unfold extends. repeat apply conj; try congruence.
  - intros Hw. rewrite W2; rewrite W1; auto.
  - intros Hh. rewrite H2; rewrite H1; auto.
  - exists (e1 ++ e2). rewrite E2, E1. symmetry. apply app_assoc.
  - exists (o1 ++ o2). rewrite O2, O1. symmetry. apply app_assoc.
Qed.

Lemma seed_given (dimension visible : Z) : 0 < dimension -> seed dimension visible = dimension.
Proof. intros H. unfold seed. destruct (Z.leb_spec dimension 0); [lia | reflexivity]. Qed.

Section WorkerInvariants.

Variable save_as_jpeg : Z -> image_data_32 -> encode_result.
Variable save_as_png8_pal : image_data_32 -> Palette -> Z -> Z -> bool -> encode_result.
Variable save_as_png8_hex :
  image_data_32 -> Z -> Z -> Z -> Z -> Double.t -> bool -> encode_result.
Variable save_as_png8_oct : image_data_32 -> Z -> Z -> Z -> Z -> bool -> encode_result.
Variable save_as_png : image_data_32 -> Z -> Z -> bool -> bool -> encode_result.
Variable create : list byte -> option ImageReader.
Variable malloc_succeeds : Z -> bool.
Variable fmod : Double.t -> Double.t -> Double.t.

(** The dimensions after the seeding of lines 480-481. *)
Lemma seeded_extends (b : BlendBaton.t) (vw vh : Z) :
  extends b (BlendBaton.set_height
               (BlendBaton.set_width b (seed (BlendBaton.width b) vw))
               (seed (BlendBaton.height b) vh)).
Proof.
  unfold extends. baton_fields. repeat apply conj; try reflexivity.
  - apply seed_given.
  - apply seed_given.
  - exists []. symmetry. apply app_nil_r.
  - exists []. symmetry. apply app_nil_r.
Qed.

Lemma set_message_extends (b : BlendBaton.t) (message : string) :
  extends b (BlendBaton.set_message b message).
Proof.
  unfold extends. baton_fields. repeat apply conj; try reflexivity.
  - exists []. symmetry. apply app_nil_r.
  - exists []. symmetry. apply app_nil_r.
Qed.

Lemma set_images_extends (b : BlendBaton.t) (images : list Image.t) :
  extends b (BlendBaton.set_images b images).
Proof.
  unfold extends. baton_fields. repeat apply conj; try reflexivity.
  - exists []. symmetry. apply app_nil_r.
  - exists []. symmetry. apply app_nil_r.
Qed.

Lemma set_stream_extends (b : BlendBaton.t) (out : list byte) :
  extends b (BlendBaton.set_stream b (BlendBaton.stream b ++ out)).
Proof.
  unfold extends. baton_fields. repeat apply conj; try reflexivity.
  - exists []. symmetry. apply app_nil_r.
  - exists out. reflexivity.
Qed.

Lemma set_warnings_extends (b : BlendBaton.t) (extra : list string) :
  extends b (BlendBaton.set_warnings b (BlendBaton.warnings b ++ extra)).
Proof.
  unfold extends. baton_fields. repeat apply conj; try reflexivity.
  - exists extra. reflexivity.
  - exists []. symmetry. apply app_nil_r.
Qed.

(** One iteration of the loop. *)
Lemma examine_extends (image : Image.t) (index : Z) (st : WalkState) :
  match examine create image index st with
  | Continue st' image' => extends (ws_baton st) (ws_baton st') /\ same_layer image image'
  | Leave st' => extends (ws_baton st) (ws_baton st')
  | NullLayer => True
  end.
Proof.
  unfold examine. destruct (create (Image.data image)) as [layer |]; [| exact I].
  destruct ((rd_width layer =? 0) || (rd_height layer =? 0)).
  { cbn [ws_baton]. apply set_message_extends. }
  destruct (Int.fits _ && Int.fits _); cbn [negb]; [| exact I].
  set (vw := to_int (rd_width layer) + Image.x image).
  set (vh := to_int (rd_height layer) + Image.y image).
  pose proof (seeded_extends (ws_baton st) vw vh) as Hseed.
  set (b1 := BlendBaton.set_height _ _) in *.
  match goal with |- context [if ?c then Continue _ _ else _] => destruct c end.
  { cbn [ws_baton]. split; [exact Hseed |]. repeat split. }
  match goal with |- context [if ?c then Leave _ else _] => destruct c end.
  { cbn [ws_baton]. exact (extends_trans _ _ _ Hseed (set_stream_extends b1 _)). }
  destruct (rd_decode layer) as [message | warnings surface]; cbn [ws_baton].
  - exact (extends_trans _ _ _ Hseed (set_message_extends b1 _)).
  - split; [| repeat split].
    exact (extends_trans _ _ _ Hseed (set_warnings_extends b1 _)).
Qed.

Lemma same_layer_refl (images : list Image.t) : Forall2 same_layer images images.
Proof. induction images; constructor; [repeat split | assumption]. Qed.

(** The loop. *)
Lemma walk_extends (rimages : list Image.t) (index : Z) (st : WalkState) :
  match walk create rimages index st with
  | Fell st' rimages' | Returned st' rimages' =>
      extends (ws_baton st) (ws_baton st') /\ Forall2 same_layer rimages rimages'
  | NullReader => True
  end.
Proof.
  revert index st. induction rimages as [| image rest IH]; intros index st; cbn [walk].
  - split; [apply extends_refl | constructor].
  - destruct (negb (ws_alpha st)).
    { split; [apply extends_refl | apply same_layer_refl]. }
    pose proof (examine_extends image index st) as Hex.
    destruct (examine create image index st) as [st1 image1 | st1 |]; [| | exact I].
    + destruct Hex as [Hext Hlayer]. specialize (IH (index - 1) st1).
      destruct (walk create rest (index - 1) st1) as [st2 rest' | st2 rest' |];
        cbn [keep]; [| | exact I];
        destruct IH as [Hext2 Hrest];
        (split; [exact (extends_trans _ _ _ Hext Hext2) | constructor; assumption]).
    + split; [exact Hex | apply same_layer_refl].
Qed.

Lemma Blend_Encode_extends (image : image_data_32) (b : BlendBaton.t) (alpha : bool) :
  extends b (Blend_Encode save_as_jpeg save_as_png8_pal save_as_png8_hex save_as_png8_oct
               save_as_png image b alpha).
Proof.
  unfold Blend_Encode.
  destruct (BlendBaton.format b) eqn:Ef.
  - match goal with |- context [match ?r with Wrote _ => _ | Raised _ _ => _ end] =>
      destruct r end.
    + apply set_stream_extends.
    + exact (extends_trans _ _ _ (set_stream_extends b _) (set_message_extends _ _)).
  - assert (Hq : extends b (if BlendBaton.quality b =? 0
                            then BlendBaton.set_quality b 80 else b)).
    { destruct (BlendBaton.quality b =? 0); [| apply extends_refl].
      unfold extends. baton_fields. repeat apply conj; try reflexivity.
      - exists []. symmetry. apply app_nil_r.
      - exists []. symmetry. apply app_nil_r. }
    set (b1 := if BlendBaton.quality b =? 0 then BlendBaton.set_quality b 80 else b) in *.
    destruct (save_as_jpeg (BlendBaton.quality b1) image).
    + exact (extends_trans _ _ _ Hq (set_stream_extends b1 _)).
    + exact (extends_trans _ _ _ Hq
               (extends_trans _ _ _ (set_stream_extends b1 _) (set_message_extends _ _))).
Qed.

Lemma Forall2_rev_same_layer (l l' : list Image.t) :
  Forall2 same_layer l l' -> Forall2 same_layer (rev l) (rev l').
Proof.
  induction 1 as [| a a' l l' Ha _ IH]; cbn [rev]; [constructor |].
  apply Forall2_app; [exact IH | constructor; [exact Ha | constructor]].
Qed.

(** The worker, from the queued job to the job it hands to
    [Work_AfterBlend]. *)
Lemma Work_Blend_extends (baton baton' : BlendBaton.t) (decoded : list Z) :
  Work_Blend save_as_jpeg save_as_png8_pal save_as_png8_hex save_as_png8_oct save_as_png
    create malloc_succeeds fmod baton = Finished baton' decoded ->
  extends baton baton' /\ Forall2 same_layer (BlendBaton.images baton) (BlendBaton.images baton').
Proof.
  unfold Work_Blend. cbv zeta.
  pose proof (walk_extends (rev (BlendBaton.images baton))
                (Z.of_nat (List.length (BlendBaton.images baton)) - 1)
                (initial_walk_state baton)) as Hwalk.
  destruct (walk create _ _ _) as [st rimages | st rimages |]; [| | discriminate];
    destruct Hwalk as [Hext Hlayers];
    cbn [initial_walk_state ws_baton] in Hext;
    pose proof (extends_trans _ _ _ (set_images_extends baton []) Hext) as Hext0;
    apply Forall2_rev_same_layer in Hlayers; rewrite rev_involutive in Hlayers.
  - unfold blend_images. cbv zeta.
    set (b1 := BlendBaton.set_images (ws_baton st) (rev rimages)).
    assert (Hb1 : extends baton b1)
      by exact (extends_trans _ _ _ Hext0 (set_images_extends _ _)).
    assert (Hi1 : BlendBaton.images b1 = rev rimages) by reflexivity.
    destruct (negb (Int.fits _)); [discriminate |].
    destruct (_ <=? 0).
    { intros [= <- _]. split.
      - exact (extends_trans _ _ _ Hb1 (set_message_extends _ _)).
      - baton_fields. exact Hlayers. }
    destruct (negb (malloc_succeeds _)).
    { intros [= <- _]. split.
      - exact (extends_trans _ _ _ Hb1 (set_message_extends _ _)).
      - baton_fields. exact Hlayers. }
    unfold blend_onto.
    destruct (composite_images b1 _) as [target |]; [| discriminate].
    intros [= <- _]. split.
    + exact (extends_trans _ _ _ Hb1 (Blend_Encode_extends _ _ _)).
    + subst b1. rewrite Blend_Encode_images. baton_fields. exact Hlayers.
  - intros [= <- _]. split.
    + exact (extends_trans _ _ _ Hext0 (set_images_extends _ _)).
    + baton_fields. exact Hlayers.
Qed.

(** Whatever the layers, the job the worker hands to [Work_AfterBlend]
    is the caller's: the callback, the format, [reencode] and the matte
    are unchanged, and so are a width and a height the caller gave; what
    was reported or written before is still there, the worker only adds
    to it; and the layers keep their bytes and their offsets. *)
Theorem worker_keeps_job (baton baton' : BlendBaton.t) (decoded : list Z) :
  Work_Blend save_as_jpeg save_as_png8_pal save_as_png8_hex save_as_png8_oct save_as_png
    create malloc_succeeds fmod baton = Finished baton' decoded ->
  extends baton baton' /\
  Forall2 same_layer (BlendBaton.images baton) (BlendBaton.images baton').
Proof. exact (Work_Blend_extends baton baton' decoded). Qed.

(** The completion callback of a job that went through the worker is
    the caller's callback, and it receives either one error whose message
    is not empty, or the null value, a buffer and an array of warnings:
    the buffer holds what the job's stream held followed by what the
    worker wrote, the array the job's warnings followed by those the
    worker collected. *)
Theorem completion_goes_to_caller (baton : BlendBaton.t) (call : Call) :
  completion (Work_Blend save_as_jpeg save_as_png8_pal save_as_png8_hex save_as_png8_oct
                save_as_png create malloc_succeeds fmod baton) = Some call ->
  callee call = BlendBaton.callback baton /\
  ((exists message : string, message <> EmptyString /\ argv call = [ErrorV message]) \/
   (exists (out : list byte) (extra : list string),
       argv call = [Null; BufferV (BlendBaton.stream baton ++ out);
                    ArrayV (map Str (BlendBaton.warnings baton ++ extra))])).
Proof.
  destruct (Work_Blend _ _ _ _ _ _ _ _ baton) as [baton' decoded |] eqn:Erun;
    [| discriminate].
  destruct (Work_Blend_extends _ _ _ Erun)
    as ((Hcb & _ & _ & _ & _ & _ & [extra Hw] & [out Hs]) & _).
  cbn [completion]. intros [= <-]. unfold Work_AfterBlend.
  destruct (BlendBaton.message baton') as [| c rest] eqn:Em; cbn [String.length Nat.eqb].
  - cbn [callee argv]. split; [exact Hcb |]. right. exists out, extra.
    rewrite Hs, Hw. reflexivity.
  - cbn [callee argv]. split; [exact Hcb |]. left. eexists. split; [| reflexivity].
    discriminate.
Qed.

(** *** The layers the worker decodes *)

Lemma walk_decodes_once (rimages : list Image.t) (index : Z) (st : WalkState) :
  match walk create rimages index st with
  | Fell st' _ | Returned st' _ =>
      exists new : list Z,
        ws_decoded st' = new ++ ws_decoded st /\ NoDup new /\
        forall i : Z, In i new -> index - Z.of_nat (List.length rimages) < i <= index
  | NullReader => True
  end.
Proof.
  revert index st. induction rimages as [| image rest IH]; intros index st; cbn [walk].
  - exists []. split; [reflexivity |]. split; [constructor | intros i []].
  - destruct (negb (ws_alpha st)).
    { exists []. split; [reflexivity |]. split; [constructor | intros i []]. }
    destruct (examine create image index st) as [st1 image1 | st1 |] eqn:Ex; [| | exact I].
    + destruct (examine_Continue _ _ _ _ _ _ Ex) as [_ Hcase].
      assert (Hst1 : exists first, ws_decoded st1 = first ++ ws_decoded st /\
                                   (first = [] \/ first = [index])).
      { destruct Hcase as [(_ & E & _) | (_ & E & _)].
        - exists []. split; [exact E | left; reflexivity].
        - exists [index]. split; [exact E | right; reflexivity]. }
      destruct Hst1 as (first & Efirst & Hfirst).
      specialize (IH (index - 1) st1).
      destruct (walk create rest (index - 1) st1) as [st2 rest' | st2 rest' |];
        cbn [keep]; [| | exact I];
        destruct IH as (new & Enew & Hnd & Hrange);
        (exists (new ++ first); split; [rewrite Enew, Efirst; apply app_assoc |];
         split;
         [apply NoDup_app;
          [exact Hnd
          | destruct Hfirst as [-> | ->]; [constructor | repeat constructor; intros []]
          | intros i Hi Hin; apply Hrange in Hi;
            destruct Hfirst as [-> | ->]; [destruct Hin | destruct Hin as [<- | []]; lia]]
         | intros i Hi; apply in_app_iff in Hi; destruct Hi as [Hi | Hi];
           [apply Hrange in Hi; cbn [List.length]; lia
           | destruct Hfirst as [-> | ->];
             [destruct Hi | destruct Hi as [<- | []]; cbn [List.length]; lia]]]).
    + destruct (examine_Leave _ _ _ _ _ Ex) as [E | E].
      * exists []. split; [exact E |]. split; [constructor | intros i []].
      * exists [index]. split; [exact E |]. split; [repeat constructor; intros [] |].
        intros i [<- | []]. cbn [List.length]. lia.
Qed.

(** The worker calls [decode()] at most once for a layer, and only for
    layers of the job. *)
Theorem worker_decodes_once (baton baton' : BlendBaton.t) (decoded : list Z) :
  Work_Blend save_as_jpeg save_as_png8_pal save_as_png8_hex save_as_png8_oct save_as_png
    create malloc_succeeds fmod baton = Finished baton' decoded ->
  NoDup decoded /\
  forall i : Z, In i decoded -> 0 <= i < Z.of_nat (List.length (BlendBaton.images baton)).
Proof.
  unfold Work_Blend. cbv zeta.
  pose proof (walk_decodes_once (rev (BlendBaton.images baton))
                (Z.of_nat (List.length (BlendBaton.images baton)) - 1)
                (initial_walk_state baton)) as Hwalk.
  rewrite length_rev in Hwalk.
  assert (Hall : forall st : WalkState,
             (exists new : list Z,
                 ws_decoded st = new ++ ws_decoded (initial_walk_state baton) /\
                 NoDup new /\
                 forall i : Z, In i new ->
                   Z.of_nat (List.length (BlendBaton.images baton)) - 1
                   - Z.of_nat (List.length (BlendBaton.images baton)) < i
                   <= Z.of_nat (List.length (BlendBaton.images baton)) - 1) ->
             NoDup (ws_decoded st) /\
             forall i : Z, In i (ws_decoded st) ->
                           0 <= i < Z.of_nat (List.length (BlendBaton.images baton))).
  { intros st (new & E & Hnd & Hrange). cbn [initial_walk_state ws_decoded] in E.
    rewrite app_nil_r in E. rewrite E. split; [exact Hnd |].
    intros i Hi. apply Hrange in Hi. lia. }
  destruct (walk create _ _ _) as [st rimages | st rimages |]; [| | discriminate].
  - unfold blend_images, blend_onto. cbv zeta.
    destruct (negb (Int.fits _)); [discriminate |].
    destruct (_ <=? 0); [intros [= _ <-]; exact (Hall st Hwalk) |].
    destruct (negb (malloc_succeeds _)); [intros [= _ <-]; exact (Hall st Hwalk) |].
    destruct (composite_images _ _) as [target |]; [| discriminate].
    intros [= _ <-]. exact (Hall st Hwalk).
  - intros [= _ <-]. exact (Hall st Hwalk).
Qed.

(** *** A job without layers *)

(** A job that has no layer, a canvas of positive width and height
    whose number of pixels fits an [int], and no tint encodes a canvas
    whose every pixel is the matte, as an image with transparency; nothing
    is decoded. *)
Theorem blank_canvas_job (baton : BlendBaton.t) :
  BlendBaton.images baton = [] ->
  0 < BlendBaton.width baton -> 0 < BlendBaton.height baton ->
  BlendBaton.width baton * BlendBaton.height baton <= Int.max ->
  malloc_succeeds (BlendBaton.width baton * BlendBaton.height baton) = true ->
  identity (BlendBaton.tint baton) = true ->
  Work_Blend save_as_jpeg save_as_png8_pal save_as_png8_hex save_as_png8_oct save_as_png
    create malloc_succeeds fmod baton
  = Finished
      (Blend_Encode save_as_jpeg save_as_png8_pal save_as_png8_hex save_as_png8_oct
         save_as_png
         {| id_width := BlendBaton.width baton; id_height := BlendBaton.height baton;
            id_data := repeat (Some (BlendBaton.matte baton))
                         (Z.to_nat (BlendBaton.width baton * BlendBaton.height baton)) |}
         baton true)
      [].
Proof.
  intros Himages Hw Hh Hfits Hmalloc Hid.
  unfold Work_Blend. rewrite Himages. cbn [rev walk List.length].
  unfold blend_images. cbv zeta. cbn [rev initial_walk_state ws_baton ws_alpha ws_decoded].
  assert (Eb : BlendBaton.set_images (BlendBaton.set_images baton []) [] = baton).
  { destruct baton. cbn in Himages. subst. reflexivity. }
  rewrite Eb.
  assert (Hpos : 0 < BlendBaton.width baton * BlendBaton.height baton) by nia.
  assert (Hf : Int.fits (BlendBaton.width baton * BlendBaton.height baton) = true).
  { apply fits_iff. unfold Int.min. lia. }
  rewrite Hf. cbn [negb].
  destruct (Z.leb_spec (BlendBaton.width baton * BlendBaton.height baton) 0) as [Hle | _];
    [lia |].
  rewrite Hmalloc. cbn [negb]. unfold blend_onto, composite_images. rewrite Himages.
  cbn [fold_left].
  rewrite Hid. cbn [negb]. rewrite canvas_init_filled. reflexivity.
Qed.

End WorkerInvariants.

Lemma worker_keeps_job_witness :
  exists (baton' : BlendBaton.t) (decoded : list Z),
    sample_Work_Blend (sample_job [other_2x2; translucent_1x1] true 0)
    = Finished baton' decoded /\
    extends (sample_job [other_2x2; translucent_1x1] true 0) baton' /\
    Forall2 same_layer [other_2x2; translucent_1x1] (BlendBaton.images baton').
Proof.
  eexists _, _. split; [vm_compute; reflexivity |].
  apply (worker_keeps_job sample_jpeg sample_png8_pal sample_png8_hex sample_png8_oct
           sample_png sample_create (fun _ => true) sample_fmod
           (sample_job [other_2x2; translucent_1x1] true 0) _ [0; 1]).
  vm_compute. reflexivity.
Defined.

Lemma completion_goes_to_caller_witness :
  exists call : Call,
    completion (sample_Work_Blend (sample_job [other_2x2; translucent_1x1] true 0))
    = Some call /\
    callee call = FunctionV 0.
Proof.
  eexists. split; [vm_compute; reflexivity |].
  destruct (completion_goes_to_caller sample_jpeg sample_png8_pal sample_png8_hex
              sample_png8_oct sample_png sample_create (fun _ => true) sample_fmod
              (sample_job [other_2x2; translucent_1x1] true 0) _
              ltac:(vm_compute; reflexivity)) as [H _].
  exact H.
Defined.

Lemma worker_decodes_once_witness :
  exists baton' : BlendBaton.t,
    sample_Work_Blend (sample_job [other_2x2; translucent_1x1] true 0)
    = Finished baton' [0; 1] /\
    NoDup [0; 1] /\ forall i : Z, In i [0; 1] -> 0 <= i < 2.
Proof.
  eexists. split; [vm_compute; reflexivity |].
  eapply (worker_decodes_once sample_jpeg sample_png8_pal sample_png8_hex sample_png8_oct
            sample_png sample_create (fun _ => true) sample_fmod
            (sample_job [other_2x2; translucent_1x1] true 0)).
  vm_compute. reflexivity.
Defined.

Lemma blank_canvas_job_witness :
  completion (sample_Work_Blend blank_2x1)
  = Some {| callee := FunctionV 0; argv := [Null; BufferV [xff; xff]; ArrayV []] |}.
Proof.
  unfold sample_Work_Blend.
  rewrite blank_canvas_job; try reflexivity; unfold Int.max; cbn; lia.
Defined.

(** ** [Work_Blend]: the matte *)

Section Matte.

Variable save_as_jpeg : Z -> image_data_32 -> encode_result.
Variable save_as_png8_pal : image_data_32 -> Palette -> Z -> Z -> bool -> encode_result.
Variable save_as_png8_hex :
  image_data_32 -> Z -> Z -> Z -> Z -> Double.t -> bool -> encode_result.
Variable save_as_png8_oct : image_data_32 -> Z -> Z -> Z -> Z -> bool -> encode_result.
Variable save_as_png : image_data_32 -> Z -> Z -> bool -> bool -> encode_result.
Variable create : list byte -> option ImageReader.
Variable malloc_succeeds : Z -> bool.
Variable fmod : Double.t -> Double.t -> Double.t.

(** One iteration that goes on, the flag being set: it clears the flag
    exactly when it leaves the layer as an opaque cover of the canvas; and
    a layer it decodes finds a canvas of positive width and height. *)
Lemma examine_flag (image image1 : Image.t) (index : Z) (st st1 : WalkState) :
  fresh image -> ws_alpha st = true ->
  examine create image index st = Continue st1 image1 ->
  (ws_alpha st1 = false <-> opaque_cover (ws_baton st1) image1) /\
  (Image.reader image1 <> None ->
   0 < BlendBaton.width (ws_baton st1) /\ 0 < BlendBaton.height (ws_baton st1)).
Proof.
  intros Hfresh Halpha. unfold examine.
  destruct (create (Image.data image)) as [layer |]; [| discriminate].
  destruct ((rd_width layer =? 0) || (rd_height layer =? 0)); [discriminate |].
  destruct (Int.fits _ && Int.fits _); cbn [negb]; [| discriminate].
  set (vw := to_int (rd_width layer) + Image.x image).
  set (vh := to_int (rd_height layer) + Image.y image).
  cbn [BlendBaton.width BlendBaton.height BlendBaton.set_width BlendBaton.set_height].
  set (W := seed (BlendBaton.width (ws_baton st)) vw).
  set (H := seed (BlendBaton.height (ws_baton st)) vh).
  destruct (Z.leb_spec vw 0) as [Hvw | Hvw]; cbn [orb].
  1: destruct (Z.leb_spec vh 0) as [Hvh | Hvh]; cbn [orb].
  3: destruct (Z.leb_spec vh 0) as [Hvh | Hvh]; cbn [orb].
  4: destruct (Z.leb_spec W (Image.x image)) as [Hx | Hx]; cbn [orb].
  5: destruct (Z.leb_spec H (Image.y image)) as [Hy | Hy]; cbn [orb].
  1-5: intros [= <- <-]; cbn [ws_alpha ws_baton]; unfold fresh in Hfresh; split;
    [split; [rewrite Halpha; discriminate
            | intros (layer' & Hr & _); rewrite Hfresh in Hr; discriminate]
    | intros Hr; contradiction].
  match goal with |- context [if ?c then Leave _ else _] => destruct c end;
    [discriminate |].
  destruct (rd_decode layer) as [message | warnings surface]; [discriminate |].
  intros [= <- <-].
  cbn [ws_alpha ws_baton BlendBaton.width BlendBaton.height BlendBaton.set_warnings
       BlendBaton.set_width BlendBaton.set_height].
  fold W H.
  assert (HW : 0 < W).
  { subst W. unfold seed. destruct (Z.leb_spec (BlendBaton.width (ws_baton st)) 0); lia. }
  assert (HH : 0 < H).
  { subst H. unfold seed. destruct (Z.leb_spec (BlendBaton.height (ws_baton st)) 0); lia. }
  split; [| intros _; split; assumption].
  unfold opaque_cover.
  cbn [Image.reader Image.x Image.y Image.width Image.height BlendBaton.width
       BlendBaton.height BlendBaton.set_warnings BlendBaton.set_width BlendBaton.set_height].
  fold vw vh. rewrite Halpha.
  destruct (rd_alpha layer) eqn:Ea; cbn [negb andb].
  { split; [discriminate |]. intros (layer' & [= <-] & Hopaque & _). congruence. }
  destruct (Z.leb_spec (Image.x image) 0) as [Hx0 | Hx0]; cbn [andb].
  2:{ split; [discriminate |]. intros (layer' & _ & _ & Hc & _). lia. }
  destruct (Z.leb_spec W vw) as [HcW | HcW]; cbn [andb].
  2:{ split; [discriminate |]. intros (layer' & _ & _ & _ & _ & Hc & _). lia. }
  destruct (Z.leb_spec (Image.y image) 0) as [Hy0 | Hy0]; cbn [andb].
  2:{ split; [discriminate |]. intros (layer' & _ & _ & _ & Hc & _). lia. }
  destruct (Z.leb_spec H vh) as [HcH | HcH].
  2:{ split; [discriminate |]. intros (layer' & _ & _ & _ & _ & _ & Hc). lia. }
  split; [| reflexivity]. intros _. exists layer.
  repeat apply conj; try reflexivity; assumption.
Qed.

(** A canvas of positive width and height is kept, so a layer covers it
    at the end of the walk as it did when it was examined. *)
Lemma opaque_cover_extends (b b' : BlendBaton.t) (image : Image.t) :
  extends b b' -> 0 < BlendBaton.width b -> 0 < BlendBaton.height b ->
  (opaque_cover b image <-> opaque_cover b' image).
Proof.
  intros (_ & _ & _ & _ & Hw & Hh & _) HW HH. unfold opaque_cover.
  rewrite (Hw HW), (Hh HH). reflexivity.
Qed.

(** The walk, the flag being set at its start: the flag is cleared at
    its end exactly when one of the layers it leaves is an opaque cover of
    the canvas. *)
Lemma walk_flag (rimages rimages' : list Image.t) (index : Z) (st st' : WalkState) :
  Forall fresh rimages -> ws_alpha st = true ->
  walk create rimages index st = Fell st' rimages' ->
  (ws_alpha st' = false <-> Exists (opaque_cover (ws_baton st')) rimages').
Proof.
  revert rimages' index st.
  induction rimages as [| image rest IH]; intros rimages' index st Hfresh Halpha; cbn [walk].
  - intros [= <- <-]. split; [rewrite Halpha; discriminate |].
    intros Hex. inversion Hex.
  - rewrite Halpha. cbn [negb].
    apply Forall_cons_iff in Hfresh. destruct Hfresh as [Himage Hrest].
    destruct (examine create image index st) as [st1 image1 | st1 |] eqn:Ex;
      [| discriminate | discriminate].
    destruct (examine_flag _ _ _ _ _ Himage Halpha Ex) as [Hflag Hdims].
    pose proof (walk_extends create rest (index - 1) st1) as Hext.
    destruct (ws_alpha st1) eqn:Ea1.
    + destruct (walk create rest (index - 1) st1) as [st2 rest' | st2 rest' |] eqn:Ew;
        cbn [keep]; [| discriminate | discriminate].
      intros [= <- <-]. destruct Hext as [Hext _].
      pose proof (IH rest' (index - 1) st1 Hrest Ea1 Ew) as IH'.
      rewrite Exists_cons.
      assert (Hnot : ~ opaque_cover (ws_baton st2) image1).
      { intros Hcover. pose proof Hcover as (layer & Hr & _).
        destruct Hdims as [HW HH]; [congruence |].
        apply (opaque_cover_extends _ _ image1 Hext HW HH) in Hcover.
        apply Hflag in Hcover. discriminate Hcover. }
      tauto.
    + rewrite (walk_stopped create rest (index - 1) st1 Ea1). cbn [keep].
      intros [= <- <-]. split; [| intros _; exact Ea1].
      intros _. apply Exists_cons_hd. apply Hflag. reflexivity.
Qed.


End Matte.


(** ** The tint pass on greys *)

Lemma same_double_eq (a b : Double.t) : same_double a b = true -> a = b.
Proof.
  destruct a as [s | s | | s m e], b as [s' | s' | | s' m' e']; cbn [same_double];
    try discriminate; try reflexivity.
  - intros H. apply Bool.eqb_prop in H. congruence.
  - intros H. apply Bool.eqb_prop in H. congruence.
  - intros H. apply andb_true_iff in H. destruct H as [H He].
    apply andb_true_iff in H. destruct H as [Hs Hm].
    apply Bool.eqb_prop in Hs. apply Pos.eqb_eq in Hm. apply Z.eqb_eq in He. congruence.
Qed.

Lemma grey_round_trip_all : forallb grey_round_trip (int_range 0 256) = true.
Proof. vm_compute. reflexivity. Qed.

Lemma grey_round_trip_byte (v : Z) : 0 <= v <= 255 -> grey_round_trip v = true.
Proof.
  intros Hv. pose proof grey_round_trip_all as H. rewrite forallb_forall in H.
  apply H. apply in_int_range. lia.
Qed.

(** A grey has no hue and no saturation, and its lightness is the
    quotient of its level by 255, for every byte [v]. *)
Theorem rgb2hsl_grey (v : Z) :
  0 <= v <= 255 ->
  rgb2hsl v v v = (Double.zero, Double.zero, Double.div (Double.of_int v) (Double.of_int 255)).
Proof.
  intros Hv. pose proof (grey_round_trip_byte v Hv) as H. unfold grey_round_trip in H.
  destruct (rgb2hsl v v v) as [[h s] l].
  apply andb_true_iff in H. destruct H as [H _].
  apply andb_true_iff in H. destruct H as [H _].
  apply andb_true_iff in H. destruct H as [H _].
  apply andb_true_iff in H. destruct H as [H _].
  apply andb_true_iff in H. destruct H as [H Hl].
  apply andb_true_iff in H. destruct H as [Hh Hs].
  apply same_double_eq in Hh, Hs, Hl. subst h s l. reflexivity.
Qed.

Lemma rgb2hsl_grey_witness :
  rgb2hsl 128 128 128 = (Double.zero, Double.zero, S754_finite false 4521260802379792 (-53)).
Proof. rewrite rgb2hsl_grey by lia. vm_compute. reflexivity. Defined.

Section TintFacts.

Variable fmod : Double.t -> Double.t -> Double.t.
Hypothesis fmod_range : fmod_below_one fmod.

(** The conversion back of a colour without saturation, in terms of the
    conversion of its lightness to [unsigned]. *)
Lemma grey_channels_value (h s l : Double.t) (rgb : Z * Z * Z) (v : Z) :
  Double.eqb s Double.zero = true ->
  Double.valid l = true ->
  Double.leb Double.zero l = true -> Double.leb l (Double.of_int 1) = true ->
  Double.to_unsigned (Double.mul l (Double.of_int 255)) = Some v ->
  hsl2rgb fmod h s l rgb = Some (v, v, v).
Proof.
  intros Hs Hvalid H0 H1 Hv.
  assert (Es : exists ss, s = S754_zero ss).
  { destruct s as [ss | ss | | ss ms es].
    - eexists; reflexivity.
    - destruct ss; discriminate Hs.
    - discriminate Hs.
    - destruct ss; discriminate Hs. }
  destruct Es as [ss ->].
  rewrite of_int_1 in H1.
  unfold hsl2rgb.
  change (negb (Double.to_bool (S754_zero ss))) with true. cbv iota.
  rewrite Hv.
  destruct l as [sl | sl | | sl m e].
  - assert (E255 : forall c, Double.to_unsigned (Double.mul (S754_zero c) (Double.of_int 255))
                             = Some 0)
      by (intros c; rewrite of_int_255; reflexivity).
    rewrite E255 in Hv. injection Hv as <-.
    change (Double.leb (S754_zero sl) Double.lit_0_5) with true. cbv iota.
    rewrite of_int_1, of_int_2.
    change (Double.add (S754_zero ss) (S754_finite false 4503599627370496 (-52)))
      with (S754_finite false 4503599627370496 (-52)).
    change (Double.mul (S754_zero sl) (S754_finite false 4503599627370496 (-52)))
      with (S754_zero (xorb sl false)).
    change (Double.mul (S754_zero sl) (S754_finite false 4503599627370496 (-51)))
      with (S754_zero (xorb sl false)).
    assert (Em1 : exists a, Double.sub (S754_zero (xorb sl false)) (S754_zero (xorb sl false))
                            = S754_zero a)
      by (destruct sl; eexists; reflexivity).
    destruct Em1 as [a ->].
    destruct (hueToRGB_zero fmod fmod_range a (xorb sl false)
                (Double.add h Double.lit_0_33333)) as [c1 ->].
    destruct (hueToRGB_zero fmod fmod_range a (xorb sl false) h) as [c2 ->].
    destruct (hueToRGB_zero fmod fmod_range a (xorb sl false)
                (Double.sub h Double.lit_0_33333)) as [c3 ->].
    rewrite !E255. reflexivity.
  - destruct sl; discriminate.
  - discriminate.
  - destruct sl; [discriminate |].
    cbn [Double.valid valid_binary] in Hvalid.
    pose proof (at_most_one_exponent m e H1) as He.
    assert (Em2 : (if Double.leb (S754_finite false m e) Double.lit_0_5
                   then Double.mul (S754_finite false m e)
                          (Double.add (S754_zero ss) (Double.of_int 1))
                   else Double.sub (Double.add (S754_finite false m e) (S754_zero ss))
                          (Double.mul (S754_finite false m e) (S754_zero ss)))
                  = S754_finite false m e).
    { destruct (Double.leb (S754_finite false m e) Double.lit_0_5).
      - rewrite of_int_1.
        change (Double.add (S754_zero ss) (S754_finite false 4503599627370496 (-52)))
          with (Double.of_int 1).
        apply mul_one. exact Hvalid.
      - reflexivity. }
    rewrite Em2, (double_minus_self m e Hvalid He), !(hueToRGB_flat fmod fmod_range), Hv.
    reflexivity.
Qed.

(** The tint pass of the worker leaves every grey pixel as it is: a word
    whose red, green and blue bytes are equal goes through [rgb2hsl] and
    [hsl2rgb] unchanged, alpha byte included, whatever [fmod] returns
    within its range. *)
Theorem tint_keeps_greys (rgba : Z) :
  U32.in_range rgba ->
  green_of rgba = red_of rgba -> blue_of rgba = red_of rgba ->
  tint_pixel fmod rgba = Some rgba.
Proof.
  intros Hrange Hg Hb.
  destruct (argb_word_of_channels rgba Hrange) as (Eword & Ha & _ & _ & Hr & _).
  unfold tint_pixel. cbv zeta.
  change (Z.land (U32.shr rgba 24) 255) with (alpha_of rgba).
  change (Z.land (U32.shr rgba 16) 255) with (blue_of rgba).
  change (Z.land (U32.shr rgba 8) 255) with (green_of rgba).
  change (Z.land rgba 255) with (red_of rgba).
  rewrite Hg, Hb.
  pose proof (grey_round_trip_byte (red_of rgba) Hr) as Hcheck.
  unfold grey_round_trip in Hcheck.
  destruct (rgb2hsl (red_of rgba) (red_of rgba) (red_of rgba)) as [[h s] l].
  apply andb_true_iff in Hcheck. destruct Hcheck as [Hcheck Hu].
  apply andb_true_iff in Hcheck. destruct Hcheck as [Hcheck H1].
  apply andb_true_iff in Hcheck. destruct Hcheck as [Hcheck H0].
  apply andb_true_iff in Hcheck. destruct Hcheck as [Hcheck Hvalid].
  apply andb_true_iff in Hcheck. destruct Hcheck as [Hcheck _].
  apply andb_true_iff in Hcheck. destruct Hcheck as [_ Hs].
  apply same_double_eq in Hs. subst s.
  destruct (Double.to_unsigned (Double.mul l (Double.of_int 255))) as [u |] eqn:Eu;
    [| discriminate].
  apply Z.eqb_eq in Hu. subst u.
  rewrite (grey_channels_value h Double.zero l _ (red_of rgba) eq_refl Hvalid H0 H1 Eu).
  rewrite pack_argb_exact by assumption.
  f_equal. symmetry. etransitivity; [exact Eword |]. rewrite Hg, Hb. reflexivity.
Qed.

End TintFacts.

Lemma tint_keeps_greys_witness : tint_pixel sample_fmod 0x80C0C0C0 = Some 0x80C0C0C0.
Proof.
  apply (tint_keeps_greys sample_fmod sample_fmod_below_one).
  - unfold U32.in_range, U32.modulus. lia.
  - reflexivity.
  - reflexivity.
Defined.

(** ** A job of one layer, from the worker to the encoder *)

Lemma to_int_small (u : Z) : u < 2 ^ 31 -> to_int u = u.
Proof. intros H. unfold to_int. destruct (Z.ltb_spec u (2 ^ 31)); [reflexivity | lia]. Qed.

Lemma get_nth_error {A : Type} (l : list A) (n : nat) : get l (Z.of_nat n) = nth_error l n.
Proof.
  unfold get. destruct (Z.ltb_spec (Z.of_nat n) 0) as [H | _]; [lia |].
  rewrite Nat2Z.id. reflexivity.
Qed.

Lemma list_eq_by_get {A : Type} (l l' : list A) :
  List.length l = List.length l' ->
  (forall i : Z, 0 <= i < Z.of_nat (List.length l) -> get l i = get l' i) ->
  l = l'.
Proof.
  intros Hlen Hget. apply nth_error_ext. intros n.
  destruct (Nat.lt_ge_cases n (List.length l)) as [Hlt | Hge].
  - rewrite <- !get_nth_error. apply Hget. lia.
  - transitivity (@None A); [| symmetry]; apply nth_error_None; lia.
Qed.

Section SingleLayer.

Variable save_as_jpeg : Z -> image_data_32 -> encode_result.
Variable save_as_png8_pal : image_data_32 -> Palette -> Z -> Z -> bool -> encode_result.
Variable save_as_png8_hex :
  image_data_32 -> Z -> Z -> Z -> Z -> Double.t -> bool -> encode_result.
Variable save_as_png8_oct : image_data_32 -> Z -> Z -> Z -> Z -> bool -> encode_result.
Variable save_as_png : image_data_32 -> Z -> Z -> bool -> bool -> encode_result.
Variable create : list byte -> option ImageReader.
Variable malloc_succeeds : Z -> bool.
Variable fmod : Double.t -> Double.t -> Double.t.

(** The blit of a layer that has the size of the canvas and sits at its
    origin, on a canvas whose words all hold the same thing. *)
Lemma blit_full_canvas (baton : BlendBaton.t) (image : Image.t) (layer : ImageReader)
  (word : cell) :
  Image.reader image = Some layer ->
  Image.x image = 0 -> Image.y image = 0 ->
  0 < Image.width image -> 0 < Image.height image ->
  BlendBaton.width baton = Image.width image ->
  BlendBaton.height baton = Image.height image ->
  Image.width image * Image.height image + Image.width image <= Int.max ->
  Z.of_nat (List.length (rd_surface layer)) = Image.width image * Image.height image ->
  Blend_Composite (repeat word (Z.to_nat (Image.width image * Image.height image)))
    baton image
  = Some (map (Blend_CompositePixel word) (rd_surface layer)).
Proof.
  intros Hreader Hx Hy Hw Hh HW HH Hfits Hsurface.
  set (pixels := Image.width image * Image.height image) in *.
  assert (Hpixels : 0 < pixels) by (subst pixels; nia).
  assert (Hready : blit_ready (repeat word (Z.to_nat pixels)) baton image layer).
  { unfold blit_ready. rewrite repeat_length, HW, HH, Hx, Hy.
    repeat apply conj; try assumption; try lia. }
  assert (Hsized : int_sized baton image).
  { unfold int_sized. rewrite HW, HH, Hx, Hy. fold pixels.
    assert (Image.height image <= pixels) by (subst pixels; nia).
    repeat apply conj; lia. }
  pose proof (blit_ready_height _ _ _ _ Hready) as Hheight.
  destruct (blit_ready_run _ _ _ _ Hready (blit_fits_sized _ _ _ _ Hready Hsized))
    as (target' & Hrun & Hlen & Hin & _).
  rewrite Hrun. f_equal. rewrite repeat_length in Hlen.
  apply list_eq_by_get.
  { rewrite Hlen, length_map. lia. }
  intros i Hi. rewrite Hlen in Hi.
  destruct (Hin i i) as (t & s & Ht & Hs & Hres).
  { apply blit_accesses_spec; [exact Hheight |].
    exists (i / Image.width image), (i mod Image.width image).
    unfold blit_rect. cbn [blit_width blit_height sourceX sourceY targetX targetY].
    rewrite HW, HH, Hx, Hy. cbn [Z.opp Z.max Z.add].
    replace (Z.max 0 (0 + Image.width image - Image.width image)) with 0 by lia.
    replace (Z.max 0 (0 + Image.height image - Image.height image)) with 0 by lia.
    pose proof (Z.mod_pos_bound i (Image.width image) Hw) as Hmod.
    pose proof (Z.div_mod i (Image.width image) ltac:(lia)) as Hdiv.
    assert (Hrow : 0 <= i / Image.width image < Image.height image).
    { split; [apply Z.div_pos; lia |]. apply Z.div_lt_upper_bound; [lia |].
      subst pixels. lia. }
    split; [lia |]. split; [lia |]. split; lia. }
  rewrite get_repeat in Ht by lia. injection Ht as <-.
  rewrite Hres. unfold get in Hs |- *.
  destruct (Z.ltb_spec i 0) as [Hneg | _]; [lia |].
  rewrite nth_error_map, Hs. reflexivity.
Qed.

(** The job of one layer at the origin, the caller having left the
    width and the height unset and asked for no tint, when the layer is
    not passed through (the job reencodes or the layer has transparency)
    and its number of pixels, with one more row, fits an [int].
    The canvas takes the size of the layer; the encoder receives, for each
    pixel of the layer in order, its composite with the matte when the
    decoder reports transparency, and with a word that was never written
    when it does not (so that an opaque pixel arrives unchanged); the
    layer's warnings are reported under [Layer 0]. *)
Theorem single_layer_job (baton : BlendBaton.t) (image : Image.t) (layer : ImageReader)
  (warnings : list string) (surface : list Z) :
  BlendBaton.images baton = [image] ->
  Image.x image = 0 -> Image.y image = 0 ->
  BlendBaton.width baton = 0 -> BlendBaton.height baton = 0 ->
  identity (BlendBaton.tint baton) = true ->
  BlendBaton.reencode baton || rd_alpha layer = true ->
  create (Image.data image) = Some layer ->
  0 < rd_width layer < 2 ^ 31 -> 0 < rd_height layer < 2 ^ 31 ->
  rd_width layer * rd_height layer + rd_width layer <= Int.max ->
  rd_decode layer = Decoded warnings surface ->
  Z.of_nat (List.length surface) = rd_width layer * rd_height layer ->
  malloc_succeeds (rd_width layer * rd_height layer) = true ->
  Work_Blend save_as_jpeg save_as_png8_pal save_as_png8_hex save_as_png8_oct save_as_png
    create malloc_succeeds fmod baton
  = Finished
      (Blend_Encode save_as_jpeg save_as_png8_pal save_as_png8_hex save_as_png8_oct
         save_as_png
         {| id_width := rd_width layer; id_height := rd_height layer;
            id_data := map (Blend_CompositePixel
                              (if rd_alpha layer then Some (BlendBaton.matte baton)
                               else None))
                         surface |}
         (BlendBaton.set_images
            (BlendBaton.set_warnings
               (BlendBaton.set_height (BlendBaton.set_width baton (rd_width layer))
                  (rd_height layer))
               (BlendBaton.warnings baton ++ map (layer_warning 0) warnings))
            [{| Image.data := Image.data image; Image.x := Image.x image;
                Image.y := Image.y image; Image.width := rd_width layer;
                Image.height := rd_height layer; Image.reader := Some layer |}])
         (rd_alpha layer))
      [0].
Proof.
  intros Himages Hx Hy HW HH Hid Hpass Hcreate Hw Hh Hfits Hdecode Hsurface Hmalloc.
  assert (Hpixels : 0 < rd_width layer * rd_height layer) by nia.
  assert (Hfw : Int.fits (rd_width layer) = true)
    by (apply fits_iff; unfold Int.min, Int.max; lia).
  assert (Hfh : Int.fits (rd_height layer) = true)
    by (apply fits_iff; unfold Int.min, Int.max; lia).
  assert (Hfp : Int.fits (rd_width layer * rd_height layer) = true)
    by (apply fits_iff; unfold Int.min; lia).
  unfold Work_Blend, initial_walk_state. rewrite Himages. cbn [rev app List.length].
  change (Z.of_nat 1 - 1) with 0.
  cbn [walk ws_alpha negb].
  unfold examine. rewrite Hcreate.
  destruct (Z.eqb_spec (rd_width layer) 0) as [E | _]; [lia |].
  destruct (Z.eqb_spec (rd_height layer) 0) as [E | _]; [lia |].
  cbn [orb ws_baton ws_size ws_decoded].
  rewrite !to_int_small by lia. rewrite Hx, Hy, !Z.add_0_r.
  rewrite Hfw, Hfh. cbn [andb negb].
  cbn [BlendBaton.width BlendBaton.height BlendBaton.set_width BlendBaton.set_height
       BlendBaton.set_images BlendBaton.reencode BlendBaton.stream BlendBaton.warnings
       BlendBaton.set_warnings].
  rewrite HW, HH. unfold seed. cbn [Z.leb Z.compare].
  rewrite !Z.max_r by lia.
  destruct (Z.leb_spec (rd_width layer) 0) as [E | _]; [lia |].
  destruct (Z.leb_spec (rd_height layer) 0) as [E | _]; [lia |].
  cbn [orb].
  assert (Hshort : (0 =? 0) && negb (rd_alpha layer) && negb (BlendBaton.reencode baton)
                   = false).
  { destruct (rd_alpha layer), (BlendBaton.reencode baton); try reflexivity.
    discriminate Hpass. }
  rewrite Hshort. cbn [andb]. rewrite Hdecode.
  cbn [Z.leb Z.compare andb]. rewrite !Z.leb_refl. rewrite !andb_true_r.
  cbn [walk keep]. unfold blend_images. cbv zeta.
  cbn [ws_baton ws_alpha ws_decoded rev app BlendBaton.width BlendBaton.height
       BlendBaton.set_width BlendBaton.set_height BlendBaton.set_images
       BlendBaton.set_warnings BlendBaton.matte BlendBaton.tint].
  rewrite Hfp. cbn [negb].
  destruct (Z.leb_spec (rd_width layer * rd_height layer) 0) as [E | _]; [lia |].
  rewrite Hmalloc. cbn [negb]. unfold blend_onto.
  cbn [BlendBaton.width BlendBaton.height BlendBaton.set_width BlendBaton.set_height
       BlendBaton.set_images BlendBaton.set_warnings BlendBaton.matte BlendBaton.tint].
  rewrite Hid. cbn [negb].
  unfold composite_images.
  cbn [BlendBaton.images BlendBaton.set_images fold_left Image.reader].
  set (word := if rd_alpha layer then Some (BlendBaton.matte baton) else None).
  assert (Hcanvas : canvas_init (if negb (rd_alpha layer) then false else true)
                      (BlendBaton.matte baton) (rd_width layer * rd_height layer)
                    = repeat word (Z.to_nat (rd_width layer * rd_height layer))).
  { subst word. destruct (rd_alpha layer); cbn [negb];
      [apply canvas_init_filled | apply canvas_init_untouched]. }
  rewrite Hcanvas.
  match goal with
  | |- context [Blend_Composite _ ?b ?i] =>
      pose proof (blit_full_canvas b i layer word eq_refl eq_refl eq_refl
                    ltac:(cbn; lia) ltac:(cbn; lia) eq_refl eq_refl
                    ltac:(cbn [Image.width Image.height]; exact Hfits)) as Hblit
  end.
  cbn [Image.width Image.height] in Hblit.
  unfold rd_surface in Hblit. rewrite Hdecode in Hblit.
  match goal with
  | |- match ?c with Some _ => _ | None => _ end = _ =>
      replace c with (Some (map (Blend_CompositePixel word) surface))
        by (symmetry; exact (Hblit Hsurface))
  end.
  assert (Halpha : (if negb (rd_alpha layer) then false else true) = rd_alpha layer)
    by (destruct (rd_alpha layer); reflexivity).
  rewrite Halpha. reflexivity.
Qed.

End SingleLayer.

Lemma single_layer_job_witness :
  completion (sample_Work_Blend (sample_job [other_2x2] true 0))
  = Some {| callee := FunctionV 0;
            argv := [Null; BufferV [x05; x05; x05; x05]; ArrayV []] |}.
Proof.
  unfold sample_Work_Blend.
  rewrite (single_layer_job sample_jpeg sample_png8_pal sample_png8_hex sample_png8_oct
             sample_png sample_create (fun _ => true) sample_fmod
             (sample_job [other_2x2] true 0) other_2x2 (sample_reader other_2x2)
             [] (repeat 0xFF000005 4));
    try reflexivity; unfold Int.max; cbn; lia.
Defined.

Lemma png_quality_checked_with_format_witness :
  sample_Blend [ArrayV [BufferV [x01]; BufferV [x02]];
                ObjectV [("format"%string, Str "png"); ("quality"%string, Number 300)];
                FunctionV 7]
  = Throws "PNG images must be quantized between 2 and 256 colors.".
Proof.
  apply (png_quality_checked_with_format (fun _ => 0) (fun _ => 0)).
  - reflexivity.
  - reflexivity.
  - reflexivity.
  - right. vm_compute. reflexivity.
Defined.

(** ** [Work_Blend]: defined behaviour *)

Lemma kept_ok_extends (b b' : BlendBaton.t) (image : Image.t) :
  extends b b' -> kept_ok b image -> kept_ok b' image.
Proof.
  intros (_ & _ & _ & _ & Hw & Hh & _) Hok. unfold kept_ok in *.
  destruct (Image.reader image) as [layer |]; [| exact I].
  destruct Hok as (H1 & H2 & H3 & HW & HH & H4 & H5 & H6 & H7 & H8).
  unfold int_sized in *.
  rewrite (Hw HW), (Hh HH). repeat apply conj; try assumption; apply H8.
Qed.

Lemma fresh_kept_ok (b : BlendBaton.t) (images : list Image.t) :
  Forall fresh images -> Forall (kept_ok b) images.
Proof.
  intros H. eapply Forall_impl; [| exact H].
  intros image Hfresh. unfold kept_ok. unfold fresh in Hfresh. rewrite Hfresh. exact I.
Qed.

Lemma seed_modest (dimension visible : Z) :
  0 <= dimension <= 2 ^ 15 -> visible <= 2 ^ 15 -> 0 <= seed dimension visible <= 2 ^ 15.
Proof. intros Hd Hv. unfold seed. destruct (Z.leb_spec dimension 0); lia. Qed.

Section WorkerDefined.

Variable save_as_jpeg : Z -> image_data_32 -> encode_result.
Variable save_as_png8_pal : image_data_32 -> Palette -> Z -> Z -> bool -> encode_result.
Variable save_as_png8_hex :
  image_data_32 -> Z -> Z -> Z -> Z -> Double.t -> bool -> encode_result.
Variable save_as_png8_oct : image_data_32 -> Z -> Z -> Z -> Z -> bool -> encode_result.
Variable save_as_png : image_data_32 -> Z -> Z -> bool -> bool -> encode_result.
Variable create : list byte -> option ImageReader.
Variable malloc_succeeds : Z -> bool.
Variable fmod : Double.t -> Double.t -> Double.t.

Hypothesis create_total : forall data : list byte, create data <> None.
Hypothesis create_sound :
  forall (data : list byte) (layer : ImageReader),
    create data = Some layer -> sound_reader layer.

(** One iteration on a modest layer leaves the layer undecoded or decoded
    inside the canvas, the canvas at most twice as large as a modest one,
    and never meets a null reader or an overflow. *)
Lemma examine_kept (image : Image.t) (index : Z) (st : WalkState) :
  fresh image -> modest_layer create image ->
  0 <= BlendBaton.width (ws_baton st) <= 2 ^ 15 ->
  0 <= BlendBaton.height (ws_baton st) <= 2 ^ 15 ->
  match examine create image index st with
  | Continue st' image' =>
      kept_ok (ws_baton st') image' /\
      0 <= BlendBaton.width (ws_baton st') <= 2 ^ 15 /\
      0 <= BlendBaton.height (ws_baton st') <= 2 ^ 15
  | Leave _ => True
  | NullLayer => False
  end.
Proof.
  intros Hfresh (Hmx & Hmy & Hml) HmW HmH. unfold examine.
  destruct (create (Image.data image)) as [layer |] eqn:Hcreate;
    [| exact (create_total _ Hcreate)].
  destruct (create_sound _ _ Hcreate) as (Hw & Hh & Hsurface).
  destruct (Hml layer eq_refl) as [Hmw Hmh].
  destruct ((rd_width layer =? 0) || (rd_height layer =? 0)); [exact I |].
  rewrite !to_int_small by lia.
  set (vw := rd_width layer + Image.x image).
  set (vh := rd_height layer + Image.y image).
  assert (Hfw : Int.fits vw = true)
    by (apply fits_iff; unfold Int.min, Int.max; subst vw; lia).
  assert (Hfh : Int.fits vh = true)
    by (apply fits_iff; unfold Int.min, Int.max; subst vh; lia).
  rewrite Hfw, Hfh. cbn [andb negb].
  cbn [BlendBaton.width BlendBaton.height BlendBaton.set_width BlendBaton.set_height].
  pose proof (seed_modest (BlendBaton.width (ws_baton st)) vw HmW ltac:(subst vw; lia))
    as HmW'.
  pose proof (seed_modest (BlendBaton.height (ws_baton st)) vh HmH ltac:(subst vh; lia))
    as HmH'.
  set (W := seed (BlendBaton.width (ws_baton st)) vw) in *.
  set (H := seed (BlendBaton.height (ws_baton st)) vh) in *.
  assert (Hskip : kept_ok
                    (BlendBaton.set_height (BlendBaton.set_width (ws_baton st) W) H) image /\
                  0 <= BlendBaton.width
                         (BlendBaton.set_height (BlendBaton.set_width (ws_baton st) W) H)
                  <= 2 ^ 15 /\
                  0 <= BlendBaton.height
                         (BlendBaton.set_height (BlendBaton.set_width (ws_baton st) W) H)
                  <= 2 ^ 15).
  { split; [| split; [exact HmW' | exact HmH']].
    unfold kept_ok. unfold fresh in Hfresh. rewrite Hfresh. exact I. }
  destruct (Z.leb_spec vw 0) as [Hvw | Hvw]; cbn [orb]; [exact Hskip |].
  destruct (Z.leb_spec vh 0) as [Hvh | Hvh]; cbn [orb]; [exact Hskip |].
  destruct (Z.leb_spec W (Image.x image)) as [Hx | Hx]; cbn [orb]; [exact Hskip |].
  destruct (Z.leb_spec H (Image.y image)) as [Hy | Hy]; cbn [orb]; [exact Hskip |].
  match goal with |- context [if ?c then Leave _ else _] => destruct c end; [exact I |].
  destruct (rd_decode layer) as [message | warnings surface] eqn:Hdecode; [exact I |].
  cbn [ws_baton BlendBaton.width BlendBaton.height BlendBaton.set_warnings
       BlendBaton.set_width BlendBaton.set_height].
  split; [| split; [exact HmW' | exact HmH']].
  unfold kept_ok, int_sized.
  cbn [Image.reader Image.width Image.height Image.x Image.y BlendBaton.width
       BlendBaton.height BlendBaton.set_warnings BlendBaton.set_width BlendBaton.set_height].
  unfold rd_surface. rewrite Hdecode.
  assert (HW : 0 < W).
  { subst W. unfold seed. destruct (Z.leb_spec (BlendBaton.width (ws_baton st)) 0); lia. }
  assert (HH : 0 < H).
  { subst H. unfold seed. destruct (Z.leb_spec (BlendBaton.height (ws_baton st)) 0); lia. }
  assert (Hwh : rd_width layer * rd_height layer <= 2 ^ 14 * 2 ^ 14)
    by (apply Z.mul_le_mono_nonneg; lia).
  assert (HWH : W * H <= 2 ^ 15 * 2 ^ 15) by (apply Z.mul_le_mono_nonneg; lia).
  subst vw vh. unfold Int.max.
  repeat apply conj; try lia. exact (Hsurface _ _ eq_refl).
Qed.

(** The loop over modest layers never meets a null reader or an
    overflow, and the layers it leaves are undecoded or decoded inside the
    final canvas. *)
Lemma walk_kept (rimages : list Image.t) (index : Z) (st : WalkState) :
  Forall fresh rimages -> Forall (modest_layer create) rimages ->
  0 <= BlendBaton.width (ws_baton st) <= 2 ^ 15 ->
  0 <= BlendBaton.height (ws_baton st) <= 2 ^ 15 ->
  match walk create rimages index st with
  | Fell st' rimages' =>
      Forall (kept_ok (ws_baton st')) rimages' /\
      0 <= BlendBaton.width (ws_baton st') <= 2 ^ 15 /\
      0 <= BlendBaton.height (ws_baton st') <= 2 ^ 15
  | Returned _ _ => True
  | NullReader => False
  end.
Proof.
  revert index st.
  induction rimages as [| image rest IH]; intros index st Hfresh Hmodest HmW HmH; cbn [walk].
  - split; [constructor | split; assumption].
  - destruct (negb (ws_alpha st)).
    { split; [apply fresh_kept_ok; exact Hfresh | split; assumption]. }
    apply Forall_cons_iff in Hfresh. destruct Hfresh as [Himage Hrest].
    apply Forall_cons_iff in Hmodest. destruct Hmodest as [Hmimage Hmrest].
    pose proof (examine_kept image index st Himage Hmimage HmW HmH) as Hex.
    destruct (examine create image index st) as [st1 image1 | st1 |];
      [| exact I | exact Hex].
    destruct Hex as (Hok & HmW1 & HmH1).
    specialize (IH (index - 1) st1 Hrest Hmrest HmW1 HmH1).
    pose proof (walk_extends create rest (index - 1) st1) as Hext.
    destruct (walk create rest (index - 1) st1) as [st2 rest' | st2 rest' |];
      cbn [keep]; [| exact I | exact IH].
    destruct IH as (Hkept & HmW2 & HmH2).
    split; [| split; assumption].
    constructor; [| exact Hkept].
    destruct Hext as [Hext _]. exact (kept_ok_extends _ _ _ Hext Hok).
Qed.

(** Compositing the layers the loop leaves is defined. *)
Lemma composite_kept (b : BlendBaton.t) (images : list Image.t) (target : list cell) :
  Forall (kept_ok b) images ->
  Z.of_nat (List.length target) = BlendBaton.width b * BlendBaton.height b ->
  exists target' : list cell,
    fold_left
      (fun (target : option (list cell)) (image : Image.t) =>
         match target, Image.reader image with
         | None, _ => None
         | Some target, Some _ => Blend_Composite target b image
         | Some target, None => Some target
         end) images (Some target)
    = Some target'.
Proof.
  intros Hkept. revert target. induction Hkept as [| image images Hok _ IH];
    intros target Hlen; cbn [fold_left].
  - exists target. reflexivity.
  - unfold kept_ok in Hok. destruct (Image.reader image) as [layer |] eqn:Hreader;
      [| exact (IH target Hlen)].
    destruct Hok as (H1 & H2 & H3 & HW & HH & H4 & H5 & H6 & H7 & Hsized).
    assert (Hready : blit_ready target b image layer).
    { unfold blit_ready. repeat apply conj; assumption. }
    destruct (blit_ready_run target b image layer Hready
                (blit_fits_sized _ _ _ _ Hready Hsized)) as (target' & Hrun & Hlen' & _).
    rewrite Hrun. apply IH. rewrite Hlen'. exact Hlen.
Qed.


End WorkerDefined.

Lemma byte_value_range (b : byte) : 0 <= byte_value b < 256.
Proof. destruct b; vm_compute; split; congruence. Qed.

Lemma sample_create_total (data : list byte) : sample_create data <> None.
Proof.
  unfold sample_create.
  destruct data as [| w [| h [| a [| c rest]]]]; discriminate.
Qed.

Lemma sample_create_sound (data : list byte) (layer : ImageReader) :
  sample_create data = Some layer -> sound_reader layer.
Proof.
  unfold sample_create, sound_reader.
  destruct data as [| w [| h [| a [| c rest]]]]; intros [= <-];
    cbn [rd_width rd_height rd_decode]; try (repeat apply conj; try lia; discriminate).
  pose proof (byte_value_range w). pose proof (byte_value_range h).
  repeat apply conj; try lia.
  intros warnings surface [= _ <-]. rewrite repeat_length. nia.
Qed.

(** The layers of the toy format are modest wherever they are put within
    16384 pixels of the origin. *)
Lemma sample_modest_layer (data : list byte) (x y : Z) :
  - 2 ^ 14 <= x <= 2 ^ 14 -> - 2 ^ 14 <= y <= 2 ^ 14 ->
  modest_layer sample_create (Image.make data x y).
Proof.
  intros Hx Hy. unfold modest_layer. cbn [Image.make Image.x Image.y Image.data].
  split; [exact Hx |]. split; [exact Hy |].
  unfold sample_create.
  destruct data as [| w [| h [| a [| c rest]]]]; intros layer [= <-];
    cbn [rd_width rd_height]; try lia.
  pose proof (byte_value_range w). pose proof (byte_value_range h). lia.
Qed.


(** ** From the call to the completion *)

(** A queued job carries the caller's function and nothing else yet. *)
Lemma Blend_queued_start (Int32Value_other : Value -> Z) (stream_hex_other : string -> Z)
  (args : list Value) (baton : BlendBaton.t) :
  Blend Int32Value_other stream_hex_other args = Queues baton ->
  IsFunction (BlendBaton.callback baton) = true /\
  BlendBaton.warnings baton = [] /\ BlendBaton.stream baton = [].
Proof.
  unfold Blend.
  destruct (check_arguments args) as [[b0 options] | r] eqn:E0; cbn [bind fst snd];
    [| intros ->; destruct (check_arguments_Stop _ _ E0)].
  destruct (check_arguments_Go _ _ _ E0) as (layers & rest & callback & -> & Hf & ->).
  destruct (validate_options _ _ _ options) as [b1 | r] eqn:E1; cbn [bind];
    [| intros ->; destruct (validate_options_Stop _ _ _ _ _ E1)].
  destruct (validate_options_Go _ _ (BlendBaton.set_callback BlendBaton.new callback) b1
              options eq_refl eq_refl eq_refl E1)
    as ((F1 & _ & _ & F4 & F5) & _).
  destruct (check_layers b1 _) as [[] | r] eqn:E2; cbn [bind];
    [| intros ->; destruct (check_layers_Stop _ _ _ E2) as [[] | (bytes & _ & _ & [=])]].
  destruct (negb _); [intros [=] |].
  destruct ((BlendBaton.width b1 <? 0) || (BlendBaton.height b1 <? 0)); [intros [=] |].
  destruct (collect_images Int32Value_other _) as [images | r] eqn:E3; cbn [bind];
    [| intros ->; destruct (collect_images_Stop _ _ _ E3)].
  intros [= <-]. baton_fields. rewrite F1. repeat apply conj; assumption.
Qed.

(** From [Blend] to the callback: when a job that [Blend] queued comes
    out of the worker, [Work_AfterBlend] calls a function, the one the
    caller passed, with either one error whose message is not empty, or
    the null value, a buffer and an array of strings. *)
Theorem queued_job_completion (Int32Value_other : Value -> Z)
  (stream_hex_other : string -> Z)
  (save_as_jpeg : Z -> image_data_32 -> encode_result)
  (save_as_png8_pal : image_data_32 -> Palette -> Z -> Z -> bool -> encode_result)
  (save_as_png8_hex : image_data_32 -> Z -> Z -> Z -> Z -> Double.t -> bool -> encode_result)
  (save_as_png8_oct : image_data_32 -> Z -> Z -> Z -> Z -> bool -> encode_result)
  (save_as_png : image_data_32 -> Z -> Z -> bool -> bool -> encode_result)
  (create : list byte -> option ImageReader) (malloc_succeeds : Z -> bool)
  (fmod : Double.t -> Double.t -> Double.t)
  (args : list Value) (baton : BlendBaton.t) (call : Call) :
  Blend Int32Value_other stream_hex_other args = Queues baton ->
  completion (Work_Blend save_as_jpeg save_as_png8_pal save_as_png8_hex save_as_png8_oct
                save_as_png create malloc_succeeds fmod baton) = Some call ->
  IsFunction (callee call) = true /\
  (callee call = nth 1 args Undefined \/ callee call = nth 2 args Undefined) /\
  ((exists message : string, message <> EmptyString /\ argv call = [ErrorV message]) \/
   (exists (out : list byte) (warnings : list string),
       argv call = [Null; BufferV out; ArrayV (map Str warnings)])).
Proof.
  intros Hqueue Hdone.
  destruct (Blend_queued_start _ _ _ _ Hqueue) as (Hf & Hw & Hs).
  assert (Harg : BlendBaton.callback baton = nth 1 args Undefined \/
                 BlendBaton.callback baton = nth 2 args Undefined).
  { revert Hqueue. unfold Blend.
    destruct (check_arguments args) as [[b0 options] | r] eqn:E0; cbn [bind fst snd];
      [| intros ->; destruct (check_arguments_Stop _ _ E0)].
    assert (Hcb : BlendBaton.callback b0 = nth 1 args Undefined \/
                  BlendBaton.callback b0 = nth 2 args Undefined).
    { revert E0. unfold check_arguments.
      destruct args as [| a0 [| a1 [| a2 rest]]]; try discriminate;
        repeat split_match; try discriminate; intros [= <- _]; baton_fields;
        [left | right]; reflexivity. }
    destruct (validate_options _ _ b0 options) as [b1 | r] eqn:E1; cbn [bind];
      [| intros ->; destruct (validate_options_Stop _ _ _ _ _ E1)].
    destruct (check_arguments_Go _ _ _ E0) as (layers & rest & callback & -> & _ & ->).
    destruct (validate_options_Go _ _ (BlendBaton.set_callback BlendBaton.new callback) b1
                options eq_refl eq_refl eq_refl E1) as ((F1 & _) & _).
    destruct (check_layers b1 _) as [[] | r] eqn:E2; cbn [bind];
      [| intros ->; destruct (check_layers_Stop _ _ _ E2) as [[] | (bytes & _ & _ & [=])]].
    destruct (negb _); [intros [=] |].
    destruct ((BlendBaton.width b1 <? 0) || (BlendBaton.height b1 <? 0)); [intros [=] |].
    destruct (collect_images Int32Value_other _) as [images | r] eqn:E3; cbn [bind];
      [| intros ->; destruct (collect_images_Stop _ _ _ E3)].
    intros [= <-]. baton_fields. rewrite F1. exact Hcb. }
  destruct (Work_Blend _ _ _ _ _ _ _ _ baton) as [baton' decoded |] eqn:Erun;
    [| discriminate].
  destruct (Work_Blend_extends _ _ _ _ _ _ _ _ _ _ _ Erun)
    as ((Hcb & _ & _ & _ & _ & _ & [extra Hwarn] & [out Hout]) & _).
  cbn [completion] in Hdone. injection Hdone as <-. unfold Work_AfterBlend.
  destruct (BlendBaton.message baton') as [| c rest] eqn:Em; cbn [String.length Nat.eqb];
    cbn [callee argv]; rewrite Hcb.
  - split; [exact Hf |]. split; [exact Harg |]. right. eexists _, _. reflexivity.
  - split; [exact Hf |]. split; [exact Harg |]. left. eexists. split; [| reflexivity].
    discriminate.
Qed.

Lemma queued_job_completion_witness :
  exists call : Call,
    completion
      (sample_Work_Blend
         (sample_job [Image.make [x02; x02; x00; x05] 0 0; Image.make [x01; x01; x01; x09] 1 1]
            false 0))
    = Some call /\
    IsFunction (callee call) = true /\
    argv call = [Null; BufferV [x05; x05; x05; x07]; ArrayV []].
Proof.
  eexists. split; [vm_compute; reflexivity |].
  destruct (queued_job_completion (fun _ => 0) (fun _ => 0)
              sample_jpeg sample_png8_pal sample_png8_hex sample_png8_oct sample_png
              sample_create (fun _ => true) sample_fmod
              [ArrayV [BufferV [x02; x02; x00; x05];
                       ObjectV [("buffer"%string, BufferV [x01; x01; x01; x09]);
                                ("x"%string, Number 1); ("y"%string, Number 1)]];
               FunctionV 0]
              (sample_job [Image.make [x02; x02; x00; x05] 0 0;
                           Image.make [x01; x01; x01; x09] 1 1] false 0)
              _ ltac:(vm_compute; reflexivity) ltac:(vm_compute; reflexivity)) as [H _].
  split; [exact H | reflexivity].
Defined.

(** ** [Work_Blend]: the warnings *)

Lemma flat_map_ext_in {A B : Type} (f g : A -> list B) (l : list A) :
  (forall a : A, In a l -> f a = g a) -> flat_map f l = flat_map g l.
Proof.
  induction l as [| a l IH]; intros H; cbn [flat_map]; [reflexivity |].
  rewrite (H a (or_introl eq_refl)), IH; [reflexivity |].
  intros b Hb. apply H. right. exact Hb.
Qed.

Section WorkerWarnings.

Variable save_as_jpeg : Z -> image_data_32 -> encode_result.
Variable save_as_png8_pal : image_data_32 -> Palette -> Z -> Z -> bool -> encode_result.
Variable save_as_png8_hex :
  image_data_32 -> Z -> Z -> Z -> Z -> Double.t -> bool -> encode_result.
Variable save_as_png8_oct : image_data_32 -> Z -> Z -> Z -> Z -> bool -> encode_result.
Variable save_as_png : image_data_32 -> Z -> Z -> bool -> bool -> encode_result.
Variable create : list byte -> option ImageReader.
Variable malloc_succeeds : Z -> bool.
Variable fmod : Double.t -> Double.t -> Double.t.

(** One iteration: either it decodes nothing and adds no warning, or it
    calls [decode()] and adds the warnings of the decoder, each under the
    label of the layer. *)
Lemma examine_reports (image : Image.t) (index : Z) (st : WalkState) :
  match examine create image index st with
  | Continue st' _ | Leave st' =>
      (ws_decoded st' = ws_decoded st /\
       BlendBaton.warnings (ws_baton st') = BlendBaton.warnings (ws_baton st)) \/
      (ws_decoded st' = index :: ws_decoded st /\
       BlendBaton.warnings (ws_baton st')
       = BlendBaton.warnings (ws_baton st)
         ++ map (layer_warning index) (decoder_warnings create image))
  | NullLayer => True
  end.
Proof.
  unfold examine, decoder_warnings.
  destruct (create (Image.data image)) as [layer |]; [| exact I].
  destruct ((rd_width layer =? 0) || (rd_height layer =? 0)).
  { left. split; reflexivity. }
  destruct (Int.fits _ && Int.fits _); cbn [negb]; [| exact I].
  match goal with |- context [if ?c then Continue _ _ else _] => destruct c end.
  { left. split; reflexivity. }
  match goal with |- context [if ?c then Leave _ else _] => destruct c end.
  { left. split; reflexivity. }
  destruct (rd_decode layer) as [message | warnings surface].
  - right. split; [reflexivity |]. cbn. symmetry. apply app_nil_r.
  - right. split; reflexivity.
Qed.

(** The warnings of the layer at place [index - i] of the list the loop
    walks, under the label [i]. *)
Let walked (rimages : list Image.t) (index i : Z) : list string :=
  match nth_error rimages (Z.to_nat (index - i)) with
  | Some image => map (layer_warning i) (decoder_warnings create image)
  | None => []
  end.

(** The loop: the warnings it adds are those of the layers it decodes,
    in the order of the decoding. *)
Lemma walk_reports (rimages : list Image.t) (index : Z) (st : WalkState) :
  match walk create rimages index st with
  | Fell st' _ | Returned st' _ =>
      exists new : list Z,
        ws_decoded st' = new ++ ws_decoded st /\
        (forall i : Z, In i new -> index - Z.of_nat (List.length rimages) < i <= index) /\
        BlendBaton.warnings (ws_baton st')
        = BlendBaton.warnings (ws_baton st) ++ flat_map (walked rimages index) (rev new)
  | NullReader => True
  end.
Proof.
  revert index st. induction rimages as [| image rest IH]; intros index st; cbn [walk].
  - exists []. split; [reflexivity |]. split; [intros i [] |].
    cbn. symmetry. apply app_nil_r.
  - destruct (negb (ws_alpha st)).
    { exists []. split; [reflexivity |]. split; [intros i [] |].
      cbn. symmetry. apply app_nil_r. }
    pose proof (examine_reports image index st) as Hex.
    assert (Hhead : walked (image :: rest) index index
                    = map (layer_warning index) (decoder_warnings create image)).
    { unfold walked. rewrite Z.sub_diag. reflexivity. }
    assert (Htail : forall new : list Z,
               (forall i : Z, In i new ->
                              index - 1 - Z.of_nat (List.length rest) < i <= index - 1) ->
               flat_map (walked (image :: rest) index) (rev new)
               = flat_map (walked rest (index - 1)) (rev new)).
    { intros new Hrange. apply flat_map_ext_in. intros i Hi. apply in_rev in Hi.
      apply Hrange in Hi. unfold walked.
      replace (Z.to_nat (index - i)) with (S (Z.to_nat (index - 1 - i))) by lia.
      reflexivity. }
    assert (Hjoin : forall st1 st2 : WalkState,
               (ws_decoded st1 = ws_decoded st /\
                BlendBaton.warnings (ws_baton st1) = BlendBaton.warnings (ws_baton st)) \/
               (ws_decoded st1 = index :: ws_decoded st /\
                BlendBaton.warnings (ws_baton st1)
                = BlendBaton.warnings (ws_baton st)
                  ++ map (layer_warning index) (decoder_warnings create image)) ->
               (exists new : list Z,
                   ws_decoded st2 = new ++ ws_decoded st1 /\
                   (forall i : Z, In i new ->
                                  index - 1 - Z.of_nat (List.length rest) < i <= index - 1) /\
                   BlendBaton.warnings (ws_baton st2)
                   = BlendBaton.warnings (ws_baton st1)
                     ++ flat_map (walked rest (index - 1)) (rev new)) ->
               exists new : list Z,
                 ws_decoded st2 = new ++ ws_decoded st /\
                 (forall i : Z, In i new ->
                                index - Z.of_nat (List.length (image :: rest)) < i <= index) /\
                 BlendBaton.warnings (ws_baton st2)
                 = BlendBaton.warnings (ws_baton st)
                   ++ flat_map (walked (image :: rest) index) (rev new)).
    { intros st1 st2 [[Ed Ew] | [Ed Ew]] (new & Enew & Hrange & Hwarn).
      - exists new. split; [rewrite Enew, Ed; reflexivity |]. split.
        + intros i Hi. apply Hrange in Hi. cbn [List.length]. lia.
        + rewrite Hwarn, Ew, (Htail new Hrange). reflexivity.
      - exists (new ++ [index]). split; [rewrite Enew, Ed, <- app_assoc; reflexivity |].
        split.
        + intros i Hi. apply in_app_iff in Hi. cbn [List.length].
          destruct Hi as [Hi | [<- | []]]; [apply Hrange in Hi |]; lia.
        + rewrite Hwarn, Ew, rev_app_distr. cbn [rev app flat_map].
          rewrite Hhead, (Htail new Hrange), <- app_assoc. reflexivity. }
    destruct (examine create image index st) as [st1 image1 | st1 |]; [| | exact I].
    + specialize (IH (index - 1) st1).
      destruct (walk create rest (index - 1) st1) as [st2 rest' | st2 rest' |];
        cbn [keep]; [exact (Hjoin st1 st2 Hex IH) | exact (Hjoin st1 st2 Hex IH) | exact I].
    + apply (Hjoin st1 st1 Hex). exists []. split; [reflexivity |].
      split; [intros i [] |]. cbn. symmetry. apply app_nil_r.
Qed.

Lemma Blend_Encode_warnings (image : image_data_32) (b : BlendBaton.t) (alpha : bool) :
  BlendBaton.warnings
    (Blend_Encode save_as_jpeg save_as_png8_pal save_as_png8_hex save_as_png8_oct
       save_as_png image b alpha)
  = BlendBaton.warnings b.
Proof.
  unfold Blend_Encode.
  destruct (BlendBaton.format b).
  - match goal with |- context [match ?r with Wrote _ => _ | Raised _ _ => _ end] =>
      destruct r end; reflexivity.
  - destruct (BlendBaton.quality b =? 0);
      match goal with |- context [match ?r with Wrote _ => _ | Raised _ _ => _ end] =>
        destruct r end; reflexivity.
Qed.

(** The warnings of a job that comes out of the worker are the warnings
    it came in with, followed by what the decoders said: for each layer
    the worker decoded, in the order of the decoding, the warnings the
    decoder of this layer gave, each after the text [Layer i: ], [i] the
    index of the layer in the job.  The worker adds nothing else: neither
    the compositing nor the encoder add a warning, and a warning is that of
    the decoder of a layer of the job that was decoded. *)
Theorem worker_labels_warnings (baton baton' : BlendBaton.t) (decoded : list Z) :
  Work_Blend save_as_jpeg save_as_png8_pal save_as_png8_hex save_as_png8_oct save_as_png
    create malloc_succeeds fmod baton = Finished baton' decoded ->
  BlendBaton.warnings baton'
  = BlendBaton.warnings baton
    ++ flat_map (reported create (BlendBaton.images baton)) (rev decoded) /\
  forall s : string,
    In s (flat_map (reported create (BlendBaton.images baton)) (rev decoded)) ->
    exists (i : Z) (image : Image.t) (layer : ImageReader) (warnings : list string)
           (surface : list Z) (w : string),
      In i decoded /\ 0 <= i < Z.of_nat (List.length (BlendBaton.images baton)) /\
      nth_error (BlendBaton.images baton) (Z.to_nat i) = Some image /\
      create (Image.data image) = Some layer /\
      rd_decode layer = Decoded warnings surface /\ In w warnings /\
      s = ("Layer " ++ decimal i ++ ": " ++ w)%string.
Proof.
  intros Hrun.
  assert (Hwarn : exists st : WalkState,
             BlendBaton.warnings baton' = BlendBaton.warnings (ws_baton st) /\
             decoded = ws_decoded st /\
             exists new : list Z,
               ws_decoded st = new ++ [] /\
               (forall i : Z, In i new ->
                  Z.of_nat (List.length (BlendBaton.images baton)) - 1
                  - Z.of_nat (List.length (rev (BlendBaton.images baton))) < i
                  <= Z.of_nat (List.length (BlendBaton.images baton)) - 1) /\
               BlendBaton.warnings (ws_baton st)
               = BlendBaton.warnings baton
                 ++ flat_map (walked (rev (BlendBaton.images baton))
                                (Z.of_nat (List.length (BlendBaton.images baton)) - 1))
                      (rev new)).
  { revert Hrun. unfold Work_Blend. cbv zeta.
    pose proof (walk_reports (rev (BlendBaton.images baton))
                  (Z.of_nat (List.length (BlendBaton.images baton)) - 1)
                  (initial_walk_state baton)) as Hwalk.
    destruct (walk create _ _ _) as [st rimages | st rimages |]; [| | discriminate].
    - unfold blend_images, blend_onto. cbv zeta.
      destruct (negb (Int.fits _)); [discriminate |].
      destruct (_ <=? 0); [intros [= <- <-]; exists st; repeat split; exact Hwalk |].
      destruct (negb (malloc_succeeds _));
        [intros [= <- <-]; exists st; repeat split; exact Hwalk |].
      destruct (composite_images _ _) as [target |]; [| discriminate].
      intros [= <- <-]. exists st. rewrite Blend_Encode_warnings.
      repeat split; exact Hwalk.
    - intros [= <- <-]. exists st. repeat split; exact Hwalk. }
  destruct Hwarn as (st & Ew & -> & new & Enew & Hrange & Hst).
  rewrite app_nil_r in Enew. rewrite length_rev in Hrange.
  assert (Hsame : forall i : Z,
             In i new ->
             walked (rev (BlendBaton.images baton))
               (Z.of_nat (List.length (BlendBaton.images baton)) - 1) i
             = reported create (BlendBaton.images baton) i).
  { intros i Hi. apply Hrange in Hi. unfold walked, reported.
    rewrite nth_error_rev.
    destruct (Nat.ltb_spec
                (Z.to_nat (Z.of_nat (List.length (BlendBaton.images baton)) - 1 - i))
                (List.length (BlendBaton.images baton))) as [Hlt | Hge]; [| lia].
    replace (List.length (BlendBaton.images baton)
             - S (Z.to_nat (Z.of_nat (List.length (BlendBaton.images baton)) - 1 - i)))%nat
      with (Z.to_nat i) by lia.
    reflexivity. }
  rewrite Enew. split.
  - rewrite Ew, Hst. f_equal. apply flat_map_ext_in.
    intros i Hi. apply in_rev in Hi. exact (Hsame i Hi).
  - intros s Hs. apply in_flat_map in Hs. destruct Hs as (i & Hi & Hs).
    apply in_rev in Hi. pose proof (Hrange i Hi) as Hi'.
    unfold reported in Hs.
    destruct (nth_error (BlendBaton.images baton) (Z.to_nat i)) as [image |] eqn:Hn;
      [| destruct Hs].
    apply in_map_iff in Hs. destruct Hs as (w & <- & Hw).
    unfold decoder_warnings in Hw.
    destruct (create (Image.data image)) as [layer |] eqn:Hc; [| destruct Hw].
    destruct (rd_decode layer) as [message | warnings surface] eqn:Hd; [destruct Hw |].
    exists i, image, layer, warnings, surface, w.
    repeat apply conj; try assumption; try reflexivity; lia.
Qed.

End WorkerWarnings.

Lemma worker_labels_warnings_witness :
  exists baton' : BlendBaton.t,
    Work_Blend sample_jpeg sample_png8_pal sample_png8_hex sample_png8_oct sample_png
      noisy_create (fun _ => true) sample_fmod (sample_job [other_2x2] true 0)
    = Finished baton' [0] /\
    BlendBaton.warnings baton' = ["Layer 0: truncated"%string].
Proof.
  eexists. split; [vm_compute; reflexivity |].
  destruct (worker_labels_warnings sample_jpeg sample_png8_pal sample_png8_hex
              sample_png8_oct sample_png noisy_create (fun _ => true) sample_fmod
              (sample_job [other_2x2] true 0) _ [0] ltac:(vm_compute; reflexivity))
    as [H _].
  rewrite H. reflexivity.
Defined.

(** ** [Blend_CompositePixel]: no channel leaves the span of its inputs *)

(** A channel of the blend is the quotient of a weighted sum of the
    source channel and the target channel by the sum of the weights. *)
Lemma spec_channel_mean (c1 c a0 a1 : Z) :
  is_byte c1 -> is_byte c -> 1 <= a0 <= 255 -> 1 <= a1 <= 254 ->
  spec_channel c1 (c * a0) a1 (spec_alpha a0 a1)
  = (c1 * (256 * a1) + c * (a0 * (256 - a1))) / (256 * a1 + a0 * (256 - a1)).
Proof.
  intros Hc1 Hc H0 H1.
  pose proof (channel_numerator_bounds c1 c a0 a1 Hc1 Hc H0 H1) as Hn.
  pose proof (spec_alpha_bounds a0 a1 H0 H1) as Ha.
  unfold spec_channel. rewrite Z.quot_div_nonneg by lia.
  unfold spec_alpha. f_equal; ring.
Qed.

Lemma mean_between (c1 c w1 w : Z) :
  0 < w1 -> 0 < w ->
  Z.min c c1 <= (c1 * w1 + c * w) / (w1 + w) <= Z.max c c1.
Proof.
  intros Hw1 Hw. split.
  - apply Z.div_le_lower_bound; [lia |].
    destruct (Z.min_spec c c1) as [[Hlt ->] | [Hle ->]]; nia.
  - apply Z.div_le_upper_bound; [lia |].
    destruct (Z.max_spec c c1) as [[Hlt ->] | [Hle ->]]; nia.
Qed.

(** The blend of two pixels that both have transparency, channel by
    channel. *)
Lemma over_channels (S T : Z) :
  U32.in_range S -> U32.in_range T ->
  1 <= alpha_of S <= 254 -> 1 <= alpha_of T <= 255 ->
  let a1 := alpha_of S in
  let a0 := alpha_of T in
  let a0' := spec_alpha a0 a1 in
  blue_of (over T S) = spec_channel (blue_of S) (blue_of T * a0) a1 a0' /\
  green_of (over T S) = spec_channel (green_of S) (green_of T * a0) a1 a0' /\
  red_of (over T S) = spec_channel (red_of S) (red_of T * a0) a1 a0'.
Proof.
  intros HS HT H1 H0. cbv zeta.
  destruct (argb_word_of_channels S HS) as (_ & _ & HbS & HgS & HrS & _).
  destruct (argb_word_of_channels T HT) as (_ & _ & HbT & HgT & HrT & _).
  pose proof (spec_alpha_bounds _ _ H0 H1) as Ha.
  destruct (over_channel_exact _ _ _ _ HbS HbT H0 H1) as [Eb Bb].
  destruct (over_channel_exact _ _ _ _ HgS HgT H0 H1) as [Eg Bg].
  destruct (over_channel_exact _ _ _ _ HrS HrT H0 H1) as [Er Br].
  assert (Ea : over_alpha (alpha_of T) (alpha_of S) = spec_alpha (alpha_of T) (alpha_of S))
    by (apply over_alpha_exact; unfold is_byte; lia).
  assert (Hbyte : is_byte (spec_alpha (alpha_of T) (alpha_of S) / 2 ^ 8))
    by (unfold is_byte; Z.div_mod_to_equations; lia).
  assert (Eover : over T S
                  = argb_word (spec_alpha (alpha_of T) (alpha_of S) / 2 ^ 8)
                      (spec_channel (blue_of S) (blue_of T * alpha_of T) (alpha_of S)
                         (spec_alpha (alpha_of T) (alpha_of S)))
                      (spec_channel (green_of S) (green_of T * alpha_of T) (alpha_of S)
                         (spec_alpha (alpha_of T) (alpha_of S)))
                      (spec_channel (red_of S) (red_of T * alpha_of T) (alpha_of S)
                         (spec_alpha (alpha_of T) (alpha_of S)))).
  { unfold over.
    change (Z.land (U32.shr S 24) 255) with (alpha_of S).
    change (Z.land (U32.shr T 24) 255) with (alpha_of T).
    change (Z.land (U32.shr S 16) 255) with (blue_of S).
    change (Z.land (U32.shr T 16) 255) with (blue_of T).
    change (Z.land (U32.shr S 8) 255) with (green_of S).
    change (Z.land (U32.shr T 8) 255) with (green_of T).
    change (Z.land S 255) with (red_of S).
    change (Z.land T 255) with (red_of T).
    cbv zeta. rewrite Eb, Eg, Er, Ea.
    unfold U32.shr. rewrite Z.shiftr_div_pow2 by lia.
    apply pack_argb_exact; assumption. }
  rewrite Eover.
  destruct (channels_of_argb_word _ _ _ _ Hbyte Bb Bg Br) as (_ & -> & -> & ->).
  repeat apply conj; reflexivity.
Qed.

(** Compositing never overshoots: each of the red, green and blue bytes
    of the result lies between the corresponding bytes of the target and
    of the source (the blend is a weighted mean of the two, rounded
    down). *)
Theorem composite_channels_between (S T R : Z) :
  U32.in_range S -> U32.in_range T ->
  Blend_CompositePixel (Some T) S = Some R ->
  Z.min (red_of T) (red_of S) <= red_of R <= Z.max (red_of T) (red_of S) /\
  Z.min (green_of T) (green_of S) <= green_of R <= Z.max (green_of T) (green_of S) /\
  Z.min (blue_of T) (blue_of S) <= blue_of R <= Z.max (blue_of T) (blue_of S).
Proof.
  intros HS HT.
  destruct (composite_cases S T HS HT)
    as [[_ ->] | [[_ ->] | [[_ ->] | (H1 & H0 & ->)]]]; intros [= <-]; try lia.
  destruct (argb_word_of_channels S HS) as (_ & _ & HbS & HgS & HrS & _).
  destruct (argb_word_of_channels T HT) as (_ & _ & HbT & HgT & HrT & _).
  destruct (over_channels S T HS HT H1 H0) as (-> & -> & ->).
  rewrite !spec_channel_mean by assumption.
  repeat apply conj; apply mean_between; nia.
Qed.

Lemma composite_channels_between_witness :
  Z.min (red_of 0xFF000005) (red_of 0x80000009) <= red_of 0xFF000007
  <= Z.max (red_of 0xFF000005) (red_of 0x80000009).
Proof.
  destruct (composite_channels_between 0x80000009 0xFF000005 0xFF000007) as (H & _).
  - unfold U32.in_range, U32.modulus. lia.
  - unfold U32.in_range, U32.modulus. lia.
  - vm_compute. reflexivity.
  - exact H.
Defined.

(** ** [Blend_Composite]: layers that do not overlap *)

Lemma blit_ready_length (target target' : list cell) (baton : BlendBaton.t)
  (image : Image.t) (layer : ImageReader) :
  List.length target' = List.length target ->
  blit_ready target baton image layer -> blit_ready target' baton image layer.
Proof.
  intros Hlen (H1 & H2 & H3 & H4 & H5 & H6 & H7 & H8). unfold blit_ready.
  rewrite Hlen. repeat apply conj; try assumption; apply H8.
Qed.

Lemma cell_position_unique (W y x y' x' : Z) :
  0 <= x < W -> 0 <= x' < W -> y * W + x = y' * W + x' -> y = y' /\ x = x'.
Proof. intros Hx Hx' E. assert (y = y') by nia. subst y'. lia. Qed.

(** Rectangles of which one lies wholly to the left of, to the right of,
    above or below the other share no canvas word. *)
Lemma separated_targets (baton : BlendBaton.t) (A B : Image.t) (target : list cell)
  (layerA layerB : ImageReader) (i : Z) :
  blit_ready target baton A layerA -> blit_ready target baton B layerB ->
  (targetX (blit_rect baton A) + blit_width (blit_rect baton A) <= targetX (blit_rect baton B) \/
   targetX (blit_rect baton B) + blit_width (blit_rect baton B) <= targetX (blit_rect baton A) \/
   targetY (blit_rect baton A) + blit_height (blit_rect baton A) <= targetY (blit_rect baton B) \/
   targetY (blit_rect baton B) + blit_height (blit_rect baton B) <= targetY (blit_rect baton A)) ->
  In i (map fst (blit_accesses baton A)) -> In i (map fst (blit_accesses baton B)) -> False.
Proof.
  intros HA HB Hsep HiA HiB.
  pose proof (blit_ready_height _ _ _ _ HA) as HhA.
  pose proof (blit_ready_height _ _ _ _ HB) as HhB.
  destruct HA as (_ & A1 & A2 & _ & A3 & A4 & _ & A5 & A6 & A7 & A8).
  destruct HB as (_ & B1 & B2 & _ & _ & _ & _ & B5 & B6 & B7 & B8).
  destruct (blit_rect_bounds baton A A1 A2 A3 A4 A5 A6 A7 A8) as (_ & _ & TA).
  destruct (blit_rect_bounds baton B B1 B2 A3 A4 B5 B6 B7 B8) as (_ & _ & TB).
  apply in_map_iff in HiA. destruct HiA as ([ti si] & E & HiA). cbn [fst] in E. subst ti.
  apply in_map_iff in HiB. destruct HiB as ([ti si'] & E & HiB). cbn [fst] in E. subst ti.
  apply blit_accesses_spec in HiA; [| exact HhA].
  apply blit_accesses_spec in HiB; [| exact HhB].
  destruct HiA as (row & col & Hrow & Hcol & Ei & _).
  destruct HiB as (row' & col' & Hrow' & Hcol' & Ei' & _).
  set (rA := blit_rect baton A) in *. set (rB := blit_rect baton B) in *.
  destruct (cell_position_unique (BlendBaton.width baton)
              (targetY rA + row) (targetX rA + col) (targetY rB + row') (targetX rB + col'))
    as [Ey Ex]; lia.
Qed.

(** Two layers whose target rectangles do not overlap can be composited
    in either order: the canvas is the same. *)
Theorem disjoint_blits_commute (target : list cell) (baton : BlendBaton.t)
  (A B : Image.t) (layerA layerB : ImageReader) :
  blit_ready target baton A layerA -> blit_ready target baton B layerB ->
  (targetX (blit_rect baton A) + blit_width (blit_rect baton A) <= targetX (blit_rect baton B) \/
   targetX (blit_rect baton B) + blit_width (blit_rect baton B) <= targetX (blit_rect baton A) \/
   targetY (blit_rect baton A) + blit_height (blit_rect baton A) <= targetY (blit_rect baton B) \/
   targetY (blit_rect baton B) + blit_height (blit_rect baton B) <= targetY (blit_rect baton A)) ->
  match Blend_Composite target baton A with
  | Some canvas => Blend_Composite canvas baton B
  | None => None
  end
  = match Blend_Composite target baton B with
    | Some canvas => Blend_Composite canvas baton A
    | None => None
    end.
Proof.
  intros HA HB Hsep.
  destruct (blit_fits baton A) eqn:FA.
  2:{ rewrite (blit_overflow target baton A FA).
      destruct (Blend_Composite target baton B) as [canvas |]; [| reflexivity].
      symmetry. exact (blit_overflow canvas baton A FA). }
  destruct (blit_fits baton B) eqn:FB.
  2:{ rewrite (blit_overflow target baton B FB).
      destruct (Blend_Composite target baton A) as [canvas |]; [| reflexivity].
      exact (blit_overflow canvas baton B FB). }
  destruct (blit_ready_run _ _ _ _ HA FA) as (tA & EA & LA & InA & OutA).
  destruct (blit_ready_run _ _ _ _ HB FB) as (tB & EB & LB & InB & OutB).
  destruct (blit_ready_run _ _ _ _ (blit_ready_length _ tA _ _ _ LA HB) FB)
    as (tAB & EAB & LAB & InAB & OutAB).
  destruct (blit_ready_run _ _ _ _ (blit_ready_length _ tB _ _ _ LB HA) FA)
    as (tBA & EBA & LBA & InBA & OutBA).
  rewrite EA, EB, EAB, EBA. f_equal.
  apply list_eq_by_get; [congruence |].
  intros i Hi.
  destruct (in_dec Z.eq_dec i (map fst (blit_accesses baton A))) as [HiA | HiA].
  - assert (HiB : ~ In i (map fst (blit_accesses baton B)))
      by (intros HiB; exact (separated_targets _ _ _ _ _ _ _ HA HB Hsep HiA HiB)).
    rewrite (OutAB i HiB).
    apply in_map_iff in HiA. destruct HiA as ([ti si] & E & HiA). cbn [fst] in E. subst ti.
    destruct (InA i si HiA) as (t & s & Ht & Hs & ->).
    destruct (InBA i si HiA) as (t' & s' & Ht' & Hs' & ->).
    rewrite (OutB i HiB) in Ht'. congruence.
  - rewrite (OutBA i HiA).
    destruct (in_dec Z.eq_dec i (map fst (blit_accesses baton B))) as [HiB | HiB].
    + apply in_map_iff in HiB. destruct HiB as ([ti si] & E & HiB). cbn [fst] in E. subst ti.
      destruct (InB i si HiB) as (t & s & Ht & Hs & ->).
      destruct (InAB i si HiB) as (t' & s' & Ht' & Hs' & ->).
      rewrite (OutA i HiA) in Ht'. congruence.
    + rewrite (OutAB i HiB), (OutB i HiB). apply OutA. exact HiA.
Qed.

Lemma disjoint_blits_commute_witness :
  match Blend_Composite (repeat (Some 0xFF000001) 6) canvas_3x2 decoded_dot with
  | Some canvas => Blend_Composite canvas canvas_3x2 decoded_clear
  | None => None
  end
  = match Blend_Composite (repeat (Some 0xFF000001) 6) canvas_3x2 decoded_clear with
    | Some canvas => Blend_Composite canvas canvas_3x2 decoded_dot
    | None => None
    end.
Proof.
  apply (disjoint_blits_commute _ canvas_3x2 decoded_dot decoded_clear
           (sample_reader decoded_dot) clear_reader).
  - unfold blit_ready. cbn. repeat apply conj; try reflexivity; lia.
  - unfold blit_ready. cbn. repeat apply conj; try reflexivity; lia.
  - left. cbn. lia.
Defined.

(** ** [Work_Blend]: only layers in the viewport are decoded *)

Section WorkerViewport.

Variable save_as_jpeg : Z -> image_data_32 -> encode_result.
Variable save_as_png8_pal : image_data_32 -> Palette -> Z -> Z -> bool -> encode_result.
Variable save_as_png8_hex :
  image_data_32 -> Z -> Z -> Z -> Z -> Double.t -> bool -> encode_result.
Variable save_as_png8_oct : image_data_32 -> Z -> Z -> Z -> Z -> bool -> encode_result.
Variable save_as_png : image_data_32 -> Z -> Z -> bool -> bool -> encode_result.
Variable create : list byte -> option ImageReader.
Variable malloc_succeeds : Z -> bool.
Variable fmod : Double.t -> Double.t -> Double.t.

Variables W H : Z.
Hypothesis W_given : 0 < W.
Hypothesis H_given : 0 < H.

(** One iteration on a canvas the caller gave: the canvas is kept, and
    the layer is decoded only if it passed the viewport test. *)
Lemma examine_decodes_visible (image : Image.t) (index : Z) (st : WalkState) :
  BlendBaton.width (ws_baton st) = W -> BlendBaton.height (ws_baton st) = H ->
  match examine create image index st with
  | Continue st' _ | Leave st' =>
      BlendBaton.width (ws_baton st') = W /\ BlendBaton.height (ws_baton st') = H /\
      (ws_decoded st' = ws_decoded st \/
       (ws_decoded st' = index :: ws_decoded st /\
        exists layer : ImageReader,
          create (Image.data image) = Some layer /\ in_viewport W H image layer))
  | NullLayer => True
  end.
Proof.
  intros HW HH. unfold examine.
  destruct (create (Image.data image)) as [layer |]; [| exact I].
  destruct ((rd_width layer =? 0) || (rd_height layer =? 0)).
  { cbn. repeat apply conj; try assumption. left. reflexivity. }
  destruct (Int.fits _ && Int.fits _); cbn [negb]; [| exact I].
  cbn [BlendBaton.width BlendBaton.height BlendBaton.set_width BlendBaton.set_height].
  rewrite HW, HH, !seed_given by assumption.
  destruct (Z.leb_spec (to_int (rd_width layer) + Image.x image) 0) as [Hvw | Hvw];
    cbn [orb].
  { cbn. repeat apply conj; try reflexivity. left. reflexivity. }
  destruct (Z.leb_spec (to_int (rd_height layer) + Image.y image) 0) as [Hvh | Hvh];
    cbn [orb].
  { cbn. repeat apply conj; try reflexivity. left. reflexivity. }
  cbn [BlendBaton.width BlendBaton.height BlendBaton.set_width BlendBaton.set_height].
  destruct (Z.leb_spec W (Image.x image)) as [Hx | Hx]; cbn [orb].
  { cbn. repeat apply conj; try reflexivity. left. reflexivity. }
  destruct (Z.leb_spec H (Image.y image)) as [Hy | Hy]; cbn [orb].
  { cbn. repeat apply conj; try reflexivity. left. reflexivity. }
  assert (Hvis : in_viewport W H image layer) by (unfold in_viewport; lia).
  match goal with |- context [if ?c then Leave _ else _] => destruct c end.
  { cbn. repeat apply conj; try reflexivity. left. reflexivity. }
  destruct (rd_decode layer) as [message | warnings surface];
    cbn; repeat apply conj; try reflexivity; right;
    (split; [reflexivity | exists layer; split; [reflexivity | exact Hvis]]).
Qed.

Lemma walk_decodes_visible (rimages : list Image.t) (index : Z) (st : WalkState) :
  BlendBaton.width (ws_baton st) = W -> BlendBaton.height (ws_baton st) = H ->
  match walk create rimages index st with
  | Fell st' _ | Returned st' _ =>
      exists new : list Z,
        ws_decoded st' = new ++ ws_decoded st /\
        forall i : Z, In i new ->
          i <= index /\
          exists (image : Image.t) (layer : ImageReader),
            nth_error rimages (Z.to_nat (index - i)) = Some image /\
            create (Image.data image) = Some layer /\ in_viewport W H image layer
  | NullReader => True
  end.
Proof.
  revert index st. induction rimages as [| image rest IH]; intros index st HW HH; cbn [walk].
  - exists []. split; [reflexivity | intros i []].
  - destruct (negb (ws_alpha st)).
    { exists []. split; [reflexivity | intros i []]. }
    pose proof (examine_decodes_visible image index st HW HH) as Hex.
    assert (Hhead : forall i : Z,
               i = index ->
               (exists layer : ImageReader,
                   create (Image.data image) = Some layer /\ in_viewport W H image layer) ->
               i <= index /\
               exists (image' : Image.t) (layer : ImageReader),
                 nth_error (image :: rest) (Z.to_nat (index - i)) = Some image' /\
                 create (Image.data image') = Some layer /\ in_viewport W H image' layer).
    { intros i -> (layer & Hc & Hv). split; [lia |]. exists image, layer.
      rewrite Z.sub_diag. split; [reflexivity | split; [exact Hc | exact Hv]]. }
    assert (Htail : forall i : Z,
               (i <= index - 1 /\
                exists (image' : Image.t) (layer : ImageReader),
                  nth_error rest (Z.to_nat (index - 1 - i)) = Some image' /\
                  create (Image.data image') = Some layer /\ in_viewport W H image' layer) ->
               i <= index /\
               exists (image' : Image.t) (layer : ImageReader),
                 nth_error (image :: rest) (Z.to_nat (index - i)) = Some image' /\
                 create (Image.data image') = Some layer /\ in_viewport W H image' layer).
    { intros i (Hi & image' & layer & Hn & Hc & Hv). split; [lia |]. exists image', layer.
      replace (Z.to_nat (index - i)) with (S (Z.to_nat (index - 1 - i))) by lia.
      split; [exact Hn | split; [exact Hc | exact Hv]]. }
    destruct (examine create image index st) as [st1 image1 | st1 |]; [| | exact I].
    + destruct Hex as (HW1 & HH1 & Hdec). specialize (IH (index - 1) st1 HW1 HH1).
      assert (Hjoin : forall st2 : WalkState,
                 (exists new : list Z,
                     ws_decoded st2 = new ++ ws_decoded st1 /\
                     forall i : Z, In i new ->
                       i <= index - 1 /\
                       exists (image' : Image.t) (layer : ImageReader),
                         nth_error rest (Z.to_nat (index - 1 - i)) = Some image' /\
                         create (Image.data image') = Some layer /\
                         in_viewport W H image' layer) ->
                 exists new : list Z,
                   ws_decoded st2 = new ++ ws_decoded st /\
                   forall i : Z, In i new ->
                     i <= index /\
                     exists (image' : Image.t) (layer : ImageReader),
                       nth_error (image :: rest) (Z.to_nat (index - i)) = Some image' /\
                       create (Image.data image') = Some layer /\
                       in_viewport W H image' layer).
      { intros st2 (new & Enew & Hnew). destruct Hdec as [E | (E & Hvis)].
        - exists new. split; [rewrite Enew, E; reflexivity |].
          intros i Hi. apply Htail. exact (Hnew i Hi).
        - exists (new ++ [index]). split; [rewrite Enew, E, <- app_assoc; reflexivity |].
          intros i Hi. apply in_app_iff in Hi. destruct Hi as [Hi | [<- | []]].
          + apply Htail. exact (Hnew i Hi).
          + apply Hhead; [reflexivity | exact Hvis]. }
      destruct (walk create rest (index - 1) st1) as [st2 rest' | st2 rest' |];
        cbn [keep]; [exact (Hjoin st2 IH) | exact (Hjoin st2 IH) | exact I].
    + destruct Hex as (_ & _ & [E | (E & Hvis)]).
      * exists []. split; [exact E | intros i []].
      * exists [index]. split; [exact E |].
        intros i [<- | []]. apply Hhead; [reflexivity | exact Hvis].
Qed.

(** On a canvas whose width and height the caller gave, the worker
    decodes a layer only if the layer passes the viewport test: a layer
    that lies outside the canvas is never decoded. *)
Theorem decoded_layers_in_viewport (baton baton' : BlendBaton.t) (decoded : list Z) :
  BlendBaton.width baton = W -> BlendBaton.height baton = H ->
  Work_Blend save_as_jpeg save_as_png8_pal save_as_png8_hex save_as_png8_oct save_as_png
    create malloc_succeeds fmod baton = Finished baton' decoded ->
  forall i : Z, In i decoded ->
    exists (image : Image.t) (layer : ImageReader),
      0 <= i /\
      nth_error (BlendBaton.images baton) (Z.to_nat i) = Some image /\
      create (Image.data image) = Some layer /\ in_viewport W H image layer.
Proof.
  intros HW HH. unfold Work_Blend. cbv zeta.
  pose proof (walk_decodes_visible (rev (BlendBaton.images baton))
                (Z.of_nat (List.length (BlendBaton.images baton)) - 1)
                (initial_walk_state baton) HW HH) as Hwalk.
  assert (Hall : forall st : WalkState,
             (exists new : list Z,
                 ws_decoded st = new ++ ws_decoded (initial_walk_state baton) /\
                 forall i : Z, In i new ->
                   i <= Z.of_nat (List.length (BlendBaton.images baton)) - 1 /\
                   exists (image : Image.t) (layer : ImageReader),
                     nth_error (rev (BlendBaton.images baton))
                       (Z.to_nat (Z.of_nat (List.length (BlendBaton.images baton)) - 1 - i))
                     = Some image /\
                     create (Image.data image) = Some layer /\
                     in_viewport W H image layer) ->
             forall i : Z, In i (ws_decoded st) ->
               exists (image : Image.t) (layer : ImageReader),
                 0 <= i /\
                 nth_error (BlendBaton.images baton) (Z.to_nat i) = Some image /\
                 create (Image.data image) = Some layer /\ in_viewport W H image layer).
  { intros st (new & E & Hnew) i Hi. cbn [initial_walk_state ws_decoded] in E.
    rewrite app_nil_r in E. rewrite E in Hi.
    destruct (Hnew i Hi) as (Hle & image & layer & Hn & Hc & Hv).
    exists image, layer. rewrite nth_error_rev in Hn.
    destruct (Nat.ltb_spec
                (Z.to_nat (Z.of_nat (List.length (BlendBaton.images baton)) - 1 - i))
                (List.length (BlendBaton.images baton))) as [Hlt | Hge];
      [| discriminate].
    assert (H0 : 0 <= i).
    { destruct (Z.le_gt_cases 0 i) as [Hp | Hn0]; [exact Hp |].
      exfalso.
      assert (Hsome : nth_error (BlendBaton.images baton)
                        (List.length (BlendBaton.images baton)
                         - S (Z.to_nat (Z.of_nat (List.length (BlendBaton.images baton))
                                        - 1 - i))) <> None) by congruence.
      apply nth_error_Some in Hsome. lia. }
    split; [exact H0 |]. split; [| split; [exact Hc | exact Hv]].
    rewrite <- Hn. f_equal. lia. }
  destruct (walk create _ _ _) as [st rimages | st rimages |]; [| | discriminate].
  - unfold blend_images, blend_onto. cbv zeta.
    destruct (negb (Int.fits _)); [discriminate |].
    destruct (_ <=? 0); [intros [= _ <-]; exact (Hall st Hwalk) |].
    destruct (negb (malloc_succeeds _)); [intros [= _ <-]; exact (Hall st Hwalk) |].
    destruct (composite_images _ _) as [target |]; [| discriminate].
    intros [= _ <-]. exact (Hall st Hwalk).
  - intros [= _ <-]. exact (Hall st Hwalk).
Qed.

End WorkerViewport.

Lemma decoded_layers_in_viewport_witness :
  exists baton' : BlendBaton.t,
    sample_Work_Blend offscreen_job = Finished baton' [0] /\
    forall i : Z, In i [0] ->
      exists (image : Image.t) (layer : ImageReader),
        0 <= i /\
        nth_error (BlendBaton.images offscreen_job) (Z.to_nat i) = Some image /\
        sample_create (Image.data image) = Some layer /\ in_viewport 2 2 image layer.
Proof.
  eexists. split; [vm_compute; reflexivity |].
  eapply (decoded_layers_in_viewport sample_jpeg sample_png8_pal sample_png8_hex
            sample_png8_oct sample_png sample_create (fun _ => true) sample_fmod 2 2
            ltac:(lia) ltac:(lia) offscreen_job).
  - reflexivity.
  - reflexivity.
  - vm_compute. reflexivity.
Defined.
